(** * HID Origo integration: token cache, pass lifecycle, callbacks and events

    A shallow embedding of [src/api/auth.py], [src/api/credentials.py],
    [src/api/callbacks.py], [src/api/users.py] and [src/utils/config.py].

    Conventions of the embedding.
    - Console output ([print]) is narration and is left out, except where
      building the text can raise.
    - A clock reading ([time.time()]) is the rational number the float
      denotes; the difference of two readings is rounded as binary64
      rounds it ([float_sub]); comparison with an integer is exact, as in
      Python.
    - A Python [str] is the string of the bytes of its UTF-8 encoding.
    - A Python exception is a value of [exn]; a method is a function from
      the state it can touch to a [result] and the state it leaves.
    - The [requests] library is the boundary of the program: what the
      platform answers to a request is an argument ([reply]) of the method
      that sends it, and every request that is sent is appended to the
      [sent] log of the state. *)

From Stdlib Require Import ZArith QArith Qround Qpower Lqa String Ascii List DecimalString.
From stdpp Require Import gmap strings.
Import ListNotations.

Set Warnings "-register-all".

Local Open Scope string_scope.
Local Open Scope Z_scope.

(** ** Exceptions and results *)

Inductive exn : Type :=
| ConnectionError                              (* requests.exceptions.ConnectionError *)
| Timeout                                      (* requests.exceptions.Timeout *)
| HTTPError (status_code : Z) (text : string)  (* raised by raise_for_status *)
| JSONDecodeError                              (* raised by response.json() *)
| KeyError (key : string)
| AttributeError (what : string)
| ValueError (msg : string)
| TypeError (msg : string).

(** The name of the class of an exception. *)
Definition exn_class (e : exn) : string :=
  match e with
  | ConnectionError => "ConnectionError"
  | Timeout => "Timeout"
  | HTTPError _ _ => "HTTPError"
  | JSONDecodeError => "JSONDecodeError"
  | KeyError _ => "KeyError"
  | AttributeError _ => "AttributeError"
  | ValueError _ => "ValueError"
  | TypeError _ => "TypeError"
  end.

Inductive result (A : Type) : Type :=
| Ok (a : A)
| Raise (e : exn).
Arguments Ok {A} a.
Arguments Raise {A} e.

Definition is_ok {A} (r : result A) : bool :=
  match r with Ok _ => true | Raise _ => false end.

(** ** Python values of type [Any] and dictionaries

    A [dict] keeps its keys in insertion order, so it is an association list
    whose keys are distinct.  JSON numbers are restricted to integers. *)

Inductive pyval : Type :=
| PNone
| PBool (b : bool)
| PInt (z : Z)
| PStr (s : string)
| PList (l : list pyval)
| PDict (d : list (string * pyval)).

Abbreviation pydict := (list (string * pyval)).

(** A string is used as the value that holds it. *)
Coercion PStr : string >-> pyval.

Fixpoint dict_lookup {V} (k : string) (d : list (string * V)) : option V :=
  match d with
  | [] => None
  | (k', v) :: d' => if String.eqb k k' then Some v else dict_lookup k d'
  end.

(** [d.get(k, dflt)] *)
Definition dict_get {V} (k : string) (dflt : V) (d : list (string * V)) : V :=
  match dict_lookup k d with Some v => v | None => dflt end.

(** [k in d] *)
Definition dict_has {V} (k : string) (d : list (string * V)) : bool :=
  match dict_lookup k d with Some _ => true | None => false end.

(** Truthiness of an [Optional[str]]: [None] and the empty string are false. *)
Definition truthy (o : option string) : bool :=
  match o with
  | None => false
  | Some s => negb (String.eqb s "")
  end.

(** ** Rendering values in f-strings

    [py_str] is [str(v)] and [py_repr] is [repr(v)] on the values above.
    The escaping of [repr] is the one of ASCII text; bytes from 128 up are
    kept as they are. *)

Definition hex_digit (n : N) : ascii :=
  match String.get (N.to_nat n) "0123456789abcdef" with
  | Some c => c
  | None => "0"%char
  end.

Definition apostrophe : ascii := "039"%char.
Definition dquote : ascii := "034"%char.
Definition backslash : ascii := "092"%char.

Fixpoint contains_char (c : ascii) (s : string) : bool :=
  match s with
  | EmptyString => false
  | String c' s' => Ascii.eqb c c' || contains_char c s'
  end.

Definition escape_char (quote c : ascii) : string :=
  let n := N_of_ascii c in
  if Ascii.eqb c backslash then String backslash (String backslash "")
  else if Ascii.eqb c quote then String backslash (String quote "")
  else if Ascii.eqb c "010"%char then String backslash "n"
  else if Ascii.eqb c "013"%char then String backslash "r"
  else if Ascii.eqb c "009"%char then String backslash "t"
  else if (n <? 32)%N || (n =? 127)%N
       then String backslash
              (String "x" (String (hex_digit (n / 16)) (String (hex_digit (n mod 16)) "")))
  else String c "".

Fixpoint escape_all (quote : ascii) (s : string) : string :=
  match s with
  | EmptyString => ""
  | String c s' => escape_char quote c +:+ escape_all quote s'
  end.

Definition repr_str (s : string) : string :=
  let quote := if contains_char apostrophe s && negb (contains_char dquote s)
               then dquote else apostrophe in
  String quote (escape_all quote s +:+ String quote "").

Fixpoint py_repr (v : pyval) : string :=
  match v with
  | PNone => "None"
  | PBool true => "True"
  | PBool false => "False"
  | PInt z => NilZero.string_of_int (Z.to_int z)
  | PStr s => repr_str s
  | PList l => "[" +:+ String.concat ", " (map py_repr l) +:+ "]"
  | PDict d =>
      "{" +:+ String.concat ", "
                (map (fun '(k, x) => repr_str k +:+ ": " +:+ py_repr x) d) +:+ "}"
  end.

Definition py_str (v : pyval) : string :=
  match v with
  | PStr s => s
  | _ => py_repr v
  end.

(** [v == s] for a string literal [s] *)
Definition eq_str (v : pyval) (s : string) : bool :=
  match v with
  | PStr s' => String.eqb s' s
  | _ => false
  end.

(** An [Optional[str]] as a value: [None] stays [None]. *)
Definition of_optional (o : option string) : pyval :=
  match o with
  | Some s => PStr s
  | None => PNone
  end.

(** ** HTTP boundary *)

Inductive body : Type :=
| NoBody
| Form (fields : list (string * string))   (* data=..., form-urlencoded *)
| Json (payload : pydict).                 (* json=... *)

Inductive verb : Type := GET | POST | PATCH | DELETE.

Record request : Type := {
  rq_verb : verb;
  rq_url : string;
  rq_body : body;
  rq_headers : list (string * string)
}.

(** A response carries its status, its raw text and, when the text is JSON,
    the decoded document read at type [B]. *)
Record response (B : Type) : Type := {
  status_code : Z;
  text : string;
  json : option B
}.
Arguments status_code {B} r.
Arguments text {B} r.
Arguments json {B} r.

(** What happens to a request: the transport raises, or an answer arrives. *)
Inductive reply (B : Type) : Type :=
| Refused (e : exn)
| Answered (r : response B).
Arguments Refused {B} e.
Arguments Answered {B} r.

(** ** Differences of clock readings

    [float_sub x y] is the binary64 difference of the readings [x] and [y]:
    the exact difference rounded to 53 significant bits, ties to even, with
    the spacing of subnormal numbers below [2^-1022].  The exponent has no
    upper bound here; readings of a clock are far from overflow. *)

Definition pow2 (z : Z) : Q := Qpower 2 z.

(** The [z] with [2^z <= q < 2^(z+1)], for [q > 0]. *)
Definition ilog2 (q : Q) : Z :=
  let z := Z.log2 (Qnum q) - Z.log2 (Zpos (Qden q)) in
  if Qle_bool (pow2 z) q then z else z - 1.

Definition round_half_even (q : Q) : Z :=
  let f := Qfloor q in
  match Qcompare (q - inject_Z f) (1 # 2) with
  | Lt => f
  | Gt => f + 1
  | Eq => if Z.even f then f else f + 1
  end.

(** The exponent of the last bit of the binary64 numbers around [a > 0]. *)
Definition exponent (a : Q) : Z := Z.max (ilog2 a - 52) (-1074).

Definition round_pos (a : Q) : Q :=
  inject_Z (round_half_even (a / pow2 (exponent a))) * pow2 (exponent a).

Definition round53 (q : Q) : Q :=
  if Qeq_bool q 0 then 0
  else if Qle_bool 0 q then round_pos q else - round_pos (- q).

(** [x - y] on floats *)
Definition float_sub (x y : Q) : Q := round53 (x - y).

(** ** The token and the authentication client (auth.py) *)

Record TokenResponse : Type := {
  access_token : pyval;
  token_type : string;
  expires_in : Z;
  id_token : option string;
  obtained_at : Q
}.

(** [TokenResponse.is_expired], with the clock reading [now] made explicit. *)
Definition is_expired (self : TokenResponse) (buffer_seconds : Z) (now : Q) : bool :=
  if Qeq_bool (obtained_at self) 0 then true
  else
    let elapsed := float_sub now (obtained_at self) in
    Qle_bool (inject_Z (expires_in self - buffer_seconds)) elapsed.

(** The JSON object of the token endpoint; an absent key is [None].  The
    access token is kept as the value the answer holds, which
    [authenticate] stores and slices; the other fields are read at the
    types [TokenResponse] declares.  A body that is JSON without being an
    object is left out. *)
Record TokenJson : Type := {
  j_access_token : option pyval;
  j_token_type : option string;
  j_expires_in : option Z;
  j_id_token : option string
}.

Record OrigoAuth : Type := {
  organization_id : string;
  client_id : string;
  client_secret : string;
  base_url : string;
  _token : option TokenResponse
}.

Definition with_token (a : OrigoAuth) (t : option TokenResponse) : OrigoAuth :=
  {| organization_id := organization_id a; client_id := client_id a;
     client_secret := client_secret a; base_url := base_url a; _token := t |}.

(** The state a client method can touch: the auth object it holds, the
    clock, and the log of requests sent so far (oldest first). *)
Record State : Type := {
  auth : OrigoAuth;
  clock : Q;
  sent : list request
}.

(** ** A state and exception monad *)

Definition M (A : Type) : Type := State -> result A * State.

Definition ret {A} (a : A) : M A := fun st => (Ok a, st).
Definition raise {A} (e : exn) : M A := fun st => (Raise e, st).
Definition bind {A B} (m : M A) (k : A -> M B) : M B :=
  fun st => match m st with
            | (Ok a, st') => k a st'
            | (Raise e, st') => (Raise e, st')
            end.
Definition gets {A} (f : State -> A) : M A := fun st => (Ok (f st), st).
Definition modify (f : State -> State) : M unit := fun st => (Ok tt, f st).

Notation "x <- m ;; k" := (bind m (fun x => k))
  (at level 100, m at next level, right associativity).
Notation "m ;;; k" := (bind m (fun _ => k))
  (at level 100, right associativity).

Definition set_token (t : TokenResponse) : M unit :=
  modify (fun st => {| auth := with_token (auth st) (Some t);
                       clock := clock st; sent := sent st |}).

Definition log_request (rq : request) : M unit :=
  modify (fun st => {| auth := auth st; clock := clock st;
                       sent := sent st ++ [rq] |}).

(** [time.time()] and [time.sleep(d)] *)
Definition time_time : M Q := gets clock.
Definition time_sleep (d : Q) : M unit :=
  modify (fun st => {| auth := auth st; clock := (clock st + d)%Q;
                       sent := sent st |}).

(** [requests.<verb>(url, ...)]: the request goes out, then the transport
    raises or hands back the response. *)
Definition requests_send {B} (r : reply B) (rq : request) : M (response B) :=
  log_request rq ;;;
  match r with
  | Refused e => raise e
  | Answered resp => ret resp
  end.

(** [response.raise_for_status()]: HTTPError for 4xx and 5xx. *)
Definition raise_for_status {B} (resp : response B) : M unit :=
  if (400 <=? status_code resp) && (status_code resp <? 600)
  then raise (HTTPError (status_code resp) (text resp))
  else ret tt.

(** [response.json()] *)
Definition response_json {B} (resp : response B) : M B :=
  match json resp with
  | Some b => ret b
  | None => raise JSONDecodeError
  end.

Definition token_endpoint (a : OrigoAuth) : string :=
  base_url a +:+ "/authentication/customer/" +:+ organization_id a +:+ "/token".

Definition token_request (a : OrigoAuth) : request :=
  {| rq_verb := POST;
     rq_url := token_endpoint a;
     rq_body := Form [("client_id", client_id a);
                      ("client_secret", client_secret a);
                      ("grant_type", "client_credentials")];
     rq_headers := [("Content-Type", "application/x-www-form-urlencoded")] |}.

(** [v[:20]] inside the f-string of a [print]: only the exception it can
    raise matters.  Strings and lists can be sliced; for a dictionary the
    slice is an unhashable key (up to Python 3.11). *)
Definition print_prefix (v : pyval) : M unit :=
  match v with
  | PStr _ | PList _ => ret tt
  | PNone => raise (TypeError "'NoneType' object is not subscriptable")
  | PBool _ => raise (TypeError "'bool' object is not subscriptable")
  | PInt _ => raise (TypeError "'int' object is not subscriptable")
  | PDict _ => raise (TypeError "unhashable type: 'slice'")
  end.

(** The body of the [try] block of [authenticate] once the response is
    there: status check, decoding, the new token put in place, and the
    report of success, which prints the first characters of the access
    token. *)
Definition receive_token (resp : response TokenJson) : M TokenResponse :=
  raise_for_status resp ;;;
  data <- response_json resp ;;
  access <- match j_access_token data with
            | Some s => ret s
            | None => raise (KeyError "access_token")
            end ;;
  now <- time_time ;;
  let tok := {| access_token := access;
                token_type := default "Bearer" (j_token_type data);
                expires_in := default 3600 (j_expires_in data);
                id_token := j_id_token data;
                obtained_at := now |} in
  set_token tok ;;;
  print_prefix (access_token tok) ;;;
  ret tok.

(** [OrigoAuth.authenticate].  The [except RequestException] clause prints
    and re-raises, so it does not show in the result. *)
Definition authenticate (r : reply TokenJson) : M TokenResponse :=
  a <- gets auth ;;
  resp <- requests_send r (token_request a) ;;
  receive_token resp.

Fixpoint repeat_string (s : string) (n : nat) : string :=
  match n with
  | O => ""
  | S n' => s +:+ repeat_string s n'
  end.

(** [MockOrigoAuth.authenticate]: no request is sent. *)
Definition mock_authenticate : M TokenResponse :=
  time_sleep (1 # 2) ;;;
  now <- time_time ;;
  let tok := {| access_token := "mock_access_token_" +:+ repeat_string "x" 40;
                token_type := "Bearer";
                expires_in := 3600;
                id_token := Some ("mock_id_token_" +:+ repeat_string "y" 40);
                obtained_at := now |} in
  set_token tok ;;;
  ret tok.

(** [not self._token or self._token.is_expired()] *)
Definition needs_refresh (tok : option TokenResponse) (now : Q) : bool :=
  match tok with
  | None => true
  | Some t => is_expired t 60 now
  end.

(** [self._token.access_token] *)
Definition current_access_token : M pyval :=
  a <- gets auth ;;
  match _token a with
  | Some t => ret (access_token t)
  | None => raise (AttributeError "access_token")
  end.

(** [OrigoAuth.get_token]; [self_authenticate] is the [authenticate] method
    of the object's class ([OrigoAuth] or [MockOrigoAuth]). *)
Definition get_token (self_authenticate : M TokenResponse) : M pyval :=
  a <- gets auth ;;
  now <- time_time ;;
  (if needs_refresh (_token a) now
   then self_authenticate ;;; ret tt
   else ret tt) ;;;
  current_access_token.

(** [OrigoAuth.get_headers] *)
Definition get_headers (self_authenticate : M TokenResponse)
    (app_id app_version : string) : M (list (string * string)) :=
  tok <- get_token self_authenticate ;;
  ret [("Authorization", "Bearer " +:+ py_str tok);
       ("Application-ID", app_id);
       ("Application-Version", app_version);
       ("Content-Type", "application/json")].

Definition default_app_id : string := "acme-mobile-access".
Definition default_app_version : string := "1.0.0".

(** ** Passes (credentials.py) *)

(** [datetime.datetime]: calendar fields and the UTC offset in seconds of an
    aware value. *)
Record datetime : Type := {
  year : Z; month : Z; day : Z;
  hour : Z; minute : Z; second : Z;
  tzoffset : option Z
}.

Inductive PassStatus : Type :=
| PENDING        (* created, not yet provisioned *)
| PROVISIONING   (* provisioning in progress *)
| ACTIVE         (* successfully provisioned *)
| SUSPENDED      (* temporarily disabled *)
| CANCELLED      (* deleted before activation *)
| DELETED.       (* removed after activation *)

Record Pass : Type := {
  user_id : string;
  pass_template_id : string;
  pass_id : option string;
  status : PassStatus;
  created : option datetime;
  platform : option string;
  credentials : list pydict
}.

(** [p.status = s] *)
Definition set_status (p : Pass) (s : PassStatus) : Pass :=
  {| user_id := user_id p; pass_template_id := pass_template_id p;
     pass_id := pass_id p; status := s; created := created p;
     platform := platform p; credentials := credentials p |}.

(** [hex[:n]] *)
Definition str_take (n : nat) (s : string) : string := String.substring 0 n s.

(** [MockCredentialManagementAPI]: the methods below touch only [_passes],
    the dictionary from pass id to pass object.  The object a method returns
    is the one the dictionary holds. *)
Record MockCredentialManagementAPI : Type := {
  _passes : gmap string Pass
}.

(** [MockCredentialManagementAPI.create_pass]; [uuid_pass] and [uuid_cred]
    are the hex digits of the two [uuid.uuid4()] draws and [utcnow] the
    reading of [datetime.utcnow()]. *)
Definition mock_create_pass (uuid_pass uuid_cred : string) (utcnow : datetime)
    (uid template : string) (self : MockCredentialManagementAPI)
    : Pass * MockCredentialManagementAPI :=
  let new_id := "pass-" +:+ str_take 12 uuid_pass in
  let pass_obj := {| user_id := uid; pass_template_id := template;
                     pass_id := Some new_id; status := PENDING;
                     created := Some utcnow; platform := None;
                     credentials := [[("type", PStr "SEOS");
                                      ("id", PStr ("cred-" +:+ str_take 8 uuid_cred))]] |} in
  (pass_obj, {| _passes := <[new_id := pass_obj]> (_passes self) |}).

(** [MockCredentialManagementAPI.suspend_pass] *)
Definition mock_suspend_pass (pid : string) (self : MockCredentialManagementAPI)
    : result Pass * MockCredentialManagementAPI :=
  match _passes self !! pid with
  | Some p =>
      let p' := set_status p SUSPENDED in
      (Ok p', {| _passes := <[pid := p']> (_passes self) |})
  | None => (Raise (ValueError ("Pass not found: " +:+ pid)), self)
  end.

(** [MockCredentialManagementAPI.resume_pass] *)
Definition mock_resume_pass (pid : string) (self : MockCredentialManagementAPI)
    : result Pass * MockCredentialManagementAPI :=
  match _passes self !! pid with
  | Some p =>
      let p' := set_status p ACTIVE in
      (Ok p', {| _passes := <[pid := p']> (_passes self) |})
  | None => (Raise (ValueError ("Pass not found: " +:+ pid)), self)
  end.

(** [MockCredentialManagementAPI.delete_pass] *)
Definition mock_delete_pass (pid : string) (self : MockCredentialManagementAPI)
    : result bool * MockCredentialManagementAPI :=
  (Ok true,
   match _passes self !! pid with
   | Some _ => {| _passes := delete pid (_passes self) |}
   | None => self
   end).

(** [CredentialManagementAPI.endpoint]; [api_base] is [self.base_url]. *)
Definition pass_endpoint (api_base : string) : string := api_base +:+ "/pass".

(** [CredentialManagementAPI.delete_pass], the networked client.  The
    headers are computed (and the token refreshed when needed, through
    [self_authenticate]) before the DELETE goes out (answered by [r]). *)
Definition delete_pass (self_authenticate : M TokenResponse) (api_base : string)
    (r : reply unit) (pid : string) : M bool :=
  headers <- get_headers self_authenticate default_app_id default_app_version ;;
  resp <- requests_send r {| rq_verb := DELETE;
                             rq_url := pass_endpoint api_base +:+ "/" +:+ pid;
                             rq_body := NoBody;
                             rq_headers := headers |} ;;
  raise_for_status resp ;;;
  ret true.

(** ** Callback registrations (callbacks.py) *)

Record EventFilter : Type := {
  event_types : list string;
  filter_id : option string
}.

Definition EventFilter_to_dict (self : EventFilter) : pydict :=
  [("eventTypes", PList (map PStr (event_types self)))].

Definition user_events_only : EventFilter :=
  {| event_types := ["USER_CREATED"; "USER_UPDATED"; "USER_DELETED"];
     filter_id := None |}.
Definition pass_events_only : EventFilter :=
  {| event_types := ["PASS_CREATED"; "PASS_UPDATED"; "PASS_DELETED"; "PASS_PROVISIONED"];
     filter_id := None |}.
Definition all_events : EventFilter :=
  {| event_types := []; filter_id := None |}.

Record CallbackRegistration : Type := {
  url : string;
  filter : EventFilter;
  http_header : option string;
  secret : option string;
  registration_id : option string;
  registration_created : option datetime
}.

(** [registration.id = i] *)
Definition set_registration_id (reg : CallbackRegistration) (i : option string)
    : CallbackRegistration :=
  {| url := url reg; filter := filter reg; http_header := http_header reg;
     secret := secret reg; registration_id := i;
     registration_created := registration_created reg |}.

(** [CallbackRegistration.to_dict] *)
Definition to_dict (self : CallbackRegistration) : pydict :=
  let data := [("url", PStr (url self));
               ("filter", PDict (EventFilter_to_dict (filter self)))] in
  if truthy (http_header self) && truthy (secret self)
  then data ++ [("httpHeader", of_optional (http_header self));
                ("secret", of_optional (secret self))]
  else data.

(** [CallbackAPI.endpoint]; [api_base] is [self.base_url]. *)
Definition callback_endpoint (api_base : string) : string := api_base +:+ "/callback".

(** The JSON object the platform answers to a registration. *)
Record CallbackJson : Type := { cj_id : option string }.

(** [CallbackAPI.register_callback], the networked client. *)
Definition register_callback (self_authenticate : M TokenResponse) (api_base : string)
    (r : reply CallbackJson) (registration : CallbackRegistration)
    : M CallbackRegistration :=
  let payload := to_dict registration in
  headers <- get_headers self_authenticate default_app_id default_app_version ;;
  resp <- requests_send r {| rq_verb := POST;
                             rq_url := callback_endpoint api_base;
                             rq_body := Json payload;
                             rq_headers := headers |} ;;
  raise_for_status resp ;;;
  data <- response_json resp ;;
  ret (set_registration_id registration (cj_id data)).

(** [MockCallbackAPI]: the method below touches only [_registrations]. *)
Record MockCallbackAPI : Type := {
  _registrations : gmap string CallbackRegistration
}.

(** [MockCallbackAPI.register_callback] seen by value, for a registration
    object that the client does not hold yet; [uuid_hex] is the hex digits
    of the [uuid.uuid4()] draw.  The method writes into the object it is
    given: [mock_register_callback_in_place] below follows the object
    itself. *)
Definition mock_register_callback (uuid_hex : string)
    (registration : CallbackRegistration) (self : MockCallbackAPI)
    : CallbackRegistration * MockCallbackAPI :=
  let new_id := "cb-" +:+ str_take 12 uuid_hex in
  let registration' := set_registration_id registration (Some new_id) in
  (registration',
   {| _registrations := <[new_id := registration']> (_registrations self) |}).

(** ** Cloud events (callbacks.py) *)

Record CloudEvent : Type := {
  type : string;
  subject : string;
  time : datetime;
  data : pydict;
  event_id : option string;
  source : option string;
  specversion : string
}.

(** The webhook payload, a JSON object read at the types [CloudEvent]
    declares; an absent key is [None]. *)
Record EventJson : Type := {
  ej_id : option string;
  ej_type : option string;
  ej_subject : option string;
  ej_time : option pyval;
  ej_data : option pydict;
  ej_source : option string;
  ej_specversion : option string
}.

(** [s.replace("Z", "+00:00")] *)
Fixpoint replace_Z (s : string) : string :=
  match s with
  | EmptyString => ""
  | String c s' =>
      if Ascii.eqb c "Z"%char then "+00:00" +:+ replace_Z s'
      else String c (replace_Z s')
  end.

(** [payload.get("time", "")] *)
Definition time_value (payload : EventJson) : pyval :=
  default (PStr "") (ej_time payload).

(** The string handed to [datetime.fromisoformat] when the time is a
    string. *)
Definition time_argument (payload : EventJson) : string :=
  match time_value payload with
  | PStr s => replace_Z s
  | _ => ""
  end.

Section Events.

(** [datetime.fromisoformat] belongs to the Python library: it returns a
    value or raises its own exception. *)
Variable fromisoformat : string -> result datetime.

(** [CloudEvent.from_dict]; a time that is not a string has no
    [replace]. *)
Definition from_dict (payload : EventJson) : result CloudEvent :=
  match time_value payload with
  | PStr _ =>
      match fromisoformat (time_argument payload) with
      | Raise e => Raise e
      | Ok t =>
          Ok {| event_id := ej_id payload;
                type := default "" (ej_type payload);
                subject := default "" (ej_subject payload);
                time := t;
                data := default [] (ej_data payload);
                source := ej_source payload;
                specversion := default "1.0" (ej_specversion payload) |}
      end
  | _ => Raise (AttributeError "replace")
  end.

End Events.

Definition nl : string := String "010"%char "".

Definition _interpret_pass_updated (self : CloudEvent) : string :=
  let status := dict_get "status" (PStr "UNKNOWN") (data self) in
  if eq_str status "COMPLETED" then
    "Pass " +:+ subject self +:+ " provisioning COMPLETED successfully." +:+ nl +:+
    "User " +:+ py_str (dict_get "userId" PNone (data self)) +:+
      " now has an active credential." +:+ nl +:+
    "Action: Update internal database to mark user's badge as ACTIVE." +:+ nl +:+
    "         Send confirmation notification to user." +:+ nl +:+
    "         Update access control system if needed."
  else if eq_str status "SUSPENDED" then
    "Pass " +:+ subject self +:+ " has been SUSPENDED." +:+ nl +:+
    "Action: Disable user's physical access in LenelS2." +:+ nl +:+
    "         Log the suspension event for audit."
  else "Pass " +:+ subject self +:+ " updated to status: " +:+ py_str status.

Definition _interpret_pass_created (self : CloudEvent) : string :=
  "New pass " +:+ subject self +:+ " created for user " +:+
    py_str (dict_get "userId" PNone (data self)) +:+ "." +:+ nl +:+
  "Action: Generate issuance token and send to user for provisioning.".

Definition _interpret_user_created (self : CloudEvent) : string :=
  "User " +:+ subject self +:+ " created in HID Origo." +:+ nl +:+
  "Action: Proceed with pass creation for this user.".

Definition _interpret_user_deleted (self : CloudEvent) : string :=
  "User " +:+ subject self +:+ " deleted from HID Origo." +:+ nl +:+
  "Action: Cleanup any local references." +:+ nl +:+
  "         Revoke access in physical access control system.".

Definition _interpret_generic (self : CloudEvent) : string :=
  "Event " +:+ type self +:+ " received for " +:+ subject self.

(** The table of [CloudEvent.interpret], keyed by event type. *)
Definition interpretations : list (string * (CloudEvent -> string)) :=
  [("PASS_UPDATED", _interpret_pass_updated);
   ("PASS_CREATED", _interpret_pass_created);
   ("USER_CREATED", _interpret_user_created);
   ("USER_DELETED", _interpret_user_deleted)].

(** [CloudEvent.interpret] *)
Definition interpret (self : CloudEvent) : string :=
  let interpreter := dict_get (type self) _interpret_generic interpretations in
  interpreter self.

(** [needle in haystack] on strings *)
Fixpoint is_substring (needle haystack : string) : bool :=
  String.prefix needle haystack ||
  match haystack with
  | EmptyString => false
  | String _ rest => is_substring needle rest
  end.

(** *** A parser to run the statements with

    [iso_seconds] stands in for [datetime.fromisoformat] where a statement
    is run on a sample.  It reads [YYYY-MM-DD], optionally followed by one
    separator character and [HH:MM:SS], optionally followed by an offset
    [+HH:MM] or [-HH:MM], as [datetime.fromisoformat] reads them, and
    rejects every other string, many of which [datetime.fromisoformat]
    accepts. *)

Definition digit (c : ascii) : option Z :=
  let n := Z.of_N (N_of_ascii c) in
  if (48 <=? n) && (n <=? 57) then Some (n - 48) else None.

Definition number (cs : list ascii) : option Z :=
  fold_left (fun acc c => match acc, digit c with
                          | Some a, Some d => Some (10 * a + d)
                          | _, _ => None
                          end) cs (Some 0).

Definition is_leap (y : Z) : bool :=
  ((y mod 4 =? 0) && negb (y mod 100 =? 0)) || (y mod 400 =? 0).

Definition days_in_month (y m : Z) : Z :=
  if m =? 2 then (if is_leap y then 29 else 28)
  else if (m =? 4) || (m =? 6) || (m =? 9) || (m =? 11) then 30
  else 31.

Definition parse_date (cs : list ascii) : option (Z * Z * Z) :=
  match cs with
  | [y1; y2; y3; y4; s1; m1; m2; s2; d1; d2] =>
      match number [y1; y2; y3; y4], number [m1; m2], number [d1; d2] with
      | Some y, Some m, Some d =>
          if Ascii.eqb s1 "-"%char && Ascii.eqb s2 "-"%char
             && (1 <=? y) && (1 <=? m) && (m <=? 12)
             && (1 <=? d) && (d <=? days_in_month y m)
          then Some (y, m, d) else None
      | _, _, _ => None
      end
  | _ => None
  end.

Definition parse_clock (cs : list ascii) : option (Z * Z * Z) :=
  match cs with
  | [h1; h2; s1; m1; m2; s2; c1; c2] =>
      match number [h1; h2], number [m1; m2], number [c1; c2] with
      | Some h, Some m, Some s =>
          if Ascii.eqb s1 ":"%char && Ascii.eqb s2 ":"%char
             && (h <? 24) && (m <? 60) && (s <? 60)
          then Some (h, m, s) else None
      | _, _, _ => None
      end
  | _ => None
  end.

Definition parse_offset (cs : list ascii) : option Z :=
  match cs with
  | [sign; h1; h2; s1; m1; m2] =>
      match number [h1; h2], number [m1; m2] with
      | Some h, Some m =>
          if Ascii.eqb s1 ":"%char && (h <? 24) && (m <? 60) then
            if Ascii.eqb sign "+"%char then Some (3600 * h + 60 * m)
            else if Ascii.eqb sign "-"%char then Some (- (3600 * h + 60 * m))
            else None
          else None
      | _, _ => None
      end
  | _ => None
  end.

Definition iso_seconds_parse (s : string) : option datetime :=
  let cs := list_ascii_of_string s in
  match parse_date (firstn 10 cs) with
  | None => None
  | Some (y, mo, d) =>
      match skipn 10 cs with
      | [] => Some {| year := y; month := mo; day := d;
                      hour := 0; minute := 0; second := 0; tzoffset := None |}
      | _ :: rest =>
          match parse_clock (firstn 8 rest) with
          | None => None
          | Some (h, mi, sec) =>
              match skipn 8 rest with
              | [] => Some {| year := y; month := mo; day := d;
                              hour := h; minute := mi; second := sec;
                              tzoffset := None |}
              | tz =>
                  match parse_offset tz with
                  | None => None
                  | Some off => Some {| year := y; month := mo; day := d;
                                        hour := h; minute := mi; second := sec;
                                        tzoffset := Some off |}
                  end
              end
          end
      end
  end.

Definition iso_seconds (s : string) : result datetime :=
  match iso_seconds_parse s with
  | Some t => Ok t
  | None => Raise (ValueError ("Invalid isoformat string: " +:+ repr_str s))
  end.

(** ** Concurrent callers of [get_token]

    Threads share one [OrigoAuth] object.  A caller of [get_token] takes two
    atomic steps: it checks the cached token and, when a refresh is needed,
    sends the token request and blocks ([begin_get_token]); when the answer
    arrives it finishes [authenticate] and returns ([finish_get_token]).
    The source holds no lock across the two. *)

Inductive thread : Type :=
| Ready                           (* get_token called, nothing done yet *)
| Waiting                         (* token request sent, answer pending *)
| Finished (r : result pyval).    (* get_token returned or raised *)

Definition begin_get_token (st : State) : thread * State :=
  if needs_refresh (_token (auth st)) (clock st)
  then (Waiting, snd (log_request (token_request (auth st)) st))
  else let '(res, st') := current_access_token st in (Finished res, st').

Definition finish_get_token (r : reply TokenJson) (st : State) : thread * State :=
  let '(res, st') :=
    ((match r with
      | Refused e => raise e
      | Answered resp => receive_token resp
      end) ;;; current_access_token) st in
  (Finished res, st').

Record Conf : Type := {
  shared : State;
  threads : list thread
}.

(** Thread [i] takes its next step; [r] is the answer delivered to it when
    it is waiting.  A finished or absent thread does not move. *)
Definition step (i : nat) (r : reply TokenJson) (c : Conf) : Conf :=
  match threads c !! i with
  | Some Ready =>
      let '(t, st') := begin_get_token (shared c) in
      {| shared := st'; threads := <[i := t]> (threads c) |}
  | Some Waiting =>
      let '(t, st') := finish_get_token r (shared c) in
      {| shared := st'; threads := <[i := t]> (threads c) |}
  | _ => c
  end.

Definition run (schedule : list (nat * reply TokenJson)) (c : Conf) : Conf :=
  fold_left (fun c' '(i, r) => step i r c') schedule c.

Definition is_waiting (t : thread) : bool :=
  match t with Waiting => true | _ => false end.

(** Number of authentication exchanges in flight. *)
Definition in_flight (c : Conf) : nat :=
  length (List.filter is_waiting (threads c)).

(** [n] callers enter [get_token] together. *)
Definition callers (n : nat) (st : State) : Conf :=
  {| shared := st; threads := replicate n Ready |}.

(** ** Configuration and constructors (config.py, [__init__] methods) *)

(** [os.getenv(name, dflt)] over the environment left by [load_dotenv()]. *)
Definition getenv (env : gmap string string) (name dflt : string) : string :=
  default dflt (env !! name).

Record OrigoConfig : Type := {
  cfg_base_url : string;
  cfg_organization_id : string;
  cfg_client_id : string;
  cfg_client_secret : string;
  cfg_callback_url : string;
  cfg_callback_secret : string
}.

(** [config = OrigoConfig()] *)
Definition load_config (env : gmap string string) : OrigoConfig :=
  {| cfg_base_url := getenv env "ORIGO_BASE_URL" "https://api.origo.hidglobal.com";
     cfg_organization_id := getenv env "ORIGO_ORGANIZATION_ID" "";
     cfg_client_id := getenv env "ORIGO_CLIENT_ID" "";
     cfg_client_secret := getenv env "ORIGO_CLIENT_SECRET" "";
     cfg_callback_url := getenv env "CALLBACK_URL" "";
     cfg_callback_secret := getenv env "CALLBACK_SECRET" "" |}.

(** The endpoint properties of [OrigoConfig]. *)
Definition auth_endpoint (c : OrigoConfig) : string :=
  cfg_base_url c +:+ "/authentication/customer/" +:+ cfg_organization_id c +:+ "/token".
Definition config_user_endpoint (c : OrigoConfig) : string := cfg_base_url c +:+ "/user".
Definition config_pass_endpoint (c : OrigoConfig) : string := cfg_base_url c +:+ "/pass".
Definition config_callback_endpoint (c : OrigoConfig) : string :=
  cfg_base_url c +:+ "/callback".

(** [x or dflt] for an [Optional[str]] argument [x] *)
Definition str_or (x : option string) (dflt : string) : string :=
  match x with
  | Some s => if String.eqb s "" then dflt else s
  | None => dflt
  end.

(** [OrigoAuth.__init__] *)
Definition OrigoAuth_init (config : OrigoConfig)
    (org cid csecret base : option string) : OrigoAuth :=
  {| organization_id := str_or org (cfg_organization_id config);
     client_id := str_or cid (cfg_client_id config);
     client_secret := str_or csecret (cfg_client_secret config);
     base_url := str_or base (cfg_base_url config);
     _token := None |}.

(** [s.rstrip(c)] for a one-character [c] *)
Fixpoint rstrip_char (c : ascii) (s : string) : string :=
  match s with
  | EmptyString => ""
  | String a s' =>
      let r := rstrip_char c s' in
      if Ascii.eqb a c && String.eqb r "" then "" else String a r
  end.

(** [self.base_url] as [CredentialManagementAPI.__init__],
    [CallbackAPI.__init__] and [UserManagementAPI.__init__] set it. *)
Definition api_init (config : OrigoConfig) (base : option string) : string :=
  rstrip_char "/" (str_or base (cfg_base_url config)).

(** [self.base_url] as the three mock constructors set it. *)
Definition mock_api_base : string := "https://api.origo.hidglobal.com".

(** A pure result inside the monad. *)
Definition lift {A} (r : result A) : M A := fun st => (r, st).

(** ** More of the credential client (credentials.py) *)

(** [status.value] *)
Definition PassStatus_value (s : PassStatus) : string :=
  match s with
  | PENDING => "PENDING"
  | PROVISIONING => "PROVISIONING"
  | ACTIVE => "ACTIVE"
  | SUSPENDED => "SUSPENDED"
  | CANCELLED => "CANCELLED"
  | DELETED => "DELETED"
  end.

Definition PassStatus_members : list PassStatus :=
  [PENDING; PROVISIONING; ACTIVE; SUSPENDED; CANCELLED; DELETED].

(** [PassStatus(v)]: the member whose value is [v], or [ValueError]. *)
Definition PassStatus_of_value (v : string) : result PassStatus :=
  match List.find (fun s => String.eqb (PassStatus_value s) v) PassStatus_members with
  | Some s => Ok s
  | None => Raise (ValueError (repr_str v +:+ " is not a valid PassStatus"))
  end.

(** [Pass.to_create_dict] *)
Definition to_create_dict (self : Pass) : pydict :=
  [("userId", PStr (user_id self));
   ("passTemplateId", PStr (pass_template_id self))].

(** The JSON object of a pass, read at the types [Pass] declares; an absent
    key is [None]. *)
Record PassJson : Type := {
  pj_id : option string;
  pj_userId : option string;
  pj_passTemplateId : option string;
  pj_status : option string;
  pj_platform : option string;
  pj_credentials : option (list pydict)
}.

(** [Pass.from_api_response] *)
Definition Pass_from_api_response (data : PassJson) : result Pass :=
  match PassStatus_of_value (default "PENDING" (pj_status data)) with
  | Raise e => Raise e
  | Ok s =>
      Ok {| pass_id := pj_id data;
            user_id := default "" (pj_userId data);
            pass_template_id := default "" (pj_passTemplateId data);
            status := s;
            created := None;
            platform := pj_platform data;
            credentials := default [] (pj_credentials data) |}
  end.

Record IssuanceToken : Type := {
  it_token : string;
  it_expires_at : option datetime;
  it_pass_id : option string
}.

(** [IssuanceToken.to_provisioning_dict] *)
Definition to_provisioning_dict (self : IssuanceToken) : pydict :=
  [("issuanceToken", PStr (it_token self));
   ("passId", of_optional (it_pass_id self))].

(** [Pass(user_id=..., pass_template_id=...)] with the defaults of the
    dataclass. *)
Definition new_pass (uid template : string) : Pass :=
  {| user_id := uid; pass_template_id := template; pass_id := None;
     status := PENDING; created := None; platform := None; credentials := [] |}.

(** [CredentialManagementAPI.create_pass] *)
Definition create_pass (self_authenticate : M TokenResponse) (api_base : string)
    (r : reply PassJson) (uid template : string) : M Pass :=
  let payload := to_create_dict (new_pass uid template) in
  headers <- get_headers self_authenticate default_app_id default_app_version ;;
  resp <- requests_send r {| rq_verb := POST;
                             rq_url := pass_endpoint api_base;
                             rq_body := Json payload;
                             rq_headers := headers |} ;;
  raise_for_status resp ;;;
  data <- response_json resp ;;
  lift (Pass_from_api_response data).

(** [CredentialManagementAPI.get_pass] *)
Definition get_pass (self_authenticate : M TokenResponse) (api_base : string)
    (r : reply PassJson) (pid : string) : M Pass :=
  headers <- get_headers self_authenticate default_app_id default_app_version ;;
  resp <- requests_send r {| rq_verb := GET;
                             rq_url := pass_endpoint api_base +:+ "/" +:+ pid;
                             rq_body := NoBody;
                             rq_headers := headers |} ;;
  raise_for_status resp ;;;
  data <- response_json resp ;;
  lift (Pass_from_api_response data).

(** The JSON object of an issuance token answer. *)
Record IssuanceJson : Type := {
  ij_issuanceToken : option string;
  ij_token : option string
}.

(** [CredentialManagementAPI.get_issuance_token] *)
Definition get_issuance_token (self_authenticate : M TokenResponse) (api_base : string)
    (r : reply IssuanceJson) (pid : string) : M IssuanceToken :=
  headers <- get_headers self_authenticate default_app_id default_app_version ;;
  resp <- requests_send r {| rq_verb := GET;
                             rq_url := pass_endpoint api_base +:+ "/" +:+ pid
                                       +:+ "/issuanceToken";
                             rq_body := NoBody;
                             rq_headers := headers |} ;;
  raise_for_status resp ;;;
  data <- response_json resp ;;
  ret {| it_token := default (default "" (ij_token data)) (ij_issuanceToken data);
         it_expires_at := None;
         it_pass_id := Some pid |}.

(** [CredentialManagementAPI.suspend_pass] *)
Definition suspend_pass (self_authenticate : M TokenResponse) (api_base : string)
    (r : reply PassJson) (pid : string) : M Pass :=
  let payload := [("status", PStr "SUSPENDED")] in
  headers <- get_headers self_authenticate default_app_id default_app_version ;;
  resp <- requests_send r {| rq_verb := PATCH;
                             rq_url := pass_endpoint api_base +:+ "/" +:+ pid;
                             rq_body := Json payload;
                             rq_headers := headers |} ;;
  raise_for_status resp ;;;
  data <- response_json resp ;;
  lift (Pass_from_api_response data).

(** [CredentialManagementAPI.resume_pass] *)
Definition resume_pass (self_authenticate : M TokenResponse) (api_base : string)
    (r : reply PassJson) (pid : string) : M Pass :=
  let payload := [("status", PStr "ACTIVE")] in
  headers <- get_headers self_authenticate default_app_id default_app_version ;;
  resp <- requests_send r {| rq_verb := PATCH;
                             rq_url := pass_endpoint api_base +:+ "/" +:+ pid;
                             rq_body := Json payload;
                             rq_headers := headers |} ;;
  raise_for_status resp ;;;
  data <- response_json resp ;;
  lift (Pass_from_api_response data).

(** [MockCredentialManagementAPI.get_issuance_token]; [uuid_hex] is the hex
    digits of the [uuid.uuid4()] draw.  The method does not look at
    [_passes]. *)
Definition mock_get_issuance_token (uuid_hex pid : string) : IssuanceToken :=
  {| it_token := "IT_" +:+ uuid_hex; it_expires_at := None; it_pass_id := Some pid |}.

(** ** More of the callback client (callbacks.py) *)

(** [CallbackAPI.list_callbacks]: the decoded answer is returned as it is. *)
Definition list_callbacks (self_authenticate : M TokenResponse) (api_base : string)
    (r : reply pyval) : M pyval :=
  headers <- get_headers self_authenticate default_app_id default_app_version ;;
  resp <- requests_send r {| rq_verb := GET;
                             rq_url := callback_endpoint api_base;
                             rq_body := NoBody;
                             rq_headers := headers |} ;;
  raise_for_status resp ;;;
  response_json resp.

(** [CallbackAPI.delete_callback] *)
Definition delete_callback (self_authenticate : M TokenResponse) (api_base : string)
    (r : reply unit) (callback_id : string) : M bool :=
  headers <- get_headers self_authenticate default_app_id default_app_version ;;
  resp <- requests_send r {| rq_verb := DELETE;
                             rq_url := callback_endpoint api_base +:+ "/" +:+ callback_id;
                             rq_body := NoBody;
                             rq_headers := headers |} ;;
  raise_for_status resp ;;;
  ret true.

(** ** Users (users.py)

    [User.from_api_response] stores what the dictionary holds, so the
    fields of a user are values of type [Any]. *)

(** Truth value of a Python value. *)
Definition py_truthy (v : pyval) : bool :=
  match v with
  | PNone => false
  | PBool b => b
  | PInt z => negb (z =? 0)
  | PStr s => negb (String.eqb s "")
  | PList l => match l with [] => false | _ => true end
  | PDict d => match d with [] => false | _ => true end
  end.

(** White space as [str.strip()] sees it: the code points U+0009 to U+000D,
    U+001C to U+0020, U+0085, U+00A0, U+1680, U+2000 to U+200A, U+2028,
    U+2029, U+202F, U+205F and U+3000, recognised by the one, two or three
    bytes of their encoding. *)
Definition is_space (c : ascii) : bool :=
  let n := N_of_ascii c in
  ((9 <=? n) && (n <=? 13) || (28 <=? n) && (n <=? 32))%N.

Definition is_space2 (c1 c2 : ascii) : bool :=
  let n1 := N_of_ascii c1 in
  let n2 := N_of_ascii c2 in
  ((n1 =? 194) && ((n2 =? 133) || (n2 =? 160)))%N.

Definition is_space3 (c1 c2 c3 : ascii) : bool :=
  let n1 := N_of_ascii c1 in
  let n2 := N_of_ascii c2 in
  let n3 := N_of_ascii c3 in
  ((n1 =? 225) && (n2 =? 154) && (n3 =? 128)
   || (n1 =? 226) && (n2 =? 128)
      && ((128 <=? n3) && (n3 <=? 138) || (n3 =? 168) || (n3 =? 169) || (n3 =? 175))
   || (n1 =? 226) && (n2 =? 129) && (n3 =? 159)
   || (n1 =? 227) && (n2 =? 128) && (n3 =? 128))%N.

Fixpoint lstrip (s : string) : string :=
  match s with
  | EmptyString => ""
  | String c1 r1 =>
      if is_space c1 then lstrip r1
      else match r1 with
           | EmptyString => s
           | String c2 r2 =>
               if is_space2 c1 c2 then lstrip r2
               else match r2 with
                    | EmptyString => s
                    | String c3 r3 => if is_space3 c1 c2 c3 then lstrip r3 else s
                    end
           end
  end.

Fixpoint string_rev (s : string) : string :=
  match s with
  | EmptyString => ""
  | String c r => string_rev r +:+ String c ""
  end.

(** [lstrip] on the reversed string: the bytes of a code point come last
    byte first. *)
Fixpoint lstrip_reversed (s : string) : string :=
  match s with
  | EmptyString => ""
  | String c1 r1 =>
      if is_space c1 then lstrip_reversed r1
      else match r1 with
           | EmptyString => s
           | String c2 r2 =>
               if is_space2 c2 c1 then lstrip_reversed r2
               else match r2 with
                    | EmptyString => s
                    | String c3 r3 =>
                        if is_space3 c3 c2 c1 then lstrip_reversed r3 else s
                    end
           end
  end.

Definition rstrip (s : string) : string :=
  string_rev (lstrip_reversed (string_rev s)).

(** [s.strip()] *)
Definition strip (s : string) : string := lstrip (rstrip s).

Record User : Type := {
  external_id : pyval;
  email : pyval;
  display_name : pyval;
  given_name : pyval;
  family_name : pyval;
  usr_id : pyval;
  usr_created : option datetime;
  usr_last_modified : option datetime
}.

(** [User.to_scim_dict] *)
Definition to_scim_dict (self : User) : pydict :=
  [("schemas", PList [PStr "urn:ietf:params:scim:schemas:core:2.0:User"]);
   ("externalId", external_id self);
   ("displayName",
      if py_truthy (display_name self) then display_name self
      else PStr (strip (py_str (given_name self) +:+ " " +:+ py_str (family_name self))));
   ("name", PDict [("givenName", given_name self);
                   ("familyName", family_name self)]);
   ("emails", PList [PDict [("value", email self);
                            ("type", PStr "work");
                            ("primary", PBool true)]])].

(** [emails[0]["value"] if emails else ""]; the messages are those of
    Python 3.11. *)
Definition first_email (emails : pyval) : result pyval :=
  if py_truthy emails then
    match emails with
    | PList (PDict d :: _) =>
        match dict_lookup "value" d with
        | Some v => Ok v
        | None => Raise (KeyError "value")
        end
    | PList (PStr _ :: _) => Raise (TypeError "string indices must be integers, not 'str'")
    | PList (PList _ :: _) =>
        Raise (TypeError "list indices must be integers or slices, not str")
    | PList (PNone :: _) => Raise (TypeError "'NoneType' object is not subscriptable")
    | PList (PBool _ :: _) => Raise (TypeError "'bool' object is not subscriptable")
    | PList (PInt _ :: _) => Raise (TypeError "'int' object is not subscriptable")
    | PList [] => Ok (PStr "")
    | PStr _ => Raise (TypeError "string indices must be integers, not 'str'")
    | PDict _ => Raise (KeyError "0")
    | PBool _ => Raise (TypeError "'bool' object is not subscriptable")
    | PInt _ => Raise (TypeError "'int' object is not subscriptable")
    | PNone => Ok (PStr "")
    end
  else Ok (PStr "").

(** [name.get(key, "")] *)
Definition name_get (name : pyval) (key : string) : result pyval :=
  match name with
  | PDict d => Ok (dict_get key (PStr "") d)
  | _ => Raise (AttributeError "get")
  end.

(** [User.from_api_response] *)
Definition User_from_api_response (data : pydict) : result User :=
  let emails := dict_get "emails" (PList []) data in
  match first_email emails with
  | Raise e => Raise e
  | Ok the_email =>
      let name := dict_get "name" (PDict []) data in
      match name_get name "givenName" with
      | Raise e => Raise e
      | Ok given =>
          match name_get name "familyName" with
          | Raise e => Raise e
          | Ok family =>
              Ok {| usr_id := dict_get "id" PNone data;
                    external_id := dict_get "externalId" (PStr "") data;
                    email := the_email;
                    display_name := dict_get "displayName" (PStr "") data;
                    given_name := given;
                    family_name := family;
                    usr_created := None;
                    usr_last_modified := None |}
          end
      end
  end.

(** ** Objects shared by the caller and an in-memory client

    [MockUserManagementAPI.create_user] and
    [MockCallbackAPI.register_callback] write into the object they are
    given and keep a reference to it.  An object is named by its address;
    the objects live in a heap beside the client. *)

(** [MockUserManagementAPI]: [_users] maps an id to the address of a user
    object. *)
Record MockUserManagementAPI : Type := {
  _users : gmap string nat
}.

(** [user.id = i; user.created = t1; user.last_modified = t2] *)
Definition stamp_user (i : string) (t1 t2 : datetime) (u : User) : User :=
  {| external_id := external_id u; email := email u;
     display_name := display_name u;
     given_name := given_name u; family_name := family_name u;
     usr_id := PStr i; usr_created := Some t1; usr_last_modified := Some t2 |}.

(** [MockUserManagementAPI.create_user]; [user] is the address of the
    object passed in, [uuid_hex] the hex digits of the [uuid.uuid4()] draw,
    [now1] and [now2] the two readings of [datetime.utcnow()].  The method
    returns the object it was given. *)
Definition mock_create_user (uuid_hex : string) (now1 now2 : datetime)
    (user : nat) (heap : gmap nat User) (self : MockUserManagementAPI)
    : nat * gmap nat User * MockUserManagementAPI :=
  let new_id := "usr-" +:+ str_take 12 uuid_hex in
  (user,
   alter (stamp_user new_id now1 now2) user heap,
   {| _users := <[new_id := user]> (_users self) |}).

(** [MockUserManagementAPI.get_user] *)
Definition mock_get_user (uid : string) (self : MockUserManagementAPI) : result nat :=
  match _users self !! uid with
  | Some u => Ok u
  | None => Raise (ValueError ("User not found: " +:+ uid))
  end.

(** [MockUserManagementAPI.delete_user] *)
Definition mock_delete_user (uid : string) (self : MockUserManagementAPI)
    : result bool * MockUserManagementAPI :=
  (Ok true,
   match _users self !! uid with
   | Some _ => {| _users := delete uid (_users self) |}
   | None => self
   end).

(** [MockCallbackAPI.register_callback] on the address of the registration
    object: the id is written into the object and [store], the
    [_registrations] dictionary, keeps the address. *)
Definition mock_register_callback_in_place (uuid_hex : string) (registration : nat)
    (heap : gmap nat CallbackRegistration) (store : gmap string nat)
    : nat * gmap nat CallbackRegistration * gmap string nat :=
  let new_id := "cb-" +:+ str_take 12 uuid_hex in
  (registration,
   alter (fun reg => set_registration_id reg (Some new_id)) registration heap,
   <[new_id := registration]> store).

(** * Vocabulary of the statements and sample values *)

(** The state after the token request has gone out. *)
Definition logged (st : State) : State :=
  {| auth := auth st; clock := clock st;
     sent := sent st ++ [token_request (auth st)] |}.

(** The token [authenticate] builds from a decoded answer. *)
Definition token_of (data : TokenJson) (access : pyval) (now : Q) : TokenResponse :=
  {| access_token := access;
     token_type := default "Bearer" (j_token_type data);
     expires_in := default 3600 (j_expires_in data);
     id_token := j_id_token data;
     obtained_at := now |}.

Definition error_status (code : Z) : bool := (400 <=? code) && (code <? 600).

(** The values [v[:20]] is defined for. *)
Definition sliceable (v : pyval) : bool :=
  match v with
  | PStr _ | PList _ => true
  | _ => false
  end.

(** The state after the token request has gone out and [tok] has been put
    in place. *)
Definition installed (tok : TokenResponse) (st : State) : State :=
  {| auth := with_token (auth st) (Some tok);
     clock := clock st;
     sent := sent st ++ [token_request (auth st)] |}.

(** The binary64 numbers nearest to 0.1 and to 3540.1. *)
Definition reading_0_1 : Q := 3602879701896397 # 36028797018963968.
Definition reading_3540_1 : Q := 7784762226979635 # 2199023255552.

Ltac run_monad :=
  unfold get_headers, get_token, current_access_token, authenticate,
    receive_token, requests_send, raise_for_status, response_json,
    set_token, log_request, time_time, time_sleep,
    bind, gets, modify, ret, raise in *; simpl in *.

Definition sample_auth (tok : option TokenResponse) : OrigoAuth :=
  {| organization_id := "demo-org-123"; client_id := "demo-client-id";
     client_secret := "demo-secret";
     base_url := "https://api.origo.hidglobal.com"; _token := tok |}.

Definition sample_state (tok : option TokenResponse) (now : Q) : State :=
  {| auth := sample_auth tok; clock := now; sent := [] |}.

(** A token of one hour obtained at second 1000. *)
Definition hour_token : TokenResponse :=
  {| access_token := "first"; token_type := "Bearer"; expires_in := 3600;
     id_token := None; obtained_at := 1000 |}.

(** A well-formed answer of the token endpoint granting [seconds]. *)
Definition grant (access : string) (seconds : Z) : reply TokenJson :=
  Answered {| status_code := 200; text := "";
              json := Some {| j_access_token := Some (PStr access);
                              j_token_type := Some "Bearer";
                              j_expires_in := Some seconds;
                              j_id_token := None |} |}.

(** An answer whose [access_token] is [null]. *)
Definition null_grant (seconds : Z) : reply TokenJson :=
  Answered {| status_code := 200; text := "";
              json := Some {| j_access_token := Some PNone;
                              j_token_type := Some "Bearer";
                              j_expires_in := Some seconds;
                              j_id_token := None |} |}.

Definition sample_time : datetime :=
  {| year := 2025; month := 11; day := 10;
     hour := 14; minute := 5; second := 0; tzoffset := None |}.

Definition empty_api : MockCredentialManagementAPI := {| _passes := ∅ |}.

(** The client after one [create_pass]: it holds one PENDING pass. *)
Definition one_pending : MockCredentialManagementAPI :=
  snd (mock_create_pass "0123456789abcdef0123456789abcdef"
         "fedcba9876543210fedcba9876543210" sample_time
         "usr-abc123" "tmpl-employee-badge-001" empty_api).

Definition not_found : reply unit :=
  Answered {| status_code := 404; text := "Not Found"; json := None |}.

(** Exactly one of [http_header] and [secret] is set (is not [None]). *)
Definition exactly_one_set (reg : CallbackRegistration) : Prop :=
  (http_header reg <> None /\ secret reg = None)
  \/ (http_header reg = None /\ secret reg <> None).

(** The payload without signing credential. *)
Definition bare_payload (reg : CallbackRegistration) : pydict :=
  [("url", PStr (url reg));
   ("filter", PDict (EventFilter_to_dict (filter reg)))].

(** A registration over plain HTTP with a header name and no secret. *)
Definition unpaired_registration : CallbackRegistration :=
  {| url := "http://acme.com/webhooks/origo"; filter := user_events_only;
     http_header := Some "Authorization"; secret := None;
     registration_id := None; registration_created := None |}.

Definition registered (new_id : string) : reply CallbackJson :=
  Answered {| status_code := 201; text := "";
              json := Some {| cj_id := Some new_id |} |}.

Definition scenario_payload : EventJson :=
  {| ej_id := Some "evt-1"; ej_type := Some "PASS_UPDATED";
     ej_subject := Some "pass/abc"; ej_time := Some (PStr "2025-11-10T14:05:00Z");
     ej_data := Some [("status", PStr "COMPLETED"); ("userId", PStr "u1")];
     ej_source := None; ej_specversion := None |}.

(** The same delivery without its [type] key. *)
Definition untyped_payload : EventJson :=
  {| ej_id := Some "evt-1"; ej_type := None;
     ej_subject := Some "pass/abc"; ej_time := Some (PStr "2025-11-10T14:05:00Z");
     ej_data := Some [("status", PStr "COMPLETED"); ("userId", PStr "u1")];
     ej_source := None; ej_specversion := None |}.

Definition scenario_time : datetime :=
  {| year := 2025; month := 11; day := 10;
     hour := 14; minute := 5; second := 0; tzoffset := Some 0 |}.

Definition completed_action : string :=
  "Action: Update internal database to mark user's badge as ACTIVE." +:+ nl +:+
  "         Send confirmation notification to user." +:+ nl +:+
  "         Update access control system if needed.".

(** The token [MockOrigoAuth.authenticate] builds at clock reading [now]. *)
Definition mock_token (now : Q) : TokenResponse :=
  {| access_token := "mock_access_token_" +:+ repeat_string "x" 40;
     token_type := "Bearer";
     expires_in := 3600;
     id_token := Some ("mock_id_token_" +:+ repeat_string "y" 40);
     obtained_at := now |}.

(** The headers [get_headers] builds around an access token. *)
Definition bearer_headers (access : pyval) (app_id app_version : string)
    : list (string * string) :=
  [("Authorization", "Bearer " +:+ py_str access);
   ("Application-ID", app_id);
   ("Application-Version", app_version);
   ("Content-Type", "application/json")].

(** The result of a client method once the answer is there: the transport
    failure, the error status, the undecodable body, or [parse] of the
    decoded body. *)
Definition answer_result {B A} (parse : B -> result A) (r : reply B) : result A :=
  match r with
  | Refused e => Raise e
  | Answered resp =>
      if error_status (status_code resp)
      then Raise (HTTPError (status_code resp) (text resp))
      else match json resp with
           | Some data => parse data
           | None => Raise JSONDecodeError
           end
  end.

(** The state after [rq] has gone out. *)
Definition after_request (rq : request) (st : State) : State :=
  {| auth := auth st; clock := clock st; sent := sent st ++ [rq] |}.

Definition delete_request (api_base pid : string)
    (headers : list (string * string)) : request :=
  {| rq_verb := DELETE;
     rq_url := pass_endpoint api_base +:+ "/" +:+ pid;
     rq_body := NoBody;
     rq_headers := headers |}.

Definition patch_request (api_base pid wanted : string)
    (headers : list (string * string)) : request :=
  {| rq_verb := PATCH;
     rq_url := pass_endpoint api_base +:+ "/" +:+ pid;
     rq_body := Json [("status", PStr wanted)];
     rq_headers := headers |}.

Definition ok_answer {B} (data : B) : reply B :=
  Answered {| status_code := 200; text := ""; json := Some data |}.

Definition create_request (api_base uid template : string)
    (headers : list (string * string)) : request :=
  {| rq_verb := POST;
     rq_url := pass_endpoint api_base;
     rq_body := Json [("userId", PStr uid); ("passTemplateId", PStr template)];
     rq_headers := headers |}.

(** The token [get_issuance_token] reads from an answer. *)
Definition issued (pid : string) (data : IssuanceJson) : result IssuanceToken :=
  Ok {| it_token := match ij_issuanceToken data, ij_token data with
                    | Some t, _ => t
                    | None, Some t => t
                    | None, None => ""
                    end;
        it_expires_at := None;
        it_pass_id := Some pid |}.

(** Every pass is stored under its own id. *)
Definition keyed (api : MockCredentialManagementAPI) : Prop :=
  forall k p, _passes api !! k = Some p -> pass_id p = Some k.

(** The id [create_pass] gives for a uuid draw. *)
Definition new_pass_id (uuid_pass : string) : string := "pass-" +:+ str_take 12 uuid_pass.

(** A byte that is a character of its own and is not white space. *)
Definition is_plain (c : ascii) : bool :=
  (N_of_ascii c <? 128)%N && negb (is_space c).

(** A name that begins and ends with such a character. *)
Definition plain_ends (s : string) : bool :=
  match s, string_rev s with
  | String a _, String b _ => is_plain a && is_plain b
  | _, _ => false
  end.

(** The encoding of U+00A0, the no-break space. *)
Definition no_break_space : string :=
  String (ascii_of_N 194) (String (ascii_of_N 160) "").

(** The id [register_callback] gives for a uuid draw. *)
Definition new_callback_id (uuid_hex : string) : string := "cb-" +:+ str_take 12 uuid_hex.

(** The registrations a store of addresses shows: each id with the object
    at its address. *)
Definition shown {A} (heap : gmap nat A) (store : gmap string nat) : gmap string A :=
  omap (fun l => heap !! l) store.

(** Two registrations and an empty store. *)
Definition two_objects : gmap nat CallbackRegistration :=
  <[1%nat := unpaired_registration]> (<[0%nat := unpaired_registration]> ∅).

(** The key [k] of a user payload. *)
Definition scim_field (k : string) (u : User) : option pyval :=
  dict_lookup k (to_scim_dict u).

(** A user as [User(external_id=..., email=..., ...)] builds it. *)
Definition new_user (ext mail display given family : string) : User :=
  {| external_id := PStr ext; email := PStr mail; display_name := PStr display;
     given_name := PStr given; family_name := PStr family;
     usr_id := PNone; usr_created := None; usr_last_modified := None |}.

(** One user object at address 0. *)
Definition one_user : gmap nat User :=
  <[0%nat := new_user "EMP-1" "john@acme.com" "John Doe" "John" "Doe"]> ∅.

Definition new_user_id (uuid_hex : string) : string := "usr-" +:+ str_take 12 uuid_hex.

(** [s] ends with the character [c]. *)
Fixpoint ends_with (c : ascii) (s : string) : bool :=
  match s with
  | EmptyString => false
  | String a EmptyString => Ascii.eqb a c
  | String _ s' => ends_with c s'
  end.

(** The [time] of the payload, or the empty string that stands for a
    missing one, is a string. *)
Definition time_is_string (payload : EventJson) : bool :=
  match time_value payload with
  | PStr _ => true
  | _ => false
  end.

(** The payload with its [time] key set to [s]. *)
Definition with_time (payload : EventJson) (s : string) : EventJson :=
  {| ej_id := ej_id payload; ej_type := ej_type payload;
     ej_subject := ej_subject payload; ej_time := Some (PStr s);
     ej_data := ej_data payload; ej_source := ej_source payload;
     ej_specversion := ej_specversion payload |}.

(** * Properties *)

(** ** Rounding to binary64 *)

Local Open Scope Z_scope.

Lemma pow2_pos z : (0 < pow2 z)%Q.
Proof. apply Qpower_0_lt. reflexivity. Qed.

Lemma pow2_add a b : (pow2 (a + b) == pow2 a * pow2 b)%Q.
Proof. apply Qpower_plus. discriminate. Qed.

Lemma pow2_le a b : a <= b -> (pow2 a <= pow2 b)%Q.
Proof. intros H. apply Qpower_le_compat_l; [exact H | unfold Qle; simpl; lia]. Qed.

Lemma pow2_lt_inv a b : (pow2 a < pow2 b)%Q -> a < b.
Proof. intros H. apply (Qpower_lt_compat_l_inv 2); [exact H | reflexivity]. Qed.

Lemma pow2_Z n : 0 <= n -> (inject_Z (2 ^ n) == pow2 n)%Q.
Proof. intros H. apply Zpower_Qpower. exact H. Qed.

Lemma pow2_sub a b : (pow2 (a - b) == pow2 a / pow2 b)%Q.
Proof.
  unfold Z.sub. rewrite pow2_add. unfold pow2 at 2. rewrite Qpower_opp. reflexivity.
Qed.

Lemma pow2_succ a : (pow2 (Z.succ a) == 2 * pow2 a)%Q.
Proof. unfold Z.succ. rewrite pow2_add. unfold pow2 at 2. simpl. lra. Qed.

Lemma ilog2_spec q : (0 < q)%Q -> (pow2 (ilog2 q) <= q /\ q < pow2 (ilog2 q + 1))%Q.
Proof.
  intros Hq. destruct q as [n d]. unfold ilog2. cbn [Qnum Qden].
  assert (Hn : 0 < n) by (unfold Qlt in Hq; simpl in Hq; lia).
  pose proof (Z.log2_spec n Hn) as [Hn1 Hn2].
  pose proof (Z.log2_spec (Zpos d) (Pos2Z.is_pos d)) as [Hd1 Hd2].
  pose proof (Z.log2_nonneg n) as Ha. pose proof (Z.log2_nonneg (Zpos d)) as Hb.
  set (a := Z.log2 n) in *. set (b := Z.log2 (Zpos d)) in *.
  assert (Hnd : (n # d == inject_Z n / inject_Z (Zpos d))%Q) by apply Qmake_Qdiv.
  assert (HA : (inject_Z (2 ^ a) <= inject_Z n)%Q) by (rewrite <- Zle_Qle; exact Hn1).
  assert (HA' : (inject_Z n < inject_Z (2 ^ Z.succ a))%Q) by (rewrite <- Zlt_Qlt; exact Hn2).
  assert (HB : (inject_Z (2 ^ b) <= inject_Z (Zpos d))%Q) by (rewrite <- Zle_Qle; exact Hd1).
  assert (HB' : (inject_Z (Zpos d) < inject_Z (2 ^ Z.succ b))%Q) by (rewrite <- Zlt_Qlt; exact Hd2).
  rewrite !pow2_Z in HA, HA', HB, HB' by lia.
  rewrite pow2_succ in HA', HB'.
  assert (Hdpos : (0 < inject_Z (Zpos d))%Q) by reflexivity.
  pose proof (pow2_pos a) as Hpa. pose proof (pow2_pos b) as Hpb.
  set (N := inject_Z n) in *. set (D := inject_Z (Zpos d)) in *.
  destruct (Qle_bool (pow2 (a - b)) (n # d)) eqn:E.
  - apply Qle_bool_iff in E. split; [exact E |].
    replace (a - b + 1) with (Z.succ a - b) by lia.
    rewrite pow2_sub, pow2_succ, Hnd.
    apply Qlt_shift_div_r; [exact Hdpos |].
    setoid_replace (2 * pow2 a / pow2 b * D)%Q with (2 * pow2 a * D / pow2 b)%Q
      using relation Qeq by (field; lra).
    apply Qlt_shift_div_l; [exact Hpb |]. nra.
  - assert (Hlt : (n # d < pow2 (a - b))%Q).
    { apply Qnot_le_lt. intros H. apply Qle_bool_iff in H. congruence. }
    replace (a - b - 1 + 1) with (a - b) by lia. split; [| exact Hlt].
    replace (a - b - 1) with (a - Z.succ b) by lia.
    rewrite pow2_sub, pow2_succ, Hnd.
    apply Qle_shift_div_l; [exact Hdpos |].
    setoid_replace (pow2 a / (2 * pow2 b) * D)%Q with (pow2 a * D / (2 * pow2 b))%Q
      using relation Qeq by (field; lra).
    apply Qle_shift_div_r; [lra |]. nra.
Qed.

Lemma ilog2_le x y : (0 < x)%Q -> (x <= y)%Q -> ilog2 x <= ilog2 y.
Proof.
  intros Hx Hxy. destruct (ilog2_spec x Hx) as [H1 _].
  destruct (ilog2_spec y) as [_ H2]; [lra |].
  assert (H : (pow2 (ilog2 x) < pow2 (ilog2 y + 1))%Q) by lra.
  apply pow2_lt_inv in H. lia.
Qed.

Lemma round_half_even_Z z : round_half_even (inject_Z z) = z.
Proof.
  unfold round_half_even. rewrite Qfloor_Z.
  destruct (Qcompare_spec (inject_Z z - inject_Z z) (1 # 2)) as [H | H | H];
    [exfalso; lra | reflexivity | exfalso; lra].
Qed.

Lemma round_half_even_cases q :
  round_half_even q = Qfloor q \/ round_half_even q = Qfloor q + 1.
Proof.
  unfold round_half_even.
  destruct (Qcompare (q - inject_Z (Qfloor q)) (1 # 2)); auto.
  destruct (Z.even (Qfloor q)); auto.
Qed.

Lemma round_half_even_le x y : (x <= y)%Q -> round_half_even x <= round_half_even y.
Proof.
  intros Hxy. pose proof (Qfloor_resp_le x y Hxy) as Hf.
  destruct (Z.eq_dec (Qfloor x) (Qfloor y)) as [Heq | Hne].
  - unfold round_half_even. rewrite <- Heq.
    destruct (Qcompare_spec (x - inject_Z (Qfloor x)) (1 # 2)) as [Hx | Hx | Hx];
      destruct (Qcompare_spec (y - inject_Z (Qfloor x)) (1 # 2)) as [Hy | Hy | Hy];
      try lia; try (exfalso; lra);
      destruct (Z.even (Qfloor x)); lia.
  - destruct (round_half_even_cases x) as [-> | ->];
      destruct (round_half_even_cases y) as [-> | ->]; lia.
Qed.

Lemma exponent_le x y : (0 < x)%Q -> (x <= y)%Q -> exponent x <= exponent y.
Proof. intros Hx Hxy. unfold exponent. pose proof (ilog2_le x y Hx Hxy). lia. Qed.

Lemma scaled_lt a : (0 < a)%Q -> (a / pow2 (exponent a) < inject_Z (2 ^ 53))%Q.
Proof.
  intros Ha. destruct (ilog2_spec a Ha) as [_ H].
  apply Qlt_shift_div_r; [apply pow2_pos |].
  rewrite pow2_Z by lia. rewrite <- pow2_add.
  eapply Qlt_le_trans; [exact H |]. apply pow2_le. unfold exponent. lia.
Qed.

Lemma scaled_ge a :
  (0 < a)%Q -> -1074 < exponent a -> (inject_Z (2 ^ 52) <= a / pow2 (exponent a))%Q.
Proof.
  intros Ha He. destruct (ilog2_spec a Ha) as [H _].
  apply Qle_shift_div_l; [apply pow2_pos |].
  rewrite pow2_Z by lia. rewrite <- pow2_add.
  eapply Qle_trans; [| exact H]. apply pow2_le. unfold exponent in *. lia.
Qed.

Lemma round_pos_nonneg a : (0 < a)%Q -> (0 <= round_pos a)%Q.
Proof.
  intros Ha. unfold round_pos.
  assert (H0 : (inject_Z 0 <= a / pow2 (exponent a))%Q).
  { apply Qle_shift_div_l; [apply pow2_pos |]. change (inject_Z 0) with 0%Q. lra. }
  apply round_half_even_le in H0. rewrite round_half_even_Z in H0.
  apply Qmult_le_0_compat; [| apply Qlt_le_weak, pow2_pos].
  change 0%Q with (inject_Z 0). rewrite <- Zle_Qle. exact H0.
Qed.

Lemma round_pos_le x y : (0 < x)%Q -> (x <= y)%Q -> (round_pos x <= round_pos y)%Q.
Proof.
  intros Hx Hxy. assert (Hy : (0 < y)%Q) by lra.
  pose proof (exponent_le x y Hx Hxy) as He.
  unfold round_pos.
  destruct (Z.eq_dec (exponent x) (exponent y)) as [Heq | Hne].
  - rewrite <- Heq. apply Qmult_le_compat_r; [| apply Qlt_le_weak, pow2_pos].
    rewrite <- Zle_Qle. apply round_half_even_le.
    apply Qmult_le_compat_r; [exact Hxy |].
    apply Qlt_le_weak, Qinv_lt_0_compat, pow2_pos.
  - assert (Hlt : exponent x < exponent y) by lia.
    pose proof (scaled_lt x Hx) as Hsx.
    assert (Hey : -1074 < exponent y) by (unfold exponent in *; lia).
    pose proof (scaled_ge y Hy Hey) as Hsy.
    apply Qlt_le_weak, round_half_even_le in Hsx. rewrite round_half_even_Z in Hsx.
    apply round_half_even_le in Hsy. rewrite round_half_even_Z in Hsy.
    rewrite Zle_Qle in Hsx, Hsy.
    rewrite pow2_Z in Hsx, Hsy by lia.
    pose proof (pow2_pos (exponent x)) as Hpx. pose proof (pow2_pos (exponent y)) as Hpy.
    assert (Hstep : (pow2 53 * pow2 (exponent x) <= pow2 52 * pow2 (exponent y))%Q).
    { rewrite <- !pow2_add. apply pow2_le. lia. }
    assert (H53 : (0 < pow2 53)%Q) by apply pow2_pos.
    assert (H52 : (0 < pow2 52)%Q) by apply pow2_pos.
    set (mx := inject_Z (round_half_even (x / pow2 (exponent x)))) in *.
    set (my := inject_Z (round_half_even (y / pow2 (exponent y)))) in *.
    nra.
Qed.

Lemma Qle_bool_false x y : Qle_bool x y = false -> (y < x)%Q.
Proof.
  intros H. apply Qnot_le_lt. intros Hle. apply Qle_bool_iff in Hle. congruence.
Qed.

Lemma round53_cases q :
  (q == 0 /\ round53 q = 0)%Q
  \/ ((0 < q)%Q /\ round53 q = round_pos q)
  \/ ((q < 0)%Q /\ round53 q = (- round_pos (- q))%Q).
Proof.
  unfold round53. destruct (Qeq_bool q 0) eqn:E.
  - left. apply Qeq_bool_iff in E. auto.
  - apply Qeq_bool_neq in E. destruct (Qle_bool 0 q) eqn:L.
    + apply Qle_bool_iff in L. right. left. split; [| reflexivity].
      apply Qle_lteq in L as [L | L]; [exact L |]. exfalso. apply E. symmetry. exact L.
    + apply Qle_bool_false in L. right. right. auto.
Qed.

Theorem round53_le x y : (x <= y)%Q -> (round53 x <= round53 y)%Q.
Proof.
  intros Hxy.
  destruct (round53_cases x) as [[Hx ->] | [[Hx ->] | [Hx ->]]];
    destruct (round53_cases y) as [[Hy ->] | [[Hy ->] | [Hy ->]]];
    try (exfalso; lra).
  - lra.
  - apply round_pos_nonneg. exact Hy.
  - apply round_pos_le; assumption.
  - pose proof (round_pos_nonneg (- x)). lra.
  - pose proof (round_pos_nonneg (- x)). pose proof (round_pos_nonneg y). lra.
  - pose proof (round_pos_le (- y) (- x)). lra.
Qed.

(** ** Running the monad *)

Lemma authenticate_refused (e : exn) (st : State) :
  authenticate (Refused e) st = (Raise e, logged st).
Proof. reflexivity. Qed.

Lemma authenticate_error_status (resp : response TokenJson) (st : State) :
  error_status (status_code resp) = true ->
  authenticate (Answered resp) st
  = (Raise (HTTPError (status_code resp) (text resp)), logged st).
Proof.
  unfold error_status. intros H. run_monad. rewrite H. reflexivity.
Qed.

Lemma authenticate_undecodable (resp : response TokenJson) (st : State) :
  error_status (status_code resp) = false ->
  json resp = None ->
  authenticate (Answered resp) st = (Raise JSONDecodeError, logged st).
Proof.
  unfold error_status. intros H Hj. run_monad. rewrite H, Hj. reflexivity.
Qed.

Lemma authenticate_missing_key (resp : response TokenJson) (data : TokenJson) (st : State) :
  error_status (status_code resp) = false ->
  json resp = Some data ->
  j_access_token data = None ->
  authenticate (Answered resp) st = (Raise (KeyError "access_token"), logged st).
Proof.
  unfold error_status. intros H Hj Ha. run_monad. rewrite H, Hj. simpl.
  rewrite Ha. reflexivity.
Qed.

Lemma authenticate_success (resp : response TokenJson) (data : TokenJson)
    (access : pyval) (st : State) :
  error_status (status_code resp) = false ->
  json resp = Some data ->
  j_access_token data = Some access ->
  sliceable access = true ->
  authenticate (Answered resp) st
  = (Ok (token_of data access (clock st)),
     installed (token_of data access (clock st)) st).
Proof.
  unfold error_status. intros H Hj Ha Hs. run_monad. rewrite H, Hj. simpl.
  rewrite Ha. simpl. unfold print_prefix.
  destruct access; try discriminate Hs; reflexivity.
Qed.

(** The token is in place when the report of success fails on an access
    token that cannot be sliced. *)
Lemma authenticate_unsliceable (resp : response TokenJson) (data : TokenJson)
    (access : pyval) (st : State) :
  error_status (status_code resp) = false ->
  json resp = Some data ->
  j_access_token data = Some access ->
  sliceable access = false ->
  exists msg,
    authenticate (Answered resp) st
    = (Raise (TypeError msg), installed (token_of data access (clock st)) st).
Proof.
  unfold error_status. intros H Hj Ha Hs. run_monad. rewrite H, Hj. simpl.
  rewrite Ha. simpl. unfold print_prefix.
  destruct access; try discriminate Hs; eexists; reflexivity.
Qed.

(** What an answer is to [authenticate]: a failed exchange, after which the
    state differs by the logged request only, or an answer that carries an
    access token, which is put in place. *)
Lemma authenticate_cases (r : reply TokenJson) (st : State) :
  (exists e, authenticate r st = (Raise e, logged st))
  \/ (exists resp data access,
        r = Answered resp
        /\ error_status (status_code resp) = false
        /\ json resp = Some data
        /\ j_access_token data = Some access
        /\ snd (authenticate r st) = installed (token_of data access (clock st)) st
        /\ (sliceable access = true ->
            fst (authenticate r st) = Ok (token_of data access (clock st)))
        /\ (sliceable access = false ->
            exists msg, fst (authenticate r st) = Raise (TypeError msg))).
Proof.
  destruct r as [e0 | resp]; [left; exists e0; reflexivity |].
  destruct (error_status (status_code resp)) eqn:Hs.
  { left. eexists. apply authenticate_error_status. exact Hs. }
  destruct (json resp) as [data |] eqn:Hj.
  2:{ left. eexists. apply authenticate_undecodable; assumption. }
  destruct (j_access_token data) as [access |] eqn:Ha.
  2:{ left. eexists. apply (authenticate_missing_key resp data); assumption. }
  right. exists resp, data, access.
  repeat (split; [assumption || reflexivity |]).
  destruct (sliceable access) eqn:Hsl.
  - rewrite (authenticate_success resp data access st Hs Hj Ha Hsl).
    split; [reflexivity |]. split; [reflexivity | discriminate].
  - destruct (authenticate_unsliceable resp data access st Hs Hj Ha Hsl) as [msg Hm].
    rewrite Hm. split; [reflexivity |]. split; [discriminate |].
    intros _. exists msg. reflexivity.
Qed.

(** Whatever the answer, [authenticate] sends exactly one request and
    leaves the clock alone. *)
Lemma authenticate_sends_once (r : reply TokenJson) (st : State) :
  sent (snd (authenticate r st)) = (sent st ++ [token_request (auth st)])%list
  /\ clock (snd (authenticate r st)) = clock st.
Proof.
  destruct (authenticate_cases r st)
    as [[e H] | (resp & data & access & _ & _ & _ & _ & H & _)];
    rewrite H; split; reflexivity.
Qed.

Lemma authenticate_ok_installs (r : reply TokenJson) (st st' : State) (tok : TokenResponse) :
  authenticate r st = (Ok tok, st') ->
  _token (auth st') = Some tok /\ obtained_at tok = clock st /\ clock st' = clock st.
Proof.
  intros H.
  destruct (authenticate_cases r st)
    as [[e He] | (resp & data & access & _ & _ & _ & _ & Hst & Hok & Hbad)].
  - rewrite He in H. discriminate.
  - rewrite H in Hst, Hok, Hbad. simpl in *. subst st'.
    destruct (sliceable access).
    + specialize (Hok eq_refl). injection Hok as ->. simpl. auto.
    + destruct (Hbad eq_refl) as [msg Hm]. discriminate.
Qed.

Lemma get_token_refresh (m : M TokenResponse) (st : State) :
  needs_refresh (_token (auth st)) (clock st) = true ->
  get_token m st = (m ;;; current_access_token) st.
Proof.
  intros H. unfold get_token, bind, gets, time_time, ret. simpl. rewrite H.
  destruct (m st) as [[tok | e] st']; reflexivity.
Qed.

Lemma get_token_cached (m : M TokenResponse) (st : State) :
  needs_refresh (_token (auth st)) (clock st) = false ->
  exists tok, _token (auth st) = Some tok
              /\ get_token m st = (Ok (access_token tok), st).
Proof.
  intros H. destruct (_token (auth st)) as [tok |] eqn:E; [| discriminate].
  exists tok. split; [reflexivity |].
  unfold get_token, current_access_token, bind, gets, time_time, ret. simpl.
  rewrite E. simpl in *. rewrite H. simpl. rewrite E. reflexivity.
Qed.

(** ** The expiry check *)

Lemma float_sub_same (x : Q) : float_sub x x = 0%Q.
Proof.
  unfold float_sub, round53.
  assert (H : Qeq_bool (x - x) 0 = true) by (apply Qeq_bool_iff; lra).
  rewrite H. reflexivity.
Qed.

(** Rounding does not cross a number that binary64 holds. *)
Lemma float_sub_ge (x y r : Q) :
  (round53 r == r)%Q -> (r <= x - y)%Q -> (r <= float_sub x y)%Q.
Proof.
  intros Hr H. unfold float_sub. rewrite <- Hr. apply round53_le. exact H.
Qed.

Lemma float_sub_le (x y r : Q) :
  (round53 r == r)%Q -> (x - y <= r)%Q -> (float_sub x y <= r)%Q.
Proof.
  intros Hr H. unfold float_sub. rewrite <- Hr. apply round53_le. exact H.
Qed.

Lemma is_expired_false_iff (t : TokenResponse) (buffer : Z) (now : Q) :
  ~ (obtained_at t == 0)%Q ->
  is_expired t buffer now = false
  <-> (float_sub now (obtained_at t) < inject_Z (expires_in t - buffer))%Q.
Proof.
  intros Hne. unfold is_expired.
  destruct (Qeq_bool (obtained_at t) 0) eqn:E.
  - apply Qeq_bool_iff in E. contradiction.
  - cbv zeta.
    destruct (Qle_bool (inject_Z (expires_in t - buffer))
                (float_sub now (obtained_at t))) eqn:L.
    + apply Qle_bool_iff in L. split; [discriminate | intros; lra].
    + split; [intros _ | reflexivity].
      apply Qle_bool_false. exact L.
Qed.

Lemma is_expired_past_buffer (t : TokenResponse) (buffer : Z) (now : Q) :
  (inject_Z (expires_in t - buffer) <= float_sub now (obtained_at t))%Q ->
  is_expired t buffer now = true.
Proof.
  intros H. unfold is_expired.
  destruct (Qeq_bool (obtained_at t) 0); [reflexivity |].
  apply Qle_bool_iff. exact H.
Qed.

(** The check is made on the rounded difference: between the binary64
    numbers nearest to 0.1 and to 3540.1 lie less than 3540 seconds, and
    the token of one hour obtained at the first is expired at the second. *)
Lemma is_expired_rounds_the_elapsed_time :
  (reading_3540_1 - reading_0_1 < 3540)%Q
  /\ (float_sub reading_3540_1 reading_0_1 == 3540)%Q
  /\ is_expired {| access_token := PStr "first"; token_type := "Bearer";
                   expires_in := 3600; id_token := None;
                   obtained_at := reading_0_1 |} 60 reading_3540_1 = true.
Proof.
  split; [unfold Qlt; vm_compute; reflexivity |].
  split; [unfold Qeq; vm_compute; reflexivity | vm_compute; reflexivity].
Qed.

Lemma then_current_access_token_state (m : M TokenResponse) (st : State) :
  snd ((m ;;; current_access_token) st) = snd (m st).
Proof.
  unfold bind at 1.
  destruct (m st) as [[tok | e] st']; [| reflexivity].
  cbv [current_access_token bind gets ret raise].
  destruct (_token (auth st')); reflexivity.
Qed.

Lemma get_token_refresh_sends_once (r : reply TokenJson) (st : State) :
  needs_refresh (_token (auth st)) (clock st) = true ->
  sent (snd (get_token (authenticate r) st))
  = (sent st ++ [token_request (auth st)])%list.
Proof.
  intros H. rewrite get_token_refresh by exact H.
  rewrite then_current_access_token_state. apply authenticate_sends_once.
Qed.

(** ** Token expiry and lazy refresh *)

(** C1. For a token with a nonzero [obtained_at], [is_expired()] is false
    exactly when the elapsed time [now - obtained_at], the binary64
    difference the method computes, is less than [expires_in - 60].  For a
    token with [expires_in = 3600] the boundary lies at 3540 seconds: the
    token is expired exactly when the computed difference has reached 3540,
    it is expired whenever 3540 seconds or more lie between the two
    readings and usable whenever at most 3539 do, so at 3550 elapsed
    seconds [get_token()] runs [authenticate()] and one token request goes
    out. *)
Theorem token_usable_iff_within_buffer (t : TokenResponse) (now : Q) :
  ~ (obtained_at t == 0)%Q ->
  (is_expired t 60 now = false
   <-> (float_sub now (obtained_at t) < inject_Z (expires_in t) - 60)%Q)
  /\ (expires_in t = 3600 ->
      (is_expired t 60 now = true <-> (3540 <= float_sub now (obtained_at t))%Q)
      /\ ((3540 <= now - obtained_at t)%Q -> is_expired t 60 now = true)
      /\ ((now - obtained_at t <= 3539)%Q -> is_expired t 60 now = false)
      /\ forall (st : State) (r : reply TokenJson),
           (now - obtained_at t == 3550)%Q ->
           _token (auth st) = Some t -> clock st = now ->
           get_token (authenticate r) st
           = (authenticate r ;;; current_access_token) st
           /\ sent (snd (get_token (authenticate r) st))
              = (sent st ++ [token_request (auth st)])%list).
Proof.
  intros Hne.
  assert (Hiff : is_expired t 60 now = false
                 <-> (float_sub now (obtained_at t) < inject_Z (expires_in t) - 60)%Q).
  { rewrite (is_expired_false_iff t 60 now Hne).
    unfold Z.sub. rewrite inject_Z_plus.
    change (inject_Z (- (60))) with (- (60))%Q.
    split; intros; lra. }
  split; [exact Hiff |].
  intros H3600. rewrite H3600 in Hiff.
  change (inject_Z 3600) with 3600%Q in Hiff.
  assert (Hexp : is_expired t 60 now = true <-> (3540 <= float_sub now (obtained_at t))%Q).
  { destruct (is_expired t 60 now) eqn:E.
    + split; [intros _ | reflexivity].
      destruct (Qlt_le_dec (float_sub now (obtained_at t)) 3540) as [Hlt | Hle];
        [| exact Hle].
      assert (true = false) by (apply Hiff; lra). discriminate.
    + split; [discriminate |].
      intros Hge.
      assert (float_sub now (obtained_at t) < 3600 - 60)%Q by (apply Hiff; reflexivity).
      lra. }
  assert (Hlate : (3540 <= now - obtained_at t)%Q -> is_expired t 60 now = true).
  { intros Hge. apply Hexp. apply float_sub_ge; [| exact Hge].
    unfold Qeq. vm_compute. reflexivity. }
  split; [exact Hexp |]. split; [exact Hlate |]. split.
  - intros Hle. apply Hiff.
    assert (float_sub now (obtained_at t) <= 3539)%Q.
    { apply float_sub_le; [| exact Hle]. unfold Qeq. vm_compute. reflexivity. }
    lra.
  - intros st r Helapsed Htok Hclock.
    assert (Hstale : needs_refresh (_token (auth st)) (clock st) = true).
    { rewrite Htok, Hclock. simpl. apply Hlate. lra. }
    split; [apply get_token_refresh; exact Hstale
           | apply get_token_refresh_sends_once; exact Hstale].
Qed.

Lemma token_usable_iff_within_buffer_witness :
  is_expired hour_token 60 4550 = true
  /\ sent (snd (get_token (authenticate (Refused Timeout))
                  (sample_state (Some hour_token) 4550)))
     = [token_request (sample_auth (Some hour_token))].
Proof.
  assert (Hne : ~ (obtained_at hour_token == 0)%Q) by (unfold Qeq; simpl; lia).
  destruct (token_usable_iff_within_buffer hour_token 4550 Hne) as [_ Hhour].
  destruct (Hhour eq_refl) as (_ & Hlate & _ & Hscenario).
  split.
  - apply Hlate. unfold Qle; simpl; lia.
  - destruct (Hscenario (sample_state (Some hour_token) 4550) (Refused Timeout))
      as [_ Hsent]; [unfold Qeq; simpl; lia | reflexivity | reflexivity |].
    exact Hsent.
Defined.

(** A token that [authenticate] has just put in place is usable exactly
    when the platform granted more than the 60 second buffer. *)
Lemma fresh_token_usable_iff (tok : TokenResponse) (now : Q) :
  obtained_at tok = now -> ~ (now == 0)%Q ->
  is_expired tok 60 now = false <-> 60 < expires_in tok.
Proof.
  intros Hat Hne. subst now.
  rewrite (is_expired_false_iff tok 60 (obtained_at tok) Hne).
  rewrite float_sub_same. change 0%Q with (inject_Z 0). rewrite <- Zlt_Qlt. lia.
Qed.

(** C2, as stated, fails: with no token cached and an answer that grants 30
    seconds, [get_token()] returns the new access token although the token
    it belongs to fails the expiry check at that very moment. *)
Lemma get_token_may_return_expired_token :
  ~ (forall (st st' : State) (r : reply TokenJson) (s : pyval),
       get_token (authenticate r) st = (Ok s, st') ->
       exists tok, _token (auth st') = Some tok
                   /\ access_token tok = s
                   /\ is_expired tok 60 (clock st') = false).
Proof.
  intros H.
  destruct (H (sample_state None 1000) _ (grant "short" 30) (PStr "short") eq_refl)
    as (tok & Htok & _ & Hvalid).
  injection Htok as <-. discriminate Hvalid.
Qed.

(** C2, amended.  [get_token()] calls [authenticate()] exactly when no token
    is cached or the cached one fails the expiry check.  With a valid cached
    token nothing is sent, the state is unchanged and the cached access
    token is returned.  Otherwise one token request goes out; when
    [get_token()] then returns, it returns the access token of the token
    just put in place, and that token passes the expiry check exactly when
    it was granted more than 60 seconds. *)
Theorem get_token_lazy_refresh (m : M TokenResponse) (r : reply TokenJson) (st : State) :
  (needs_refresh (_token (auth st)) (clock st) = false ->
     exists tok, _token (auth st) = Some tok
                 /\ is_expired tok 60 (clock st) = false
                 /\ get_token m st = (Ok (access_token tok), st))
  /\ (needs_refresh (_token (auth st)) (clock st) = true ->
      get_token m st = (m ;;; current_access_token) st
      /\ sent (snd (get_token (authenticate r) st))
         = (sent st ++ [token_request (auth st)])%list
      /\ (forall (s : pyval) (st' : State),
            get_token (authenticate r) st = (Ok s, st') ->
            exists tok, _token (auth st') = Some tok
                        /\ access_token tok = s
                        /\ obtained_at tok = clock st'
                        /\ (~ (clock st' == 0)%Q ->
                            is_expired tok 60 (clock st') = false
                            <-> 60 < expires_in tok))).
Proof.
  split.
  - intros Hfresh. destruct (get_token_cached m st Hfresh) as (tok & Htok & Hget).
    exists tok. rewrite Htok in Hfresh. simpl in Hfresh. auto.
  - intros Hstale. split; [apply get_token_refresh; exact Hstale |].
    split; [apply get_token_refresh_sends_once; exact Hstale |].
    rewrite (get_token_refresh (authenticate r) st Hstale).
    unfold bind.
    destruct (authenticate r st) as [[tok | e0] st1] eqn:Hauth; [| discriminate].
    destruct (authenticate_ok_installs r st st1 tok Hauth) as (Htok & Hat & Hclock).
    cbv [current_access_token bind gets ret raise]. rewrite Htok.
    intros s st' [= <- <-]. exists tok.
    split; [exact Htok |]. split; [reflexivity |]. split; [congruence |].
    intros Hne. apply fresh_token_usable_iff; [congruence | exact Hne].
Qed.

Lemma get_token_lazy_refresh_witness :
  get_token mock_authenticate (sample_state (Some hour_token) 2000)
  = (Ok (PStr "first"), sample_state (Some hour_token) 2000)
  /\ sent (snd (get_token (authenticate (grant "second" 3600))
                  (sample_state (Some hour_token) 4550)))
     = [token_request (sample_auth (Some hour_token))].
Proof.
  split.
  - destruct (get_token_lazy_refresh mock_authenticate (Refused Timeout)
                (sample_state (Some hour_token) 2000)) as [Hcached _].
    destruct (Hcached eq_refl) as (tok & Htok & _ & Hget).
    injection Htok as <-. exact Hget.
  - destruct (get_token_lazy_refresh mock_authenticate (grant "second" 3600)
                (sample_state (Some hour_token) 4550)) as [_ Hstale].
    destruct (Hstale eq_refl) as (_ & Hsent & _). exact Hsent.
Defined.

(** ** Failure of the authentication exchange *)

(** C7, as stated, fails: the exception [authenticate()] raises is the one
    of the transport; for an answer with status 401 it is [HTTPError], and
    no exception named [AuthenticationError] is ever raised. *)
Lemma authenticate_raises_no_AuthenticationError :
  ~ (forall (r : reply TokenJson) (st st' : State) (e : exn),
       authenticate r st = (Raise e, st') ->
       exn_class e = "AuthenticationError")
  /\ (forall e : exn, exn_class e <> "AuthenticationError").
Proof.
  split.
  - intros H.
    specialize (H (Answered {| status_code := 401; text := "invalid_client";
                               json := None |})
                  (sample_state (Some hour_token) 2000) _ _ eq_refl).
    discriminate H.
  - intros e. destruct e; discriminate.
Qed.

(** C7, amended.  When the exchange fails, [authenticate()] raises the
    failure as it is: the exception of the transport when the platform
    cannot be reached, [HTTPError] with the status and body of the answer
    when the status is an error, [JSONDecodeError] for a body that is not
    JSON and [KeyError] for a body without [access_token].  In each case
    exactly one request has gone out, and the cached token is the one it
    found, so the expiry check on it answers as before.  The cached token
    changes only when the answer has no error status and its body holds an
    [access_token]; it is then a new value built from the answer and the
    clock, and it is the token [authenticate()] returns when it returns. *)
Theorem authenticate_failure_keeps_token (r : reply TokenJson) (st : State) :
  (forall e, r = Refused e -> authenticate r st = (Raise e, logged st))
  /\ (forall resp, r = Answered resp ->
        error_status (status_code resp) = true ->
        authenticate r st
        = (Raise (HTTPError (status_code resp) (text resp)), logged st))
  /\ (forall resp, r = Answered resp ->
        error_status (status_code resp) = false ->
        json resp = None ->
        authenticate r st = (Raise JSONDecodeError, logged st))
  /\ (forall resp data, r = Answered resp ->
        error_status (status_code resp) = false ->
        json resp = Some data ->
        j_access_token data = None ->
        authenticate r st = (Raise (KeyError "access_token"), logged st))
  /\ (auth (logged st) = auth st
      /\ forall now, needs_refresh (_token (auth (logged st))) now
                     = needs_refresh (_token (auth st)) now)
  /\ sent (snd (authenticate r st)) = (sent st ++ [token_request (auth st)])%list
  /\ (_token (auth (snd (authenticate r st))) <> _token (auth st) ->
      exists resp data access,
        r = Answered resp
        /\ error_status (status_code resp) = false
        /\ json resp = Some data
        /\ j_access_token data = Some access
        /\ _token (auth (snd (authenticate r st)))
           = Some (token_of data access (clock st)))
  /\ (forall (tok : TokenResponse) (st' : State),
        authenticate r st = (Ok tok, st') ->
        _token (auth st') = Some tok
        /\ obtained_at tok = clock st
        /\ sent st' = (sent st ++ [token_request (auth st)])%list).
Proof.
  split; [intros e ->; apply authenticate_refused |].
  split; [intros resp -> Hs; apply authenticate_error_status; exact Hs |].
  split; [intros resp -> Hs Hj; apply authenticate_undecodable; assumption |].
  split; [intros resp data -> Hs Hj Ha;
          apply (authenticate_missing_key resp data); assumption |].
  split; [split; [reflexivity | intros now; reflexivity] |].
  split; [apply authenticate_sends_once |].
  split.
  - intros Hchange.
    destruct (authenticate_cases r st)
      as [[e He] | (resp & data & access & Hr & Hs & Hj & Ha & Hst & _)].
    + rewrite He in Hchange. simpl in Hchange. contradiction.
    + exists resp, data, access. rewrite Hst. simpl. auto.
  - intros tok st' H.
    destruct (authenticate_ok_installs r st st' tok H) as (Htok & Hat & _).
    split; [exact Htok |]. split; [exact Hat |].
    pose proof (authenticate_sends_once r st) as [Hsent _].
    rewrite H in Hsent. exact Hsent.
Qed.

Lemma authenticate_failure_keeps_token_witness :
  authenticate (Answered {| status_code := 401; text := "invalid_client"; json := None |})
    (sample_state (Some hour_token) 2000)
  = (Raise (HTTPError 401 "invalid_client"),
     logged (sample_state (Some hour_token) 2000)).
Proof.
  destruct (authenticate_failure_keeps_token
              (Answered {| status_code := 401; text := "invalid_client"; json := None |})
              (sample_state (Some hour_token) 2000)) as (_ & Hstatus & _).
  apply (Hstatus _ eq_refl). reflexivity.
Defined.

(** ** Pass lifecycle in the in-memory client *)

Lemma one_pending_lookup :
  exists p, _passes one_pending !! "pass-0123456789ab" = Some p /\ status p = PENDING.
Proof. eexists. split; [apply lookup_insert_eq | reflexivity]. Qed.

(** C3, as stated, fails: [resume_pass] on a PENDING pass does not raise; it
    returns the pass with status ACTIVE. *)
Lemma resume_pending_pass_succeeds :
  ~ (forall (api : MockCredentialManagementAPI) (pid : string) (p : Pass),
       _passes api !! pid = Some p -> status p = PENDING ->
       is_ok (fst (mock_resume_pass pid api)) = false)
  /\ (exists p, fst (mock_resume_pass "pass-0123456789ab" one_pending) = Ok p
                /\ status p = ACTIVE).
Proof.
  destruct one_pending_lookup as (p & Hp & Hstatus).
  split.
  - intros H. specialize (H one_pending "pass-0123456789ab" p Hp Hstatus).
    unfold mock_resume_pass in H. rewrite Hp in H. discriminate H.
  - exists (set_status p ACTIVE). unfold mock_resume_pass. rewrite Hp.
    split; reflexivity.
Qed.

(** C3, amended.  For a pass the client holds, whatever its status,
    [suspend_pass] returns it with status SUSPENDED and [resume_pass]
    returns it with status ACTIVE, the stored pass changes accordingly and
    the other passes stay as they are; suspending a SUSPENDED pass and
    resuming an ACTIVE one leave the pass as it is.  No starting status is
    refused: the only error is the [ValueError] for an id the client does
    not hold, which leaves the store unchanged. *)
Theorem suspend_resume_from_any_status (api : MockCredentialManagementAPI) (pid : string) :
  (forall p, _passes api !! pid = Some p ->
     (fst (mock_suspend_pass pid api) = Ok (set_status p SUSPENDED)
      /\ _passes (snd (mock_suspend_pass pid api)) !! pid = Some (set_status p SUSPENDED)
      /\ (forall other, other <> pid ->
            _passes (snd (mock_suspend_pass pid api)) !! other = _passes api !! other)
      /\ (status p = SUSPENDED -> snd (mock_suspend_pass pid api) = api))
     /\ (fst (mock_resume_pass pid api) = Ok (set_status p ACTIVE)
         /\ _passes (snd (mock_resume_pass pid api)) !! pid = Some (set_status p ACTIVE)
         /\ (forall other, other <> pid ->
               _passes (snd (mock_resume_pass pid api)) !! other = _passes api !! other)
         /\ (status p = ACTIVE -> snd (mock_resume_pass pid api) = api)))
  /\ (_passes api !! pid = None ->
      mock_suspend_pass pid api = (Raise (ValueError ("Pass not found: " +:+ pid)), api)
      /\ mock_resume_pass pid api = (Raise (ValueError ("Pass not found: " +:+ pid)), api)).
Proof.
  assert (Hsame : forall (p : Pass) s, status p = s -> set_status p s = p).
  { intros [] s Hs. simpl in Hs. subst s. reflexivity. }
  split.
  - intros p Hp. unfold mock_suspend_pass, mock_resume_pass. rewrite Hp. simpl.
    split; (split; [reflexivity |]); (split; [apply lookup_insert_eq |]);
      (split; [intros other Hne; apply lookup_insert_ne; congruence |]);
      intros Hs; rewrite (Hsame p _ Hs); destruct api as [ps]; simpl in *;
      f_equal; apply insert_id; exact Hp.
  - intros Hnone. unfold mock_suspend_pass, mock_resume_pass. rewrite Hnone.
    split; reflexivity.
Qed.

Lemma suspend_resume_from_any_status_witness :
  exists p, fst (mock_suspend_pass "pass-0123456789ab" one_pending) = Ok p
            /\ status p = SUSPENDED.
Proof.
  destruct one_pending_lookup as (p & Hp & _).
  destruct (suspend_resume_from_any_status one_pending "pass-0123456789ab")
    as [Hheld _].
  destruct (Hheld p Hp) as [(Hsuspend & _) _].
  exists (set_status p SUSPENDED). split; [exact Hsuspend | reflexivity].
Defined.

(** ** Deleting a pass *)

Lemma mock_delete_pass_absent (pid : string) (api : MockCredentialManagementAPI) :
  _passes (snd (mock_delete_pass pid api)) !! pid = None.
Proof.
  unfold mock_delete_pass. simpl.
  destruct (_passes api !! pid) eqn:E; simpl; [apply lookup_delete_eq | exact E].
Qed.

Lemma get_headers_cached (m : M TokenResponse) (app_id app_version : string) (st : State) :
  needs_refresh (_token (auth st)) (clock st) = false ->
  exists tok, _token (auth st) = Some tok
    /\ get_headers m app_id app_version st
       = (Ok (bearer_headers (access_token tok) app_id app_version), st).
Proof.
  intros Hfresh. destruct (get_token_cached m st Hfresh) as (tok & Htok & Hget).
  exists tok. split; [exact Htok |].
  unfold get_headers, bind. rewrite Hget. reflexivity.
Qed.

(** The networked [delete_pass] once the headers are there. *)
Lemma delete_pass_after_headers (m : M TokenResponse) (base pid : string)
    (r : reply unit) (st st1 : State) (headers : list (string * string)) :
  get_headers m default_app_id default_app_version st = (Ok headers, st1) ->
  delete_pass m base r pid st
  = (match r with
     | Refused e => Raise e
     | Answered resp =>
         if error_status (status_code resp)
         then Raise (HTTPError (status_code resp) (text resp))
         else Ok true
     end,
     after_request (delete_request base pid headers) st1).
Proof.
  intros Hheaders.
  unfold delete_pass. unfold bind at 1. rewrite Hheaders.
  unfold error_status. destruct r as [e | resp]; [reflexivity |].
  cbv [bind requests_send log_request modify raise_for_status ret raise].
  destruct ((400 <=? status_code resp) && (status_code resp <? 600)); reflexivity.
Qed.

(** The networked [delete_pass] with a usable token in the cache. *)
Lemma delete_pass_cached (m : M TokenResponse) (base pid : string)
    (r : reply unit) (st : State) :
  needs_refresh (_token (auth st)) (clock st) = false ->
  exists tok,
    _token (auth st) = Some tok
    /\ delete_pass m base r pid st
       = (match r with
          | Refused e => Raise e
          | Answered resp =>
              if error_status (status_code resp)
              then Raise (HTTPError (status_code resp) (text resp))
              else Ok true
          end,
          after_request
            (delete_request base pid
               (bearer_headers (access_token tok) default_app_id default_app_version))
            st).
Proof.
  intros Hfresh.
  destruct (get_headers_cached m default_app_id default_app_version st Hfresh)
    as (tok & Htok & Hheaders).
  exists tok. split; [exact Htok |].
  apply delete_pass_after_headers. exact Hheaders.
Qed.

(** C4, as stated, fails for the networked client: when the platform
    answers 404 for an id it does not know, [delete_pass] raises the
    [HTTPError] of [raise_for_status] instead of returning success. *)
Lemma delete_pass_propagates_not_found :
  ~ (forall (m : M TokenResponse) (base pid : string) (r : reply unit) (st : State),
       is_ok (fst (delete_pass m base r pid st)) = true)
  /\ fst (delete_pass mock_authenticate "https://api.origo.hidglobal.com" not_found
            "pass-unknown" (sample_state (Some hour_token) 2000))
     = Raise (HTTPError 404 "Not Found").
Proof.
  split; [| reflexivity].
  intros H.
  specialize (H mock_authenticate "https://api.origo.hidglobal.com" "pass-unknown"
                not_found (sample_state (Some hour_token) 2000)).
  discriminate H.
Qed.

(** C4, amended.  In the in-memory client [delete_pass] returns success for
    every id; afterwards the id is absent, whatever the status of the pass
    it held, the other passes are untouched, and for an id that was already
    absent the store is unchanged.  The networked client, once it has its
    headers, sends one request, a DELETE to [<endpoint>/<pass_id>] with
    those headers and no body, and nothing after it; it returns success
    only when the answer carries no error status, and raises the error
    status (404 for an unknown id) or the transport failure to the caller.
    When the headers cannot be built no DELETE is sent.  With a usable
    token in the cache the DELETE is the only request, and it carries that
    token. *)
Theorem delete_pass_idempotent_in_memory (pid : string)
    (api : MockCredentialManagementAPI) (m : M TokenResponse) (base : string)
    (r : reply unit) (st : State) :
  (fst (mock_delete_pass pid api) = Ok true
   /\ _passes (snd (mock_delete_pass pid api)) !! pid = None
   /\ (forall other, other <> pid ->
         _passes (snd (mock_delete_pass pid api)) !! other = _passes api !! other)
   /\ (_passes api !! pid = None -> snd (mock_delete_pass pid api) = api)
   /\ mock_delete_pass pid (snd (mock_delete_pass pid api))
      = (Ok true, snd (mock_delete_pass pid api)))
  /\ (forall (headers : list (string * string)) (st1 : State),
        get_headers m default_app_id default_app_version st = (Ok headers, st1) ->
        fst (delete_pass m base r pid st)
        = match r with
          | Refused e => Raise e
          | Answered resp =>
              if error_status (status_code resp)
              then Raise (HTTPError (status_code resp) (text resp))
              else Ok true
          end
        /\ auth (snd (delete_pass m base r pid st)) = auth st1
        /\ sent (snd (delete_pass m base r pid st))
           = (sent st1 ++ [{| rq_verb := DELETE;
                              rq_url := pass_endpoint base +:+ "/" +:+ pid;
                              rq_body := NoBody;
                              rq_headers := headers |}])%list)
  /\ (forall (e : exn) (st1 : State),
        get_headers m default_app_id default_app_version st = (Raise e, st1) ->
        delete_pass m base r pid st = (Raise e, st1))
  /\ (needs_refresh (_token (auth st)) (clock st) = false ->
      exists tok,
        _token (auth st) = Some tok
        /\ fst (delete_pass m base r pid st)
           = match r with
             | Refused e => Raise e
             | Answered resp =>
                 if error_status (status_code resp)
                 then Raise (HTTPError (status_code resp) (text resp))
                 else Ok true
             end
        /\ auth (snd (delete_pass m base r pid st)) = auth st
        /\ sent (snd (delete_pass m base r pid st))
           = (sent st
              ++ [{| rq_verb := DELETE;
                     rq_url := pass_endpoint base +:+ "/" +:+ pid;
                     rq_body := NoBody;
                     rq_headers :=
                       bearer_headers (access_token tok)
                         default_app_id default_app_version |}])%list).
Proof.
  split; [| split; [| split]].
  - split; [reflexivity |].
    split; [apply mock_delete_pass_absent |].
    split; [| split].
    + intros other Hne. unfold mock_delete_pass. simpl.
      destruct (_passes api !! pid); simpl; [| reflexivity].
      apply lookup_delete_ne. congruence.
    + intros Hnone. unfold mock_delete_pass. simpl. rewrite Hnone. reflexivity.
    + pose proof (mock_delete_pass_absent pid api) as Habsent.
      unfold mock_delete_pass at 1. rewrite Habsent. reflexivity.
  - intros headers st1 Hheaders.
    rewrite (delete_pass_after_headers m base pid r st st1 headers Hheaders).
    split; [reflexivity |]. split; reflexivity.
  - intros e st1 Hheaders. unfold delete_pass. unfold bind at 1.
    rewrite Hheaders. reflexivity.
  - intros Hfresh.
    destruct (delete_pass_cached m base pid r st Hfresh) as (tok & Htok & Hdel).
    exists tok. rewrite Hdel.
    split; [exact Htok |]. split; [reflexivity |]. split; reflexivity.
Qed.

Lemma delete_pass_idempotent_in_memory_witness :
  fst (delete_pass mock_authenticate "https://api.origo.hidglobal.com"
         (Answered {| status_code := 204; text := ""; json := None |})
         "pass-0123456789ab" (sample_state (Some hour_token) 2000))
  = Ok true
  /\ sent (snd (delete_pass mock_authenticate "https://api.origo.hidglobal.com"
                  (Answered {| status_code := 204; text := ""; json := None |})
                  "pass-0123456789ab" (sample_state (Some hour_token) 2000)))
     = [{| rq_verb := DELETE;
           rq_url := "https://api.origo.hidglobal.com/pass/pass-0123456789ab";
           rq_body := NoBody;
           rq_headers := [("Authorization", "Bearer first");
                          ("Application-ID", "acme-mobile-access");
                          ("Application-Version", "1.0.0");
                          ("Content-Type", "application/json")] |}].
Proof.
  destruct (delete_pass_idempotent_in_memory "pass-0123456789ab" one_pending
              mock_authenticate "https://api.origo.hidglobal.com"
              (Answered {| status_code := 204; text := ""; json := None |})
              (sample_state (Some hour_token) 2000)) as (_ & _ & _ & Hnet).
  destruct (Hnet eq_refl) as (tok & Htok & Hres & _ & Hsent).
  injection Htok as <-. split; [exact Hres | exact Hsent].
Defined.

(** ** Callback registration *)

Lemma to_dict_cases (reg : CallbackRegistration) :
  to_dict reg
  = if truthy (http_header reg) && truthy (secret reg)
    then (bare_payload reg ++ [("httpHeader", of_optional (http_header reg));
                               ("secret", of_optional (secret reg))])%list
    else bare_payload reg.
Proof. reflexivity. Qed.

Lemma exactly_one_set_not_both (reg : CallbackRegistration) :
  exactly_one_set reg -> truthy (http_header reg) && truthy (secret reg) = false.
Proof.
  intros [[_ Hs] | [Hh _]].
  - rewrite Hs. apply andb_false_r.
  - rewrite Hh. reflexivity.
Qed.

(** C10. The payload of [to_dict] holds the key [httpHeader] exactly when it
    holds the key [secret]: both are there, with the values of the
    registration, when both fields are set and non-empty, and neither is
    there otherwise.  When exactly one of the two fields is set, the payload
    is the url and the filter alone. *)
Theorem to_dict_pairs_header_and_secret (reg : CallbackRegistration) :
  dict_has "httpHeader" (to_dict reg) = dict_has "secret" (to_dict reg)
  /\ dict_has "httpHeader" (to_dict reg)
     = truthy (http_header reg) && truthy (secret reg)
  /\ (truthy (http_header reg) && truthy (secret reg) = true ->
      dict_lookup "httpHeader" (to_dict reg) = Some (of_optional (http_header reg))
      /\ dict_lookup "secret" (to_dict reg) = Some (of_optional (secret reg)))
  /\ (exactly_one_set reg ->
      to_dict reg = bare_payload reg
      /\ dict_has "httpHeader" (to_dict reg) = false
      /\ dict_has "secret" (to_dict reg) = false).
Proof.
  rewrite to_dict_cases.
  split; [| split; [| split]].
  - destruct (truthy (http_header reg) && truthy (secret reg)); reflexivity.
  - destruct (truthy (http_header reg) && truthy (secret reg)); reflexivity.
  - intros ->. split; reflexivity.
  - intros Hone. rewrite (exactly_one_set_not_both reg Hone).
    repeat split; reflexivity.
Qed.

Lemma to_dict_pairs_header_and_secret_witness :
  to_dict unpaired_registration
  = [("url", PStr "http://acme.com/webhooks/origo");
     ("filter", PDict [("eventTypes", PList [PStr "USER_CREATED";
                                             PStr "USER_UPDATED";
                                             PStr "USER_DELETED"])])].
Proof.
  destruct (to_dict_pairs_header_and_secret unpaired_registration)
    as (_ & _ & _ & Hone).
  destruct Hone as (Hbare & _).
  - left. split; [discriminate | reflexivity].
  - exact Hbare.
Defined.

(** The networked [register_callback] with a usable token in the cache and
    an answer without error status. *)
Lemma register_callback_cached (m : M TokenResponse) (base : string)
    (resp : response CallbackJson) (data : CallbackJson)
    (reg : CallbackRegistration) (st : State) :
  needs_refresh (_token (auth st)) (clock st) = false ->
  error_status (status_code resp) = false ->
  json resp = Some data ->
  exists headers,
    get_headers m default_app_id default_app_version st = (Ok headers, st)
    /\ register_callback m base (Answered resp) reg st
       = (Ok (set_registration_id reg (cj_id data)),
          {| auth := auth st; clock := clock st;
             sent := sent st ++ [{| rq_verb := POST;
                                    rq_url := callback_endpoint base;
                                    rq_body := Json (to_dict reg);
                                    rq_headers := headers |}] |}).
Proof.
  intros Hfresh Hstatus Hjson.
  destruct (get_headers_cached m default_app_id default_app_version st Hfresh)
    as (tok & _ & Hheaders).
  eexists. split; [exact Hheaders |].
  unfold register_callback. unfold bind at 1. rewrite Hheaders.
  unfold error_status in Hstatus.
  cbv [bind requests_send log_request modify raise_for_status response_json ret raise].
  rewrite Hstatus, Hjson. reflexivity.
Qed.

(** C5, as stated, fails: a registration with a header name, no secret and
    a plain HTTP url is accepted.  The networked client posts it and returns
    it with the id the platform assigned; the in-memory client stores it. *)
Lemma register_callback_accepts_unpaired :
  ~ (forall (m : M TokenResponse) (base : string) (r : reply CallbackJson)
            (reg : CallbackRegistration) (st : State),
       exactly_one_set reg ->
       is_ok (fst (register_callback m base r reg st)) = false)
  /\ String.prefix "https://" (url unpaired_registration) = false
  /\ fst (register_callback mock_authenticate "https://api.origo.hidglobal.com"
            (registered "cb-1") unpaired_registration
            (sample_state (Some hour_token) 2000))
     = Ok (set_registration_id unpaired_registration (Some "cb-1"))
  /\ _registrations
       (snd (mock_register_callback "0123456789abcdef0123456789abcdef"
               unpaired_registration {| _registrations := ∅ |}))
     !! "cb-0123456789ab"
     = Some (set_registration_id unpaired_registration (Some "cb-0123456789ab")).
Proof.
  split; [| split; [reflexivity | split]].
  - intros H.
    specialize (H mock_authenticate "https://api.origo.hidglobal.com"
                  (registered "cb-1") unpaired_registration
                  (sample_state (Some hour_token) 2000)).
    assert (Hone : exactly_one_set unpaired_registration)
      by (left; split; [discriminate | reflexivity]).
    specialize (H Hone). discriminate H.
  - reflexivity.
  - apply lookup_insert_eq.
Qed.

(** C5, amended.  [register_callback] checks neither the pairing of
    [http_header] and [secret] nor the scheme of the url.  For every
    registration the in-memory client stores it under a new id and returns
    it with that id; the networked client, given a usable cached token and
    an answer without error status, posts [to_dict] of the registration and
    returns the registration with the id of the answer.  When exactly one of
    [http_header] and [secret] is set, the payload that is posted holds
    neither [httpHeader] nor [secret]. *)
Theorem register_callback_does_not_validate (m : M TokenResponse) (base uuid_hex : string)
    (resp : response CallbackJson) (data : CallbackJson)
    (reg : CallbackRegistration) (api : MockCallbackAPI) (st : State) :
  (fst (mock_register_callback uuid_hex reg api)
   = set_registration_id reg (Some ("cb-" +:+ str_take 12 uuid_hex))
   /\ _registrations (snd (mock_register_callback uuid_hex reg api))
        !! ("cb-" +:+ str_take 12 uuid_hex)
      = Some (set_registration_id reg (Some ("cb-" +:+ str_take 12 uuid_hex))))
  /\ (needs_refresh (_token (auth st)) (clock st) = false ->
      error_status (status_code resp) = false ->
      json resp = Some data ->
      fst (register_callback m base (Answered resp) reg st)
      = Ok (set_registration_id reg (cj_id data))
      /\ exists headers,
           sent (snd (register_callback m base (Answered resp) reg st))
           = (sent st ++ [{| rq_verb := POST;
                             rq_url := callback_endpoint base;
                             rq_body := Json (to_dict reg);
                             rq_headers := headers |}])%list)
  /\ (exactly_one_set reg ->
      dict_has "httpHeader" (to_dict reg) = false
      /\ dict_has "secret" (to_dict reg) = false).
Proof.
  split; [| split].
  - split; [reflexivity | apply lookup_insert_eq].
  - intros Hfresh Hstatus Hjson.
    destruct (register_callback_cached m base resp data reg st Hfresh Hstatus Hjson)
      as (headers & _ & Hreg).
    rewrite Hreg. split; [reflexivity |]. exists headers. reflexivity.
  - intros Hone. rewrite to_dict_cases, (exactly_one_set_not_both reg Hone).
    split; reflexivity.
Qed.

Lemma register_callback_does_not_validate_witness :
  fst (register_callback mock_authenticate "https://api.origo.hidglobal.com"
         (registered "cb-1") unpaired_registration
         (sample_state (Some hour_token) 2000))
  = Ok (set_registration_id unpaired_registration (Some "cb-1"))
  /\ dict_has "httpHeader" (to_dict unpaired_registration) = false.
Proof.
  destruct (register_callback_does_not_validate mock_authenticate
              "https://api.origo.hidglobal.com" "0123456789abcdef0123456789abcdef"
              {| status_code := 201; text := ""; json := Some {| cj_id := Some "cb-1" |} |}
              {| cj_id := Some "cb-1" |} unpaired_registration
              {| _registrations := ∅ |} (sample_state (Some hour_token) 2000))
    as (_ & Hnet & Hone).
  split.
  - destruct Hnet as [Hres _]; [reflexivity | reflexivity | reflexivity |].
    exact Hres.
  - destruct Hone as [Hheader _]; [| exact Hheader].
    left. split; [discriminate | reflexivity].
Defined.

(** ** Parsing and interpreting cloud events *)

Example iso_seconds_scenario :
  iso_seconds (time_argument scenario_payload) = Ok scenario_time.
Proof. reflexivity. Qed.

Example iso_seconds_empty :
  iso_seconds "" = Raise (ValueError "Invalid isoformat string: ''").
Proof. reflexivity. Qed.

(** C6, as stated, fails: a payload without [type] (or without [subject])
    and with a well-formed [time] parses; the missing field is the empty
    string. *)
Lemma from_dict_accepts_missing_type :
  ~ (forall payload : EventJson,
       ej_type payload = None \/ ej_subject payload = None ->
       is_ok (from_dict iso_seconds payload) = false)
  /\ from_dict iso_seconds untyped_payload
     = Ok {| type := ""; subject := "pass/abc"; time := scenario_time;
             data := [("status", PStr "COMPLETED"); ("userId", PStr "u1")];
             event_id := Some "evt-1"; source := None; specversion := "1.0" |}.
Proof.
  split; [| reflexivity].
  intros H. specialize (H untyped_payload (or_introl eq_refl)). discriminate H.
Qed.

(** C6, amended.  [from_dict] fails in two cases only.  When the [time]
    field is there and is not a string, it raises the [AttributeError] of
    the missing [replace].  Otherwise the field, or the empty string when
    it is missing, has its [Z] replaced by [+00:00] and goes to
    [fromisoformat]; when that raises, [from_dict] raises the same
    exception.  When [fromisoformat] returns, the payload parses, and a
    missing [type] or [subject] becomes the empty string. *)
Theorem from_dict_fails_only_on_time (fromisoformat : string -> result datetime)
    (payload : EventJson) :
  (time_is_string payload = false ->
   from_dict fromisoformat payload = Raise (AttributeError "replace"))
  /\ (time_is_string payload = true ->
      forall e, fromisoformat (time_argument payload) = Raise e ->
        from_dict fromisoformat payload = Raise e)
  /\ (ej_time payload = None ->
      time_is_string payload = true
      /\ time_argument payload = ""
      /\ forall e, fromisoformat "" = Raise e ->
           from_dict fromisoformat payload = Raise e)
  /\ (time_is_string payload = true ->
      forall t, fromisoformat (time_argument payload) = Ok t ->
        from_dict fromisoformat payload
        = Ok {| type := default "" (ej_type payload);
                subject := default "" (ej_subject payload);
                time := t;
                data := default [] (ej_data payload);
                event_id := ej_id payload;
                source := ej_source payload;
                specversion := default "1.0" (ej_specversion payload) |})
  /\ (is_ok (from_dict fromisoformat payload) = true
      <-> time_is_string payload = true
          /\ is_ok (fromisoformat (time_argument payload)) = true).
Proof.
  unfold from_dict, time_is_string, time_argument.
  split; [| split; [| split; [| split]]].
  - destruct (time_value payload); intros H; try discriminate H; reflexivity.
  - destruct (time_value payload); intros H; try discriminate H.
    intros e ->. reflexivity.
  - intros Hmissing. unfold time_value. rewrite Hmissing. simpl.
    split; [reflexivity |]. split; [reflexivity |].
    intros e ->. reflexivity.
  - destruct (time_value payload); intros H; try discriminate H.
    intros t ->. reflexivity.
  - destruct (time_value payload) as [| b | z | s | l | d]; simpl;
      try (split; [discriminate | intros [H _]; discriminate H]).
    destruct (fromisoformat (replace_Z s)); simpl.
    + split; [auto | reflexivity].
    + split; [discriminate | intros [_ H]; discriminate H].
Qed.

Lemma from_dict_fails_only_on_time_witness :
  from_dict iso_seconds
    {| ej_id := None; ej_type := Some "PASS_UPDATED";
       ej_subject := Some "pass/abc"; ej_time := None;
       ej_data := None; ej_source := None; ej_specversion := None |}
  = Raise (ValueError "Invalid isoformat string: ''")
  /\ from_dict iso_seconds
       {| ej_id := None; ej_type := Some "PASS_UPDATED";
          ej_subject := Some "pass/abc"; ej_time := Some PNone;
          ej_data := None; ej_source := None; ej_specversion := None |}
     = Raise (AttributeError "replace")
  /\ is_ok (from_dict iso_seconds scenario_payload) = true.
Proof.
  split; [| split].
  - destruct (from_dict_fails_only_on_time iso_seconds
                {| ej_id := None; ej_type := Some "PASS_UPDATED";
                   ej_subject := Some "pass/abc"; ej_time := None;
                   ej_data := None; ej_source := None; ej_specversion := None |})
      as (_ & _ & Hmissing & _).
    destruct (Hmissing eq_refl) as (_ & _ & Hraise).
    apply Hraise. reflexivity.
  - destruct (from_dict_fails_only_on_time iso_seconds
                {| ej_id := None; ej_type := Some "PASS_UPDATED";
                   ej_subject := Some "pass/abc"; ej_time := Some PNone;
                   ej_data := None; ej_source := None; ej_specversion := None |})
      as (Hother & _).
    apply Hother. reflexivity.
  - destruct (from_dict_fails_only_on_time iso_seconds scenario_payload)
      as (_ & _ & _ & Hparsed & _).
    rewrite (Hparsed eq_refl scenario_time eq_refl). reflexivity.
Defined.

Lemma is_substring_append_r (needle before rest : string) :
  is_substring needle rest = true ->
  is_substring needle (before +:+ rest) = true.
Proof.
  intros H. induction before as [| c before IH]; simpl; [exact H |].
  rewrite IH. apply orb_true_r.
Qed.

(** C9. A [PASS_UPDATED] event whose data holds the status [COMPLETED] and a
    [userId] is interpreted as the text that names the subject and the
    user and whose action is to mark the badge ACTIVE and to send the user a
    confirmation.  An event whose type is none of the four keys of the
    table gets the generic text naming its type and subject. *)
Theorem interpret_completed_and_fallback (e : CloudEvent) :
  (type e = "PASS_UPDATED" ->
   dict_lookup "status" (data e) = Some (PStr "COMPLETED") ->
   forall u, dict_lookup "userId" (data e) = Some u ->
     interpret e
     = "Pass " +:+ subject e +:+ " provisioning COMPLETED successfully." +:+ nl +:+
       "User " +:+ py_str u +:+ " now has an active credential." +:+ nl +:+
       completed_action
     /\ is_substring "mark user's badge as ACTIVE" (interpret e) = true
     /\ is_substring "Send confirmation notification to user" (interpret e) = true)
  /\ (type e <> "PASS_UPDATED" -> type e <> "PASS_CREATED" ->
      type e <> "USER_CREATED" -> type e <> "USER_DELETED" ->
      interpret e = "Event " +:+ type e +:+ " received for " +:+ subject e).
Proof.
  split.
  - intros Htype Hstatus u Huser.
    assert (Heq : interpret e
                  = "Pass " +:+ subject e +:+ " provisioning COMPLETED successfully."
                    +:+ nl +:+ "User " +:+ py_str u
                    +:+ " now has an active credential." +:+ nl +:+ completed_action).
    { unfold interpret. rewrite Htype.
      change (dict_get "PASS_UPDATED" _interpret_generic interpretations)
        with _interpret_pass_updated.
      unfold _interpret_pass_updated, dict_get. rewrite Hstatus, Huser. reflexivity. }
    rewrite Heq. split; [reflexivity |].
    split; do 8 apply is_substring_append_r; reflexivity.
  - intros H1 H2 H3 H4. unfold interpret, dict_get, interpretations. simpl.
    apply String.eqb_neq in H1, H2, H3, H4.
    rewrite H1, H2, H3, H4. reflexivity.
Qed.

Lemma interpret_completed_and_fallback_witness :
  interpret {| type := "PASS_UPDATED"; subject := "pass/abc"; time := scenario_time;
               data := [("status", PStr "COMPLETED"); ("userId", PStr "u1")];
               event_id := None; source := None; specversion := "1.0" |}
  = "Pass pass/abc provisioning COMPLETED successfully." +:+ nl +:+
    "User u1 now has an active credential." +:+ nl +:+ completed_action.
Proof.
  destruct (interpret_completed_and_fallback
              {| type := "PASS_UPDATED"; subject := "pass/abc"; time := scenario_time;
                 data := [("status", PStr "COMPLETED"); ("userId", PStr "u1")];
                 event_id := None; source := None; specversion := "1.0" |})
    as [Hcompleted _].
  destruct (Hcompleted eq_refl eq_refl (PStr "u1") eq_refl) as [Htext _].
  exact Htext.
Defined.

(** ** Concurrent callers *)

(** A caller that runs alone does what [get_token] does. *)
Lemma thread_alone_is_get_token (r : reply TokenJson) (st : State) :
  run [(0%nat, r); (0%nat, r)] (callers 1 st)
  = {| shared := snd (get_token (authenticate r) st);
       threads := [Finished (fst (get_token (authenticate r) st))] |}.
Proof.
  unfold run, callers, step. simpl. unfold begin_get_token.
  destruct (needs_refresh (_token (auth st)) (clock st)) eqn:Hcheck.
  - rewrite (get_token_refresh (authenticate r) st Hcheck). simpl.
    unfold finish_get_token.
    replace ((authenticate r ;;; current_access_token) st)
      with (((match r with
              | Refused e => raise e
              | Answered resp => receive_token resp
              end) ;;; current_access_token) (logged st)).
    + unfold logged.
      destruct (((match r with
                  | Refused e => raise e
                  | Answered resp => receive_token resp
                  end) ;;; current_access_token) _) as [res st'].
      reflexivity.
    + unfold bind at 1 2. unfold authenticate, requests_send, log_request, modify,
        gets, bind. destruct r as [e | resp]; reflexivity.
  - destruct (get_token_cached (authenticate r) st Hcheck) as (tok & Htok & Hget).
    rewrite Hget. unfold current_access_token, bind, gets, ret. simpl.
    rewrite Htok. reflexivity.
Qed.

Lemma in_flight_all_waiting (n : nat) (st : State) :
  in_flight {| shared := st; threads := replicate n Waiting |} = n.
Proof.
  unfold in_flight. simpl. induction n as [| n IH]; simpl; [reflexivity |].
  rewrite IH. reflexivity.
Qed.

(** Every caller that takes its first step while the cache needs a refresh
    sends a request of its own. *)
Lemma first_steps_all_send (r : reply TokenJson) (m k : nat) (st : State) :
  needs_refresh (_token (auth st)) (clock st) = true ->
  run (map (fun i => (i, r)) (seq k m))
      {| shared := st; threads := replicate k Waiting ++ replicate m Ready |}
  = {| shared := {| auth := auth st; clock := clock st;
                    sent := sent st ++ repeat (token_request (auth st)) m |};
       threads := replicate (k + m) Waiting |}.
Proof.
  revert k st. induction m as [| m IH]; intros k st Hstale.
  - simpl. rewrite !app_nil_r, Nat.add_0_r. destruct st; reflexivity.
  - simpl. unfold step at 1. simpl.
    rewrite lookup_app_r by (rewrite length_replicate; lia).
    rewrite length_replicate, Nat.sub_diag. simpl.
    unfold begin_get_token. rewrite Hstale. simpl.
    replace (<[k:=Waiting]> (replicate k Waiting ++ Ready :: replicate m Ready)%list)
      with (replicate (S k) Waiting ++ replicate m Ready)%list.
    + rewrite IH by exact Hstale. simpl.
      replace (k + S m)%nat with (S (k + m)) by lia.
      rewrite <- app_assoc. reflexivity.
    + rewrite insert_app_r_alt by (rewrite length_replicate; lia).
      rewrite length_replicate, Nat.sub_diag.
      change (<[0%nat:=Waiting]> (Ready :: replicate m Ready))
        with ([Waiting] ++ replicate m Ready)%list.
      rewrite replicate_S_end, <- app_assoc. reflexivity.
Qed.

(** C8, as stated, fails: nothing keeps a second caller from sending while
    the first one waits.  Two callers that find no token both send a token
    request, two exchanges are in flight together, and each caller returns
    the token of its own exchange. *)
Lemma two_callers_two_exchanges :
  ~ (forall (n : nat) (st : State) (schedule : list (nat * reply TokenJson)),
       (in_flight (run schedule (callers n st)) <= 1)%nat)
  /\ in_flight (run [(0%nat, grant "a" 3600); (1%nat, grant "b" 3600)]
                  (callers 2 (sample_state None 1000))) = 2%nat
  /\ threads (run [(0%nat, grant "a" 3600); (1%nat, grant "b" 3600);
                   (0%nat, grant "a" 3600); (1%nat, grant "b" 3600)]
                (callers 2 (sample_state None 1000)))
     = [Finished (Ok (PStr "a")); Finished (Ok (PStr "b"))]
  /\ sent (shared (run [(0%nat, grant "a" 3600); (1%nat, grant "b" 3600);
                        (0%nat, grant "a" 3600); (1%nat, grant "b" 3600)]
                     (callers 2 (sample_state None 1000))))
     = [token_request (sample_auth None); token_request (sample_auth None)].
Proof.
  split; [| repeat split; reflexivity].
  intros H.
  specialize (H 2%nat (sample_state None 1000)
                [(0%nat, grant "a" 3600); (1%nat, grant "b" 3600)]).
  vm_compute in H. lia.
Qed.

(** C8, amended.  [get_token()] holds no lock and does not share an
    exchange.  A call that finds the cache in need of a refresh sends one
    token request of its own; so when [n] callers all make the check before
    any answer has arrived, [n] requests go out and [n] exchanges are in
    flight together.  A caller that runs alone, from its check to its
    return, does what the sequential [get_token()] does. *)
Theorem get_token_has_no_single_flight (n : nat) (r : reply TokenJson) (st : State) :
  needs_refresh (_token (auth st)) (clock st) = true ->
  in_flight (run (map (fun i => (i, r)) (seq 0 n)) (callers n st)) = n
  /\ sent (shared (run (map (fun i => (i, r)) (seq 0 n)) (callers n st)))
     = (sent st ++ repeat (token_request (auth st)) n)%list
  /\ sent (snd (get_token (authenticate r) st))
     = (sent st ++ [token_request (auth st)])%list
  /\ run [(0%nat, r); (0%nat, r)] (callers 1 st)
     = {| shared := snd (get_token (authenticate r) st);
          threads := [Finished (fst (get_token (authenticate r) st))] |}.
Proof.
  intros Hstale.
  pose proof (first_steps_all_send r n 0 st Hstale) as Hrun.
  change (({| shared := st; threads := replicate 0 Waiting ++ replicate n Ready |}))
    with (callers n st) in Hrun.
  rewrite Hrun. simpl.
  split; [apply in_flight_all_waiting |].
  split; [reflexivity |].
  split; [apply get_token_refresh_sends_once; exact Hstale
         | apply thread_alone_is_get_token].
Qed.

Lemma get_token_has_no_single_flight_witness :
  in_flight (run (map (fun i => (i, grant "a" 3600)) (seq 0 3))
               (callers 3 (sample_state None 1000))) = 3%nat.
Proof.
  destruct (get_token_has_no_single_flight 3 (grant "a" 3600)
              (sample_state None 1000)) as [Hflight _]; [reflexivity |].
  exact Hflight.
Defined.

(** * Further properties of the code *)

(** ** The token cache over time *)

(** X1. Expiry is monotone: a token that [is_expired] reports expired stays
    expired at every later time and under every larger buffer. *)
Theorem is_expired_monotone (t : TokenResponse) (b b' : Z) (now now' : Q) :
  (now <= now')%Q -> b <= b' ->
  is_expired t b now = true -> is_expired t b' now' = true.
Proof.
  intros Hnow Hb. unfold is_expired.
  destruct (Qeq_bool (obtained_at t) 0); [reflexivity |].
  cbv zeta. rewrite !Qle_bool_iff. intros H.
  assert (Hz : (inject_Z (expires_in t - b') <= inject_Z (expires_in t - b))%Q)
    by (rewrite <- Zle_Qle; lia).
  assert (Hr : (float_sub now (obtained_at t) <= float_sub now' (obtained_at t))%Q)
    by (apply round53_le; lra).
  lra.
Qed.

Lemma is_expired_monotone_witness :
  is_expired hour_token 120 5000 = true.
Proof.
  apply (is_expired_monotone hour_token 60 120 4550 5000).
  - unfold Qle; simpl; lia.
  - lia.
  - reflexivity.
Defined.

(** X2. A token whose [obtained_at] is 0, the default of the dataclass, is
    expired at every time and under every buffer, whatever its
    [expires_in]; with such a token in the cache [get_token()] always runs
    [authenticate()]. *)
Theorem token_without_timestamp_always_expired (t : TokenResponse) :
  (obtained_at t == 0)%Q ->
  (forall b now, is_expired t b now = true)
  /\ (forall (m : M TokenResponse) (st : State),
        _token (auth st) = Some t ->
        get_token m st = (m ;;; current_access_token) st).
Proof.
  intros Hzero.
  assert (Hexp : forall b now, is_expired t b now = true).
  { intros b now. unfold is_expired.
    apply Qeq_bool_iff in Hzero. rewrite Hzero. reflexivity. }
  split; [exact Hexp |].
  intros m st Htok. apply get_token_refresh. rewrite Htok. apply Hexp.
Qed.

Lemma token_without_timestamp_always_expired_witness :
  is_expired {| access_token := "t"; token_type := "Bearer"; expires_in := 3600;
                id_token := None; obtained_at := 0 |} 60 1 = true.
Proof.
  destruct (token_without_timestamp_always_expired
              {| access_token := "t"; token_type := "Bearer"; expires_in := 3600;
                 id_token := None; obtained_at := 0 |}) as [Hexp _].
  - reflexivity.
  - apply Hexp.
Defined.

(** X3. An answer with a success status that cannot be used is an error: a
    body that is not JSON raises [JSONDecodeError] and a JSON object without
    [access_token] raises [KeyError]; both leave the cache alone.  An
    answer that has [access_token] is accepted whatever else is missing:
    [token_type] defaults to [Bearer] and [expires_in] to 3600, and the
    token is put in place.  The access token is not checked before that:
    when it is a string or a list the token is returned; when it is
    [null], a boolean, a number or an object, the report of success raises
    after the token has replaced the cached one, and what it raises for
    [null], a boolean or a number is [TypeError]. *)
Theorem authenticate_malformed_answer (resp : response TokenJson) (st : State) :
  error_status (status_code resp) = false ->
  (json resp = None ->
   authenticate (Answered resp) st = (Raise JSONDecodeError, logged st))
  /\ (forall data, json resp = Some data -> j_access_token data = None ->
        authenticate (Answered resp) st
        = (Raise (KeyError "access_token"), logged st))
  /\ (forall data access, json resp = Some data ->
        j_access_token data = Some access ->
        exists tok,
          snd (authenticate (Answered resp) st) = installed tok st
          /\ access_token tok = access
          /\ obtained_at tok = clock st
          /\ (j_token_type data = None -> token_type tok = "Bearer")
          /\ (j_expires_in data = None -> expires_in tok = 3600)
          /\ (sliceable access = true ->
              fst (authenticate (Answered resp) st) = Ok tok)
          /\ (sliceable access = false ->
              is_ok (fst (authenticate (Answered resp) st)) = false
              /\ ((forall d, access <> PDict d) ->
                  exists msg,
                    fst (authenticate (Answered resp) st) = Raise (TypeError msg))))
  /\ (forall data, json resp = Some data ->
        j_access_token data = Some PNone ->
        fst (authenticate (Answered resp) st)
        = Raise (TypeError "'NoneType' object is not subscriptable")
        /\ exists tok, _token (auth (snd (authenticate (Answered resp) st))) = Some tok
                       /\ access_token tok = PNone).
Proof.
  intros Hstatus.
  split; [intros Hjson; apply authenticate_undecodable; assumption |].
  split; [intros data Hjson Haccess;
          apply (authenticate_missing_key resp data); assumption |].
  split.
  - intros data access Hjson Haccess.
    exists (token_of data access (clock st)).
    assert (Hdefaults :
              access_token (token_of data access (clock st)) = access
              /\ obtained_at (token_of data access (clock st)) = clock st
              /\ (j_token_type data = None ->
                  token_type (token_of data access (clock st)) = "Bearer")
              /\ (j_expires_in data = None ->
                  expires_in (token_of data access (clock st)) = 3600)).
    { split; [reflexivity |]. split; [reflexivity |].
      split; intros H; simpl; rewrite H; reflexivity. }
    destruct Hdefaults as (H1 & H2 & H3 & H4).
    destruct (sliceable access) eqn:Hsl.
    + rewrite (authenticate_success resp data access st Hstatus Hjson Haccess Hsl).
      repeat (split; [assumption || reflexivity |]). discriminate.
    + destruct (authenticate_unsliceable resp data access st Hstatus Hjson Haccess Hsl)
        as [msg Hm].
      rewrite Hm.
      split; [reflexivity |].
      split; [assumption |]. split; [assumption |]. split; [assumption |].
      split; [assumption |]. split; [discriminate |].
      intros _. split; [reflexivity |]. intros _. exists msg. reflexivity.
  - intros data Hjson Haccess. unfold error_status in Hstatus.
    run_monad. rewrite Hstatus, Hjson. simpl. rewrite Haccess. simpl.
    split; [reflexivity |]. eexists. split; reflexivity.
Qed.

Lemma authenticate_malformed_answer_witness :
  authenticate (Answered {| status_code := 200; text := "<html>"; json := None |})
    (sample_state (Some hour_token) 2000)
  = (Raise JSONDecodeError, logged (sample_state (Some hour_token) 2000))
  /\ fst (authenticate (null_grant 3600) (sample_state (Some hour_token) 2000))
     = Raise (TypeError "'NoneType' object is not subscriptable")
  /\ exists tok,
       _token (auth (snd (authenticate (null_grant 3600)
                            (sample_state (Some hour_token) 2000)))) = Some tok
       /\ access_token tok = PNone.
Proof.
  split.
  - destruct (authenticate_malformed_answer
                {| status_code := 200; text := "<html>"; json := None |}
                (sample_state (Some hour_token) 2000)) as [Hjson _].
    + reflexivity.
    + apply Hjson. reflexivity.
  - destruct (authenticate_malformed_answer
                {| status_code := 200; text := "";
                   json := Some {| j_access_token := Some PNone;
                                   j_token_type := Some "Bearer";
                                   j_expires_in := Some 3600;
                                   j_id_token := None |} |}
                (sample_state (Some hour_token) 2000)) as (_ & _ & _ & Hnull).
    + reflexivity.
    + apply (Hnull _ eq_refl eq_refl).
Defined.

(** X4. After a successful [authenticate()], a [get_token()] call made when
    the clock has advanced by [d] returns the new access token without
    sending anything as long as the elapsed time it computes is less than
    [expires_in - 60], and runs [authenticate()] again once that time has
    reached [expires_in - 60].  A token granted for 60 seconds or less is
    therefore never reused. *)
Theorem fresh_token_reused_until_buffer (r : reply TokenJson) (m : M TokenResponse)
    (st st1 : State) (tok : TokenResponse) (d : Q) :
  authenticate r st = (Ok tok, st1) ->
  ~ (clock st == 0)%Q ->
  ((float_sub (clock st + d) (clock st) < inject_Z (expires_in tok) - 60)%Q ->
   get_token m (snd (time_sleep d st1))
   = (Ok (access_token tok), snd (time_sleep d st1)))
  /\ ((inject_Z (expires_in tok) - 60 <= float_sub (clock st + d) (clock st))%Q ->
      get_token m (snd (time_sleep d st1))
      = (m ;;; current_access_token) (snd (time_sleep d st1)))
  /\ (expires_in tok <= 60 -> (0 <= d)%Q ->
      get_token m (snd (time_sleep d st1))
      = (m ;;; current_access_token) (snd (time_sleep d st1))).
Proof.
  intros Hauth Hne.
  destruct (authenticate_ok_installs r st st1 tok Hauth) as (Htok & Hat & Hclock).
  assert (Hne' : ~ (obtained_at tok == 0)%Q) by (rewrite Hat; exact Hne).
  assert (Hbuf : (inject_Z (expires_in tok - 60) == inject_Z (expires_in tok) - 60)%Q).
  { unfold Z.sub. rewrite inject_Z_plus.
    change (inject_Z (- (60))) with (- (60))%Q. lra. }
  assert (Hlate : (inject_Z (expires_in tok) - 60
                   <= float_sub (clock st + d) (clock st))%Q ->
                  get_token m (snd (time_sleep d st1))
                  = (m ;;; current_access_token) (snd (time_sleep d st1))).
  { intros Hd. apply get_token_refresh. simpl. rewrite Htok. simpl.
    apply is_expired_past_buffer. rewrite Hat, Hclock, Hbuf. exact Hd. }
  split; [| split; [exact Hlate |]].
  - intros Hd.
    destruct (get_token_cached m (snd (time_sleep d st1))) as (tok' & Htok' & Hget).
    + simpl. rewrite Htok. simpl.
      apply (is_expired_false_iff tok 60 _ Hne'). rewrite Hat, Hclock, Hbuf. exact Hd.
    + simpl in Htok'. rewrite Htok in Htok'. injection Htok' as <-. exact Hget.
  - intros Hshort Hd. apply Hlate.
    assert ((inject_Z (expires_in tok) <= inject_Z 60)%Q) by (rewrite <- Zle_Qle; lia).
    change (inject_Z 60) with 60%Q in H.
    assert (0 <= float_sub (clock st + d) (clock st))%Q.
    { apply float_sub_ge; [reflexivity | lra]. }
    lra.
Qed.

Lemma fresh_token_reused_until_buffer_witness :
  get_token (authenticate (Refused Timeout))
    (snd (time_sleep 3539 (snd (authenticate (grant "second" 3600)
                                  (sample_state None 1000)))))
  = (Ok (PStr "second"),
     snd (time_sleep 3539 (snd (authenticate (grant "second" 3600)
                                  (sample_state None 1000))))).
Proof.
  destruct (fresh_token_reused_until_buffer (grant "second" 3600)
              (authenticate (Refused Timeout)) (sample_state None 1000) _ _ 3539
              eq_refl) as [Hreuse _].
  - unfold Qeq; simpl; lia.
  - apply Hreuse. unfold Qlt. vm_compute. reflexivity.
Defined.

(** X5. [MockOrigoAuth.authenticate] always succeeds, sends nothing, takes
    half a second and replaces the cached token by a one hour token
    obtained at the end of the wait.  With it, [get_token()] never raises
    and never sends a request.  The token it puts in place passes the
    expiry check exactly while the elapsed time the check computes is
    below 3540 seconds, which is so for at least 3539 seconds. *)
Theorem mock_authenticate_always_succeeds (st : State) :
  mock_authenticate st
  = (Ok (mock_token (clock st + (1 # 2))),
     {| auth := with_token (auth st) (Some (mock_token (clock st + (1 # 2))));
        clock := (clock st + (1 # 2))%Q; sent := sent st |})
  /\ is_ok (fst (get_token mock_authenticate st)) = true
  /\ sent (snd (get_token mock_authenticate st)) = sent st
  /\ (forall now : Q,
        ~ (clock st + (1 # 2) == 0)%Q ->
        (is_expired (mock_token (clock st + (1 # 2))) 60 now = false
         <-> (float_sub now (clock st + (1 # 2)) < 3540)%Q)
        /\ ((now - (clock st + (1 # 2)) <= 3539)%Q ->
            is_expired (mock_token (clock st + (1 # 2))) 60 now = false)).
Proof.
  split; [reflexivity |].
  assert (Hvalid : forall now : Q,
            ~ (clock st + (1 # 2) == 0)%Q ->
            (is_expired (mock_token (clock st + (1 # 2))) 60 now = false
             <-> (float_sub now (clock st + (1 # 2)) < 3540)%Q)
            /\ ((now - (clock st + (1 # 2)) <= 3539)%Q ->
                is_expired (mock_token (clock st + (1 # 2))) 60 now = false)).
  { intros now Hne.
    pose proof (is_expired_false_iff (mock_token (clock st + (1 # 2))) 60 now Hne)
      as Hiff.
    simpl in Hiff. change (inject_Z (3600 - 60)) with 3540%Q in Hiff.
    split; [exact Hiff |].
    intros Hd. apply Hiff.
    assert (float_sub now (clock st + (1 # 2)) <= 3539)%Q.
    { apply float_sub_le; [| exact Hd]. unfold Qeq. vm_compute. reflexivity. }
    lra. }
  destruct (needs_refresh (_token (auth st)) (clock st)) eqn:Hcheck.
  - rewrite (get_token_refresh mock_authenticate st Hcheck).
    repeat split; try reflexivity; apply Hvalid; assumption.
  - destruct (get_token_cached mock_authenticate st Hcheck) as (tok & _ & Hget).
    rewrite Hget. repeat split; try reflexivity; apply Hvalid; assumption.
Qed.

Lemma mock_authenticate_always_succeeds_witness :
  is_expired (mock_token (1000 + (1 # 2))) 60 (1000 + (1 # 2) + 3539) = false.
Proof.
  destruct (mock_authenticate_always_succeeds (sample_state None 1000))
    as (_ & _ & _ & Hvalid).
  destruct (Hvalid (1000 + (1 # 2) + 3539)%Q) as [_ Hexact].
  - unfold Qeq; simpl; lia.
  - apply Hexact. unfold Qle; simpl; lia.
Defined.

(** ** The headers and the networked methods *)

Lemma authenticate_sent (r : reply TokenJson) (st st1 : State) (res : result TokenResponse) :
  authenticate r st = (res, st1) ->
  sent st1 = (sent st ++ [token_request (auth st)])%list.
Proof.
  intros H. pose proof (authenticate_sends_once r st) as [Hsent _].
  rewrite H in Hsent. exact Hsent.
Qed.

(** When [authenticate] raises, the state differs by the logged request
    only, unless the answer carried an access token that cannot be sliced:
    then the token built from it is in place. *)
Lemma authenticate_raise_state (r : reply TokenJson) (st st1 : State) (e : exn) :
  authenticate r st = (Raise e, st1) ->
  st1 = logged st
  \/ exists tok, sliceable (access_token tok) = false /\ st1 = installed tok st.
Proof.
  intros H.
  destruct (authenticate_cases r st)
    as [[e0 He] | (resp & data & access & _ & _ & _ & _ & Hst & Hok & _)].
  - rewrite He in H. injection H as _ <-. left. reflexivity.
  - rewrite H in Hst, Hok. simpl in Hst, Hok. right.
    exists (token_of data access (clock st)). split; [| exact Hst].
    simpl. destruct (sliceable access); [| reflexivity].
    specialize (Hok eq_refl). discriminate Hok.
Qed.

Lemma get_headers_follows_get_token (m : M TokenResponse) (a v : string) (st : State) :
  get_headers m a v st
  = match get_token m st with
    | (Ok s, st') => (Ok (bearer_headers s a v), st')
    | (Raise e, st') => (Raise e, st')
    end.
Proof. unfold get_headers, bind. destruct (get_token m st) as [[s | e] st']; reflexivity. Qed.

Lemma get_token_after_refresh (r : reply TokenJson) (st : State) :
  needs_refresh (_token (auth st)) (clock st) = true ->
  get_token (authenticate r) st
  = match authenticate r st with
    | (Ok tok, st') => (Ok (access_token tok), st')
    | (Raise e, st') => (Raise e, st')
    end.
Proof.
  intros Hstale. rewrite (get_token_refresh _ st Hstale). unfold bind at 1.
  destruct (authenticate r st) as [[tok | e] st'] eqn:Hauth; [| reflexivity].
  destruct (authenticate_ok_installs r st st' tok Hauth) as (Htok & _).
  cbv [current_access_token bind gets ret raise]. rewrite Htok. reflexivity.
Qed.

(** X6. The [Authorization] header of [get_headers] always carries the token
    that is current after the refresh check: the cached token when it is
    still valid (nothing is sent), the token just granted when a refresh was
    needed.  When [authenticate] raises, [get_headers] raises the same
    exception and builds no headers; the token request is the only request
    sent, and the cache is as it was unless the answer carried an access
    token that cannot be sliced. *)
Theorem get_headers_carries_current_token (r : reply TokenJson) (a v : string) (st : State) :
  (needs_refresh (_token (auth st)) (clock st) = false ->
   exists tok, _token (auth st) = Some tok
     /\ get_headers (authenticate r) a v st
        = (Ok (bearer_headers (access_token tok) a v), st))
  /\ (needs_refresh (_token (auth st)) (clock st) = true ->
      (forall tok st1, authenticate r st = (Ok tok, st1) ->
         get_headers (authenticate r) a v st
         = (Ok (bearer_headers (access_token tok) a v), st1)
         /\ _token (auth st1) = Some tok)
      /\ (forall e st1, authenticate r st = (Raise e, st1) ->
            get_headers (authenticate r) a v st = (Raise e, st1)
            /\ sent st1 = (sent st ++ [token_request (auth st)])%list
            /\ (st1 = logged st
                \/ exists tok, sliceable (access_token tok) = false
                               /\ st1 = installed tok st))).
Proof.
  split.
  - intros Hfresh. destruct (get_headers_cached (authenticate r) a v st Hfresh)
      as (tok & Htok & Hheaders).
    exists tok. split; [exact Htok | exact Hheaders].
  - intros Hstale. split.
    + intros tok st1 Hauth. rewrite get_headers_follows_get_token.
      rewrite (get_token_after_refresh r st Hstale), Hauth.
      split; [reflexivity | apply (authenticate_ok_installs r st st1 tok Hauth)].
    + intros e st1 Hauth. rewrite get_headers_follows_get_token.
      rewrite (get_token_after_refresh r st Hstale), Hauth.
      split; [reflexivity |].
      split; [apply (authenticate_sent r st st1 _ Hauth)
             | apply (authenticate_raise_state r st st1 e Hauth)].
Qed.

Lemma get_headers_carries_current_token_witness :
  get_headers (authenticate (grant "second" 3600)) default_app_id default_app_version
    (sample_state (Some hour_token) 4550)
  = (Ok (bearer_headers (PStr "second") default_app_id default_app_version),
     snd (authenticate (grant "second" 3600) (sample_state (Some hour_token) 4550))).
Proof.
  destruct (get_headers_carries_current_token (grant "second" 3600)
              default_app_id default_app_version
              (sample_state (Some hour_token) 4550)) as [_ Hstale].
  destruct (Hstale eq_refl) as [Hok _].
  destruct (Hok _ _ eq_refl) as [Hheaders _]. exact Hheaders.
Defined.

Ltac after_headers H :=
  unfold bind at 1; rewrite H;
  cbv [bind requests_send log_request modify raise_for_status response_json
       lift ret raise answer_result error_status after_request].

Ltac by_answer r :=
  let e := fresh "e" in
  let resp := fresh "resp" in
  destruct r as [e | resp]; [reflexivity |];
  destruct ((400 <=? status_code resp) && (status_code resp <? 600)); [reflexivity |];
  destruct (json resp); reflexivity.

(** X7. No networked method sends its request without a token: when the
    refresh that [get_headers] needs raises, each method raises the same
    exception, in the state [authenticate] left, and the token request is
    the only request sent; the cache is as it was unless the answer carried
    an access token that cannot be sliced. *)
Theorem no_request_without_token (r_auth : reply TokenJson) (base : string)
    (st st1 : State) (e : exn) :
  needs_refresh (_token (auth st)) (clock st) = true ->
  authenticate r_auth st = (Raise e, st1) ->
  sent st1 = (sent st ++ [token_request (auth st)])%list
  /\ (st1 = logged st
      \/ exists tok, sliceable (access_token tok) = false /\ st1 = installed tok st)
  /\ (forall r uid template,
        create_pass (authenticate r_auth) base r uid template st = (Raise e, st1))
  /\ (forall r pid, get_pass (authenticate r_auth) base r pid st = (Raise e, st1))
  /\ (forall r pid,
        get_issuance_token (authenticate r_auth) base r pid st = (Raise e, st1))
  /\ (forall r pid, suspend_pass (authenticate r_auth) base r pid st = (Raise e, st1))
  /\ (forall r pid, resume_pass (authenticate r_auth) base r pid st = (Raise e, st1))
  /\ (forall r pid, delete_pass (authenticate r_auth) base r pid st = (Raise e, st1))
  /\ (forall r reg,
        register_callback (authenticate r_auth) base r reg st = (Raise e, st1))
  /\ (forall r, list_callbacks (authenticate r_auth) base r st = (Raise e, st1))
  /\ (forall r cid,
        delete_callback (authenticate r_auth) base r cid st = (Raise e, st1)).
Proof.
  intros Hstale Hauth.
  assert (Hraise : get_headers (authenticate r_auth) default_app_id
                     default_app_version st = (Raise e, st1)).
  { rewrite get_headers_follows_get_token.
    rewrite (get_token_after_refresh r_auth st Hstale), Hauth. reflexivity. }
  split; [apply (authenticate_sent r_auth st st1 _ Hauth) |].
  split; [apply (authenticate_raise_state r_auth st st1 e Hauth) |].
  repeat split; intros;
    unfold create_pass, get_pass, get_issuance_token, suspend_pass, resume_pass,
      delete_pass, register_callback, list_callbacks, delete_callback;
    cbv zeta; unfold bind at 1; rewrite Hraise; reflexivity.
Qed.

Lemma no_request_without_token_witness :
  suspend_pass (authenticate (Refused Timeout)) mock_api_base
    (ok_answer {| pj_id := Some "p"; pj_userId := None; pj_passTemplateId := None;
                  pj_status := Some "SUSPENDED"; pj_platform := None;
                  pj_credentials := None |})
    "p" (sample_state None 1000)
  = (Raise Timeout, logged (sample_state None 1000)).
Proof.
  destruct (no_request_without_token (Refused Timeout) mock_api_base
              (sample_state None 1000) _ Timeout eq_refl eq_refl)
    as (_ & _ & _ & _ & _ & Hsuspend & _).
  apply Hsuspend.
Defined.

(** X8. The networked [suspend_pass] and [resume_pass] send one PATCH to the
    url of the pass, asking for SUSPENDED and ACTIVE respectively, and
    return the pass the answer describes.  They do not check that the
    answer reports the status they asked for: an answer without a status
    gives back a PENDING pass. *)
Theorem suspend_resume_return_the_answer (m : M TokenResponse) (base pid : string)
    (r : reply PassJson) (st st1 : State) (headers : list (string * string)) :
  get_headers m default_app_id default_app_version st = (Ok headers, st1) ->
  suspend_pass m base r pid st
  = (answer_result Pass_from_api_response r,
     after_request (patch_request base pid "SUSPENDED" headers) st1)
  /\ resume_pass m base r pid st
     = (answer_result Pass_from_api_response r,
        after_request (patch_request base pid "ACTIVE" headers) st1)
  /\ (forall data, r = ok_answer data -> pj_status data = None ->
        exists p, fst (suspend_pass m base r pid st) = Ok p /\ status p = PENDING).
Proof.
  intros Hheaders.
  assert (Hs : suspend_pass m base r pid st
               = (answer_result Pass_from_api_response r,
                  after_request (patch_request base pid "SUSPENDED" headers) st1)).
  { unfold suspend_pass. cbv zeta. after_headers Hheaders. by_answer r. }
  split; [exact Hs |]. split.
  - unfold resume_pass. cbv zeta. after_headers Hheaders. by_answer r.
  - intros data -> Hnone. rewrite Hs. simpl.
    unfold Pass_from_api_response. rewrite Hnone. simpl. eexists. split; reflexivity.
Qed.

Lemma suspend_resume_return_the_answer_witness :
  exists p,
    fst (suspend_pass mock_authenticate mock_api_base
           (ok_answer {| pj_id := Some "p"; pj_userId := None; pj_passTemplateId := None;
                         pj_status := None; pj_platform := None;
                         pj_credentials := None |})
           "p" (sample_state (Some hour_token) 2000)) = Ok p
    /\ status p = PENDING.
Proof.
  destruct (suspend_resume_return_the_answer mock_authenticate mock_api_base "p"
              (ok_answer {| pj_id := Some "p"; pj_userId := None;
                            pj_passTemplateId := None; pj_status := None;
                            pj_platform := None; pj_credentials := None |})
              (sample_state (Some hour_token) 2000) _ _ eq_refl)
    as (_ & _ & Hpending).
  apply (Hpending _ eq_refl eq_refl).
Defined.

(** X9. The networked [create_pass] posts the user id and the template id
    and returns the pass the answer describes; [get_pass] returns the pass
    the answer describes.  What is returned comes from the answer alone: when
    the answer names no user, the pass [create_pass] returns has the empty
    user id, whatever user id was sent. *)
Theorem create_pass_returns_the_answer (m : M TokenResponse)
    (base uid template pid : string) (r : reply PassJson) (st st1 : State)
    (headers : list (string * string)) :
  get_headers m default_app_id default_app_version st = (Ok headers, st1) ->
  create_pass m base r uid template st
  = (answer_result Pass_from_api_response r,
     after_request (create_request base uid template headers) st1)
  /\ get_pass m base r pid st
     = (answer_result Pass_from_api_response r,
        after_request {| rq_verb := GET;
                         rq_url := pass_endpoint base +:+ "/" +:+ pid;
                         rq_body := NoBody; rq_headers := headers |} st1)
  /\ (forall data, r = ok_answer data ->
        pj_userId data = None -> pj_status data = None ->
        exists p, fst (create_pass m base r uid template st) = Ok p
                  /\ user_id p = "" /\ status p = PENDING).
Proof.
  intros Hheaders.
  assert (Hc : create_pass m base r uid template st
               = (answer_result Pass_from_api_response r,
                  after_request (create_request base uid template headers) st1)).
  { unfold create_pass. cbv zeta. after_headers Hheaders. by_answer r. }
  split; [exact Hc |]. split.
  - unfold get_pass. after_headers Hheaders. by_answer r.
  - intros data -> Huser Hstatus. rewrite Hc. simpl.
    unfold Pass_from_api_response. rewrite Hstatus, Huser. simpl.
    eexists. repeat split; reflexivity.
Qed.

Lemma create_pass_returns_the_answer_witness :
  sent (snd (create_pass mock_authenticate mock_api_base (Refused ConnectionError)
               "usr-abc123" "tmpl-1" (sample_state (Some hour_token) 2000)))
  = [create_request mock_api_base "usr-abc123" "tmpl-1"
       (bearer_headers "first" default_app_id default_app_version)].
Proof.
  destruct (create_pass_returns_the_answer mock_authenticate mock_api_base
              "usr-abc123" "tmpl-1" "p" (Refused ConnectionError)
              (sample_state (Some hour_token) 2000) _ _ eq_refl) as [Hcreate _].
  rewrite Hcreate. reflexivity.
Defined.

(** X10. The networked [get_issuance_token] sends one GET to the
    [issuanceToken] url of the pass and reads the token from the key
    [issuanceToken], else from the key [token], else takes the empty string:
    an answer with neither key gives an empty token, not an error.  The
    pass id of the result is the one that was asked for. *)
Theorem get_issuance_token_fallback (m : M TokenResponse) (base pid : string)
    (r : reply IssuanceJson) (st st1 : State) (headers : list (string * string)) :
  get_headers m default_app_id default_app_version st = (Ok headers, st1) ->
  get_issuance_token m base r pid st
  = (answer_result (issued pid) r,
     after_request {| rq_verb := GET;
                      rq_url := pass_endpoint base +:+ "/" +:+ pid +:+ "/issuanceToken";
                      rq_body := NoBody; rq_headers := headers |} st1)
  /\ (forall data, r = ok_answer data ->
        ij_issuanceToken data = None -> ij_token data = None ->
        fst (get_issuance_token m base r pid st)
        = Ok {| it_token := ""; it_expires_at := None; it_pass_id := Some pid |}).
Proof.
  intros Hheaders.
  assert (Hg : get_issuance_token m base r pid st
               = (answer_result (issued pid) r,
                  after_request {| rq_verb := GET;
                                   rq_url := pass_endpoint base +:+ "/" +:+ pid
                                             +:+ "/issuanceToken";
                                   rq_body := NoBody; rq_headers := headers |} st1)).
  { unfold get_issuance_token. after_headers Hheaders.
    destruct r as [e | resp]; [reflexivity |].
    destruct ((400 <=? status_code resp) && (status_code resp <? 600)); [reflexivity |].
    destruct (json resp) as [data |]; [| reflexivity].
    unfold issued. destruct (ij_issuanceToken data), (ij_token data); reflexivity. }
  split; [exact Hg |].
  intros data -> Hi Ht. rewrite Hg. simpl. unfold issued. rewrite Hi, Ht. reflexivity.
Qed.

Lemma get_issuance_token_fallback_witness :
  fst (get_issuance_token mock_authenticate mock_api_base
         (ok_answer {| ij_issuanceToken := None; ij_token := Some "legacy" |})
         "p" (sample_state (Some hour_token) 2000))
  = Ok {| it_token := "legacy"; it_expires_at := None; it_pass_id := Some "p" |}.
Proof.
  destruct (get_issuance_token_fallback mock_authenticate mock_api_base "p"
              (ok_answer {| ij_issuanceToken := None; ij_token := Some "legacy" |})
              (sample_state (Some hour_token) 2000) _ _ eq_refl) as [Hget _].
  rewrite Hget. reflexivity.
Defined.

(** ** Pass status names and pass answers *)

Lemma PassStatus_of_value_value (st : PassStatus) :
  PassStatus_of_value (PassStatus_value st) = Ok st.
Proof. destruct st; reflexivity. Qed.

Lemma PassStatus_of_value_inv (v : string) (st : PassStatus) :
  PassStatus_of_value v = Ok st -> v = PassStatus_value st.
Proof.
  unfold PassStatus_of_value.
  destruct (List.find _ PassStatus_members) as [s' |] eqn:Hfind; [| discriminate].
  intros [= <-]. apply List.find_some in Hfind as [_ Heq].
  apply String.eqb_eq in Heq. congruence.
Qed.

(** X11. [PassStatus(v)] and [.value] are inverse: every status is found
    again from its value, and a string is accepted only when it is the value
    of the status it gives; any other string, such as a lower-case name,
    raises [ValueError]. *)
Theorem PassStatus_value_round_trip :
  (forall s, PassStatus_of_value (PassStatus_value s) = Ok s)
  /\ (forall v s, PassStatus_of_value v = Ok s -> v = PassStatus_value s)
  /\ (forall v, (forall s, PassStatus_value s <> v) ->
        PassStatus_of_value v
        = Raise (ValueError (repr_str v +:+ " is not a valid PassStatus")))
  /\ is_ok (PassStatus_of_value "pending") = false.
Proof.
  split; [exact PassStatus_of_value_value |].
  split; [exact PassStatus_of_value_inv |].
  split; [| reflexivity].
  intros v Hnot. unfold PassStatus_of_value.
  destruct (List.find _ PassStatus_members) as [s |] eqn:Hfind; [| reflexivity].
  exfalso. apply (Hnot s). apply List.find_some in Hfind as [_ Heq].
  apply String.eqb_eq in Heq. exact Heq.
Qed.

Lemma PassStatus_value_round_trip_witness :
  PassStatus_of_value "Active"
  = Raise (ValueError (repr_str "Active" +:+ " is not a valid PassStatus")).
Proof.
  destruct PassStatus_value_round_trip as (_ & _ & Hbad & _).
  apply Hbad. intros []; discriminate.
Defined.

(** X12. [Pass.from_api_response] fails exactly when the answer carries a
    status that is not the value of a [PassStatus]; the error is the
    [ValueError] of the enumeration.  Otherwise every field is taken from the
    answer, with PENDING for a missing status, the empty string for a
    missing user or template id, no credentials for a missing list, and no
    creation time in any case. *)
Theorem Pass_from_api_response_total_on_known_status (data : PassJson) :
  (is_ok (Pass_from_api_response data) = false
   <-> exists v, pj_status data = Some v /\ forall s, PassStatus_value s <> v)
  /\ (forall s, default "PENDING" (pj_status data) = PassStatus_value s ->
        Pass_from_api_response data
        = Ok {| pass_id := pj_id data;
                user_id := default "" (pj_userId data);
                pass_template_id := default "" (pj_passTemplateId data);
                status := s;
                created := None;
                platform := pj_platform data;
                credentials := default [] (pj_credentials data) |}).
Proof.
  pose proof PassStatus_of_value_value as Hround.
  pose proof PassStatus_of_value_inv as Hinv.
  split.
  - unfold Pass_from_api_response.
    destruct (PassStatus_of_value (default "PENDING" (pj_status data))) as [s | e] eqn:Hv;
      simpl.
    + split; [discriminate |]. intros (v & Hsome & Hnot).
      rewrite Hsome in Hv. simpl in Hv. exfalso. apply (Hnot s).
      symmetry. apply Hinv. exact Hv.
    + split; [intros _ | reflexivity].
      destruct (pj_status data) as [v |]; [| discriminate Hv].
      exists v. split; [reflexivity |]. intros s Heq. subst v.
      simpl in Hv. rewrite Hround in Hv. discriminate Hv.
  - intros s Hs. unfold Pass_from_api_response. rewrite Hs, Hround. reflexivity.
Qed.

Lemma Pass_from_api_response_total_on_known_status_witness :
  Pass_from_api_response {| pj_id := Some "p"; pj_userId := Some "u";
                            pj_passTemplateId := None; pj_status := None;
                            pj_platform := None; pj_credentials := None |}
  = Ok {| pass_id := Some "p"; user_id := "u"; pass_template_id := "";
          status := PENDING; created := None; platform := None; credentials := [] |}.
Proof.
  destruct (Pass_from_api_response_total_on_known_status
              {| pj_id := Some "p"; pj_userId := Some "u";
                 pj_passTemplateId := None; pj_status := None;
                 pj_platform := None; pj_credentials := None |}) as [_ Hok].
  apply (Hok PENDING eq_refl).
Defined.

(** ** The in-memory pass store *)

Lemma mock_suspend_pass_store (pid : string) (api : MockCredentialManagementAPI) :
  _passes (snd (mock_suspend_pass pid api))
  = match _passes api !! pid with
    | Some p => <[pid := set_status p SUSPENDED]> (_passes api)
    | None => _passes api
    end.
Proof. unfold mock_suspend_pass. destruct (_passes api !! pid); reflexivity. Qed.

Lemma mock_resume_pass_store (pid : string) (api : MockCredentialManagementAPI) :
  _passes (snd (mock_resume_pass pid api))
  = match _passes api !! pid with
    | Some p => <[pid := set_status p ACTIVE]> (_passes api)
    | None => _passes api
    end.
Proof. unfold mock_resume_pass. destruct (_passes api !! pid); reflexivity. Qed.

Lemma mock_delete_pass_store (pid : string) (api : MockCredentialManagementAPI) :
  _passes (snd (mock_delete_pass pid api)) = delete pid (_passes api).
Proof.
  unfold mock_delete_pass. simpl.
  destruct (_passes api !! pid) eqn:E; simpl; [reflexivity |].
  symmetry. apply delete_id. exact E.
Qed.

Lemma api_eq (a b : MockCredentialManagementAPI) : _passes a = _passes b -> a = b.
Proof. destruct a, b. simpl. intros ->. reflexivity. Qed.

(** X13. The in-memory client keeps every pass under its own id: the
    property holds for the empty store and [create_pass], [suspend_pass],
    [resume_pass] and [delete_pass] preserve it. *)
Theorem store_keyed_by_pass_id (api : MockCredentialManagementAPI)
    (uuid_pass uuid_cred uid template pid : string) (utcnow : datetime) :
  keyed api ->
  keyed (snd (mock_create_pass uuid_pass uuid_cred utcnow uid template api))
  /\ keyed (snd (mock_suspend_pass pid api))
  /\ keyed (snd (mock_resume_pass pid api))
  /\ keyed (snd (mock_delete_pass pid api)).
Proof.
  intros Hk. unfold keyed in *.
  split; [| split; [| split]].
  - intros k p. unfold mock_create_pass. simpl.
    destruct (decide (k = "pass-" +:+ str_take 12 uuid_pass)) as [-> | Hne].
    + rewrite lookup_insert_eq. intros [= <-]. reflexivity.
    + rewrite lookup_insert_ne by congruence. apply Hk.
  - intros k p. rewrite mock_suspend_pass_store.
    destruct (_passes api !! pid) as [q |] eqn:Hq; [| apply Hk].
    destruct (decide (k = pid)) as [-> | Hne].
    + rewrite lookup_insert_eq. intros [= <-]. simpl. apply (Hk pid q Hq).
    + rewrite lookup_insert_ne by congruence. apply Hk.
  - intros k p. rewrite mock_resume_pass_store.
    destruct (_passes api !! pid) as [q |] eqn:Hq; [| apply Hk].
    destruct (decide (k = pid)) as [-> | Hne].
    + rewrite lookup_insert_eq. intros [= <-]. simpl. apply (Hk pid q Hq).
    + rewrite lookup_insert_ne by congruence. apply Hk.
  - intros k p. rewrite mock_delete_pass_store.
    destruct (decide (k = pid)) as [-> | Hne].
    + rewrite lookup_delete_eq. discriminate.
    + rewrite lookup_delete_ne by congruence. apply Hk.
Qed.

Lemma store_keyed_by_pass_id_witness : keyed one_pending.
Proof.
  assert (Hempty : keyed empty_api).
  { intros k p H. unfold empty_api in H. simpl in H.
    rewrite lookup_empty in H. discriminate H. }
  destruct (store_keyed_by_pass_id empty_api "0123456789abcdef0123456789abcdef"
              "fedcba9876543210fedcba9876543210" "usr-abc123"
              "tmpl-employee-badge-001" "p" sample_time Hempty) as [Hcreate _].
  exact Hcreate.
Defined.

(** X14. [create_pass] of the in-memory client returns a PENDING pass with
    one SEOS credential for the given user and template and stores it under
    its id; the other passes are untouched.  The id keeps only the first 12
    hex digits of the uuid: two draws that agree on them give the same id,
    and the later pass replaces the earlier one. *)
Theorem create_pass_stores_pending_pass (api : MockCredentialManagementAPI)
    (u1 c1 u2 c2 uid template uid2 template2 : string) (t1 t2 : datetime) :
  let created_pass := fst (mock_create_pass u1 c1 t1 uid template api) in
  let api1 := snd (mock_create_pass u1 c1 t1 uid template api) in
  _passes api1 !! new_pass_id u1 = Some created_pass
  /\ pass_id created_pass = Some (new_pass_id u1)
  /\ status created_pass = PENDING
  /\ user_id created_pass = uid
  /\ pass_template_id created_pass = template
  /\ credentials created_pass
     = [[("type", PStr "SEOS"); ("id", PStr ("cred-" +:+ str_take 8 c1))]]
  /\ (forall other, other <> new_pass_id u1 ->
        _passes api1 !! other = _passes api !! other)
  /\ (str_take 12 u1 = str_take 12 u2 ->
      snd (mock_create_pass u2 c2 t2 uid2 template2 api1)
      = snd (mock_create_pass u2 c2 t2 uid2 template2 api)).
Proof.
  simpl. unfold new_pass_id.
  repeat split.
  - apply lookup_insert_eq.
  - intros other Hne. apply lookup_insert_ne. congruence.
  - intros Hsame. apply api_eq. simpl. rewrite Hsame. apply insert_insert_eq.
Qed.

Lemma create_pass_stores_pending_pass_witness :
  snd (mock_create_pass "0123456789abffffffffffffffffffff" "c2" sample_time
         "usr-2" "tmpl-2" one_pending)
  = snd (mock_create_pass "0123456789abffffffffffffffffffff" "c2" sample_time
           "usr-2" "tmpl-2" empty_api).
Proof.
  destruct (create_pass_stores_pending_pass empty_api
              "0123456789abcdef0123456789abcdef" "fedcba9876543210fedcba9876543210"
              "0123456789abffffffffffffffffffff" "c2"
              "usr-abc123" "tmpl-employee-badge-001" "usr-2" "tmpl-2"
              sample_time sample_time) as (_ & _ & _ & _ & _ & _ & _ & Hcollide).
  apply Hcollide. reflexivity.
Defined.

(** X15. In the in-memory client the last of [suspend_pass] and
    [resume_pass] wins: resuming after suspending gives an ACTIVE pass and
    the store that resuming alone gives, suspending twice is suspending
    once, and suspending then resuming an ACTIVE pass restores the store. *)
Theorem suspend_then_resume (api : MockCredentialManagementAPI) (pid : string) (p : Pass) :
  _passes api !! pid = Some p ->
  mock_resume_pass pid (snd (mock_suspend_pass pid api))
  = (Ok (set_status p ACTIVE), snd (mock_resume_pass pid api))
  /\ mock_suspend_pass pid (snd (mock_resume_pass pid api))
     = (Ok (set_status p SUSPENDED), snd (mock_suspend_pass pid api))
  /\ mock_suspend_pass pid (snd (mock_suspend_pass pid api))
     = mock_suspend_pass pid api
  /\ (status p = ACTIVE ->
      snd (mock_resume_pass pid (snd (mock_suspend_pass pid api))) = api).
Proof.
  intros Hp.
  assert (Hs : mock_suspend_pass pid api
               = (Ok (set_status p SUSPENDED),
                  {| _passes := <[pid := set_status p SUSPENDED]> (_passes api) |}))
    by (unfold mock_suspend_pass; rewrite Hp; reflexivity).
  assert (Hr : mock_resume_pass pid api
               = (Ok (set_status p ACTIVE),
                  {| _passes := <[pid := set_status p ACTIVE]> (_passes api) |}))
    by (unfold mock_resume_pass; rewrite Hp; reflexivity).
  rewrite Hs, Hr. simpl.
  unfold mock_resume_pass, mock_suspend_pass. simpl.
  rewrite !lookup_insert_eq. simpl. rewrite !insert_insert_eq.
  repeat split.
  intros Hactive. apply api_eq. simpl.
  replace (set_status (set_status p SUSPENDED) ACTIVE) with p
    by (destruct p; simpl in *; subst; reflexivity).
  apply insert_id. exact Hp.
Qed.

Lemma suspend_then_resume_witness :
  exists p, fst (mock_resume_pass "pass-0123456789ab"
                   (snd (mock_suspend_pass "pass-0123456789ab" one_pending))) = Ok p
            /\ status p = ACTIVE.
Proof.
  destruct one_pending_lookup as (p & Hp & _).
  destruct (suspend_then_resume one_pending "pass-0123456789ab" p Hp) as [Hsr _].
  exists (set_status p ACTIVE). rewrite Hsr. split; reflexivity.
Defined.

(** X16. A deleted pass is gone for the other operations: after
    [delete_pass], [suspend_pass] and [resume_pass] on the same id raise
    [ValueError] and change nothing.  Creating a pass under a new id and
    deleting it restores the store. *)
Theorem delete_pass_then_lifecycle (api : MockCredentialManagementAPI)
    (pid u c uid template : string) (t : datetime) :
  mock_suspend_pass pid (snd (mock_delete_pass pid api))
  = (Raise (ValueError ("Pass not found: " +:+ pid)), snd (mock_delete_pass pid api))
  /\ mock_resume_pass pid (snd (mock_delete_pass pid api))
     = (Raise (ValueError ("Pass not found: " +:+ pid)), snd (mock_delete_pass pid api))
  /\ (_passes api !! new_pass_id u = None ->
      snd (mock_delete_pass (new_pass_id u)
             (snd (mock_create_pass u c t uid template api))) = api).
Proof.
  pose proof (mock_delete_pass_absent pid api) as Hgone.
  split; [| split].
  - unfold mock_suspend_pass. rewrite Hgone. reflexivity.
  - unfold mock_resume_pass. rewrite Hgone. reflexivity.
  - intros Hnew. apply api_eq. rewrite mock_delete_pass_store.
    unfold mock_create_pass, new_pass_id in *. simpl.
    rewrite delete_insert_eq. apply delete_id. exact Hnew.
Qed.

Lemma delete_pass_then_lifecycle_witness :
  snd (mock_delete_pass "pass-0123456789ab" one_pending) = empty_api.
Proof.
  destruct (delete_pass_then_lifecycle empty_api "p"
              "0123456789abcdef0123456789abcdef" "fedcba9876543210fedcba9876543210"
              "usr-abc123" "tmpl-employee-badge-001" sample_time)
    as (_ & _ & Hround).
  apply Hround. apply lookup_empty.
Defined.

(** X17. [suspend_pass] and [resume_pass] of the in-memory client never add
    or remove a pass, [delete_pass] removes the given id and no other, and
    [create_pass] adds the new id and removes none. *)
Theorem lifecycle_domains (api : MockCredentialManagementAPI)
    (pid u c uid template : string) (t : datetime) :
  dom (_passes (snd (mock_suspend_pass pid api))) = dom (_passes api)
  /\ dom (_passes (snd (mock_resume_pass pid api))) = dom (_passes api)
  /\ dom (_passes (snd (mock_delete_pass pid api))) = dom (_passes api) ∖ {[pid]}
  /\ dom (_passes (snd (mock_create_pass u c t uid template api)))
     = {[new_pass_id u]} ∪ dom (_passes api).
Proof.
  split; [| split; [| split]].
  - rewrite mock_suspend_pass_store.
    destruct (_passes api !! pid) as [p |] eqn:Hp; [| reflexivity].
    rewrite dom_insert_L. apply subseteq_union_1_L, singleton_subseteq_l.
    apply (elem_of_dom_2 (_passes api) pid p). exact Hp.
  - rewrite mock_resume_pass_store.
    destruct (_passes api !! pid) as [p |] eqn:Hp; [| reflexivity].
    rewrite dom_insert_L. apply subseteq_union_1_L, singleton_subseteq_l.
    apply (elem_of_dom_2 (_passes api) pid p). exact Hp.
  - rewrite mock_delete_pass_store. apply dom_delete_L.
  - unfold mock_create_pass. simpl. apply dom_insert_L.
Qed.

(** ** Interpretation of events *)

Lemma prefix_append (s rest : string) : String.prefix s (s +:+ rest) = true.
Proof.
  induction s as [| c s IH]; simpl; [destruct rest; reflexivity |].
  destruct (ascii_dec c c); [exact IH | congruence].
Qed.

Lemma is_substring_of_prefix (needle haystack : string) :
  String.prefix needle haystack = true -> is_substring needle haystack = true.
Proof. intros H. destruct haystack; simpl in *; rewrite H; reflexivity. Qed.

Lemma is_substring_middle (before s rest : string) :
  is_substring s (before +:+ s +:+ rest) = true.
Proof. apply is_substring_append_r, is_substring_of_prefix, prefix_append. Qed.

Lemma is_substring_end (before s : string) :
  is_substring s (before +:+ s) = true.
Proof.
  apply is_substring_append_r, is_substring_of_prefix.
  induction s as [| c s IH]; simpl; [reflexivity |].
  destruct (ascii_dec c c); [exact IH | congruence].
Qed.

(** X18. Whatever the event, the text of [interpret()] contains the subject
    of the event. *)
Theorem interpret_mentions_subject (e : CloudEvent) :
  is_substring (subject e) (interpret e) = true.
Proof.
  unfold interpret, dict_get, interpretations. simpl.
  destruct (String.eqb (type e) "PASS_UPDATED").
  { unfold _interpret_pass_updated.
    destruct (eq_str _ "COMPLETED"); [apply is_substring_middle |].
    destruct (eq_str _ "SUSPENDED"); apply is_substring_middle. }
  destruct (String.eqb (type e) "PASS_CREATED"); [apply is_substring_middle |].
  destruct (String.eqb (type e) "USER_CREATED"); [apply is_substring_middle |].
  destruct (String.eqb (type e) "USER_DELETED"); [apply is_substring_middle |].
  unfold _interpret_generic.
  apply is_substring_append_r, is_substring_append_r, is_substring_end.
Qed.

(** X19. For a [PASS_UPDATED] event only the exact statuses [COMPLETED] and
    [SUSPENDED] have a text of their own.  A SUSPENDED pass asks to disable
    the physical access; a missing status is reported as UNKNOWN; any other
    string, a lower-case [completed] included, is reported as it is; a
    status that is [null], a boolean or a number is reported as [None],
    [True] or [False], or its decimal digits. *)
Theorem interpret_pass_updated_other_status (e : CloudEvent) :
  type e = "PASS_UPDATED" ->
  (dict_lookup "status" (data e) = Some (PStr "SUSPENDED") ->
   interpret e
   = "Pass " +:+ subject e +:+ " has been SUSPENDED." +:+ nl +:+
     "Action: Disable user's physical access in LenelS2." +:+ nl +:+
     "         Log the suspension event for audit.")
  /\ (dict_lookup "status" (data e) = None ->
      interpret e = "Pass " +:+ subject e +:+ " updated to status: UNKNOWN")
  /\ (forall s, dict_lookup "status" (data e) = Some (PStr s) ->
        s <> "COMPLETED" -> s <> "SUSPENDED" ->
        interpret e = "Pass " +:+ subject e +:+ " updated to status: " +:+ s)
  /\ (dict_lookup "status" (data e) = Some PNone ->
      interpret e = "Pass " +:+ subject e +:+ " updated to status: None")
  /\ (forall b, dict_lookup "status" (data e) = Some (PBool b) ->
        interpret e = "Pass " +:+ subject e +:+ " updated to status: "
                      +:+ (if b then "True" else "False"))
  /\ (forall z, dict_lookup "status" (data e) = Some (PInt z) ->
        interpret e = "Pass " +:+ subject e +:+ " updated to status: "
                      +:+ NilZero.string_of_int (Z.to_int z)).
Proof.
  intros Htype.
  assert (Hi : interpret e = _interpret_pass_updated e).
  { unfold interpret. rewrite Htype. reflexivity. }
  rewrite Hi. unfold _interpret_pass_updated, dict_get.
  split; [intros ->; reflexivity |].
  split; [intros ->; reflexivity |].
  split.
  { intros s -> Hc Hs. simpl.
    apply String.eqb_neq in Hc, Hs. rewrite Hc, Hs. reflexivity. }
  split; [intros ->; reflexivity |].
  split; [intros b ->; destruct b; reflexivity |].
  intros z ->. reflexivity.
Qed.

Lemma interpret_pass_updated_other_status_witness :
  interpret {| type := "PASS_UPDATED"; subject := "pass/abc"; time := scenario_time;
               data := [("status", PStr "completed")];
               event_id := None; source := None; specversion := "1.0" |}
  = "Pass pass/abc updated to status: completed".
Proof.
  destruct (interpret_pass_updated_other_status
              {| type := "PASS_UPDATED"; subject := "pass/abc"; time := scenario_time;
                 data := [("status", PStr "completed")];
                 event_id := None; source := None; specversion := "1.0" |} eq_refl)
    as (_ & _ & Hother & _).
  apply (Hother "completed" eq_refl); discriminate.
Defined.

(** X20. The text of [interpret()] depends on the type, the subject and the
    data of the event only: two deliveries that differ in id, time, source
    or specversion are interpreted alike. *)
Theorem interpret_ignores_envelope (e e' : CloudEvent) :
  type e = type e' -> subject e = subject e' -> data e = data e' ->
  interpret e = interpret e'.
Proof.
  destruct e as [ty su ti da ei so sp], e' as [ty' su' ti' da' ei' so' sp'].
  simpl. intros <- <- <-.
  unfold interpret, dict_get, interpretations. simpl.
  repeat match goal with
         | |- context [String.eqb ty ?k] => destruct (String.eqb ty k)
         end; reflexivity.
Qed.

Lemma interpret_ignores_envelope_witness :
  interpret {| type := "USER_DELETED"; subject := "user/1"; time := scenario_time;
               data := []; event_id := Some "evt-1"; source := None;
               specversion := "1.0" |}
  = interpret {| type := "USER_DELETED"; subject := "user/1"; time := sample_time;
                 data := []; event_id := Some "evt-2"; source := Some "origo";
                 specversion := "1.0" |}.
Proof.
  apply interpret_ignores_envelope; reflexivity.
Defined.

(** ** Callback registrations in the two clients *)

Lemma shown_lookup {A} (heap : gmap nat A) (store : gmap string nat) (k : string) :
  shown heap store !! k = store !! k ≫= (fun l => heap !! l).
Proof. unfold shown. apply lookup_omap. Qed.

(** X21. The in-memory client keeps the registration object it is given
    and writes the new id into it: the method returns that object, the new
    id refers to it, and the object keeps its url, filter, header and
    secret.  Other ids keep the objects they referred to and other objects
    are untouched.  An id under which the same object was registered before
    still refers to it, and so shows the new id.  For an object the store
    does not refer to yet, the registrations the store shows are those of
    the client that is given the registration by value. *)
Theorem mock_register_callback_keeps_registration (uuid_hex : string)
    (registration : nat) (reg : CallbackRegistration)
    (heap : gmap nat CallbackRegistration) (store : gmap string nat) :
  heap !! registration = Some reg ->
  let returned := fst (fst (mock_register_callback_in_place uuid_hex registration heap store)) in
  let heap' := snd (fst (mock_register_callback_in_place uuid_hex registration heap store)) in
  let store' := snd (mock_register_callback_in_place uuid_hex registration heap store) in
  returned = registration
  /\ store' !! new_callback_id uuid_hex = Some registration
  /\ heap' !! registration = Some (set_registration_id reg (Some (new_callback_id uuid_hex)))
  /\ (forall stored, heap' !! registration = Some stored ->
        registration_id stored = Some (new_callback_id uuid_hex)
        /\ url stored = url reg /\ filter stored = filter reg
        /\ http_header stored = http_header reg /\ secret stored = secret reg)
  /\ (forall other, other <> new_callback_id uuid_hex -> store' !! other = store !! other)
  /\ (forall l, l <> registration -> heap' !! l = heap !! l)
  /\ (forall other, store !! other = Some registration ->
        shown heap' store' !! other
        = Some (set_registration_id reg (Some (new_callback_id uuid_hex))))
  /\ ((forall other, store !! other <> Some registration) ->
      shown heap' store'
      = _registrations (snd (mock_register_callback uuid_hex reg
                               {| _registrations := shown heap store |}))).
Proof.
  intros Hreg. simpl. fold (new_callback_id uuid_hex).
  assert (Hh : alter (fun r => set_registration_id r (Some (new_callback_id uuid_hex)))
                 registration heap !! registration
               = Some (set_registration_id reg (Some (new_callback_id uuid_hex)))).
  { rewrite lookup_alter_eq, Hreg. reflexivity. }
  split; [reflexivity |].
  split; [apply lookup_insert_eq |].
  split; [exact Hh |].
  split.
  { intros stored Hs. rewrite Hh in Hs. injection Hs as <-. repeat split. }
  split; [intros other Hne; apply lookup_insert_ne; congruence |].
  split; [intros l Hne; apply lookup_alter_ne; congruence |].
  split.
  - intros other Hother. rewrite shown_lookup.
    destruct (decide (other = new_callback_id uuid_hex)) as [-> | Hne].
    + rewrite lookup_insert_eq. simpl. exact Hh.
    + rewrite lookup_insert_ne by congruence. rewrite Hother. simpl. exact Hh.
  - intros Hfresh. apply map_eq. intros k. rewrite shown_lookup.
    destruct (decide (k = new_callback_id uuid_hex)) as [-> | Hne].
    + rewrite !lookup_insert_eq. simpl. exact Hh.
    + rewrite !lookup_insert_ne by congruence. rewrite shown_lookup.
      destruct (store !! k) as [l |] eqn:Hk; simpl; [| reflexivity].
      apply lookup_alter_ne. intros <-. apply (Hfresh k). exact Hk.
Qed.

Lemma mock_register_callback_keeps_registration_witness :
  let first := mock_register_callback_in_place "0123456789abcdef0123456789abcdef"
                 0%nat two_objects ∅ in
  let second := mock_register_callback_in_place "ffffffffffffffffffffffffffffffff"
                  0%nat (snd (fst first)) (snd first) in
  shown (snd (fst second)) (snd second) !! "cb-0123456789ab"
  = Some (set_registration_id unpaired_registration (Some "cb-ffffffffffff")).
Proof.
  intros first second.
  destruct (mock_register_callback_keeps_registration
              "ffffffffffffffffffffffffffffffff" 0%nat
              (set_registration_id unpaired_registration (Some "cb-0123456789ab"))
              (snd (fst first)) (snd first))
    as (_ & _ & _ & _ & _ & _ & Halias & _).
  - reflexivity.
  - apply Halias. reflexivity.
Defined.

(** X22. With headers at hand, the networked [delete_callback] sends one
    DELETE to the url of the registration and returns success unless the
    transport fails or the answer has an error status, which it raises;
    [list_callbacks] sends one GET and returns the decoded answer as it
    is. *)
Theorem callback_listing_and_deletion (m : M TokenResponse) (base cid : string)
    (rd : reply unit) (rl : reply pyval) (st st1 : State)
    (headers : list (string * string)) :
  get_headers m default_app_id default_app_version st = (Ok headers, st1) ->
  delete_callback m base rd cid st
  = (match rd with
     | Refused e => Raise e
     | Answered resp =>
         if error_status (status_code resp)
         then Raise (HTTPError (status_code resp) (text resp))
         else Ok true
     end,
     after_request {| rq_verb := DELETE;
                      rq_url := callback_endpoint base +:+ "/" +:+ cid;
                      rq_body := NoBody; rq_headers := headers |} st1)
  /\ list_callbacks m base rl st
     = (answer_result Ok rl,
        after_request {| rq_verb := GET; rq_url := callback_endpoint base;
                         rq_body := NoBody; rq_headers := headers |} st1).
Proof.
  intros Hheaders. split.
  - unfold delete_callback. after_headers Hheaders.
    destruct rd as [e | resp]; [reflexivity |].
    destruct ((400 <=? status_code resp) && (status_code resp <? 600)); reflexivity.
  - unfold list_callbacks. after_headers Hheaders. by_answer rl.
Qed.

Lemma callback_listing_and_deletion_witness :
  fst (list_callbacks mock_authenticate mock_api_base
         (ok_answer (PList [PDict [("id", PStr "cb-1"); ("secret", PStr "s")]]))
         (sample_state (Some hour_token) 2000))
  = Ok (PList [PDict [("id", PStr "cb-1"); ("secret", PStr "s")]]).
Proof.
  destruct (callback_listing_and_deletion mock_authenticate mock_api_base "cb-1"
              (Refused Timeout)
              (ok_answer (PList [PDict [("id", PStr "cb-1"); ("secret", PStr "s")]]))
              (sample_state (Some hour_token) 2000) _ _ eq_refl) as [_ Hlist].
  rewrite Hlist. reflexivity.
Defined.

(** ** Users *)

Lemma string_app_nil_r (s : string) : s +:+ "" = s.
Proof.
  induction s as [| c s IH]; [reflexivity |].
  change (String c (s +:+ "") = String c s). rewrite IH. reflexivity.
Qed.

Lemma string_app_assoc (a b c : string) : (a +:+ b) +:+ c = a +:+ (b +:+ c).
Proof.
  induction a as [| x a IH]; [reflexivity |].
  change (String x ((a +:+ b) +:+ c) = String x (a +:+ (b +:+ c))).
  rewrite IH. reflexivity.
Qed.

Lemma string_rev_app (a b : string) :
  string_rev (a +:+ b) = string_rev b +:+ string_rev a.
Proof.
  induction a as [| x a IH].
  - change ("" +:+ b) with b. simpl. rewrite string_app_nil_r. reflexivity.
  - change (string_rev (a +:+ b) +:+ String x ""
            = string_rev b +:+ (string_rev a +:+ String x "")).
    rewrite IH, string_app_assoc. reflexivity.
Qed.

Lemma string_rev_involutive (s : string) : string_rev (string_rev s) = s.
Proof.
  induction s as [| c s IH]; [reflexivity |].
  cbn [string_rev]. rewrite string_rev_app, IH. reflexivity.
Qed.

Lemma is_plain_not_space (c : ascii) :
  is_plain c = true ->
  is_space c = false
  /\ (forall a, is_space2 c a = false) /\ (forall a, is_space2 a c = false)
  /\ (forall a b, is_space3 c a b = false) /\ (forall a b, is_space3 a b c = false).
Proof.
  unfold is_plain, is_space2, is_space3. intros H.
  apply andb_prop in H as [Hlt Hns]. apply negb_true_iff in Hns.
  apply N.ltb_lt in Hlt.
  split; [exact Hns |].
  assert (H1 : forall k, (128 <= k)%N -> (N_of_ascii c =? k)%N = false)
    by (intros k Hk; apply N.eqb_neq; lia).
  assert (H2 : forall k, (128 <= k)%N -> (k <=? N_of_ascii c)%N = false)
    by (intros k Hk; apply N.leb_gt; lia).
  cbv zeta.
  repeat split; intros;
    rewrite ?H1, ?H2 by lia; rewrite ?andb_false_r, ?andb_false_l, ?orb_false_r;
    reflexivity.
Qed.

Lemma lstrip_plain (c : ascii) (s : string) :
  is_plain c = true -> lstrip (String c s) = String c s.
Proof.
  intros H. destruct (is_plain_not_space c H) as (H1 & H2 & _ & H3 & _).
  cbn [lstrip]. rewrite H1.
  destruct s as [| c2 s]; [reflexivity |]. rewrite H2.
  destruct s as [| c3 s]; [reflexivity |]. rewrite H3. reflexivity.
Qed.

Lemma lstrip_reversed_plain (c : ascii) (s : string) :
  is_plain c = true -> lstrip_reversed (String c s) = String c s.
Proof.
  intros H. destruct (is_plain_not_space c H) as (H1 & _ & H2 & _ & H3).
  cbn [lstrip_reversed]. rewrite H1.
  destruct s as [| c2 s]; [reflexivity |]. rewrite H2.
  destruct s as [| c3 s]; [reflexivity |]. rewrite H3. reflexivity.
Qed.

Lemma plain_ends_inv (s : string) :
  plain_ends s = true ->
  exists a r b q, s = String a r /\ string_rev s = String b q
                  /\ is_plain a = true /\ is_plain b = true.
Proof.
  unfold plain_ends. destruct s as [| a r]; [discriminate |].
  destruct (string_rev (String a r)) as [| b q]; [discriminate |].
  intros H. apply andb_prop in H as [Ha Hb].
  exists a, r, b, q. auto.
Qed.

(** White space before a name that ends in a plain character is all
    [rstrip] could remove, and it does not reach it. *)
Lemma rstrip_plain_end (a f : string) :
  plain_ends f = true -> rstrip (a +:+ f) = a +:+ f.
Proof.
  intros H. destruct (plain_ends_inv f H) as (x & r & b & q & _ & Hrev & _ & Hb).
  unfold rstrip. rewrite string_rev_app, Hrev.
  change (String b q +:+ string_rev a) with (String b (q +:+ string_rev a)).
  rewrite (lstrip_reversed_plain b _ Hb).
  change (String b (q +:+ string_rev a)) with (String b q +:+ string_rev a).
  rewrite <- Hrev, <- string_rev_app. apply string_rev_involutive.
Qed.

Lemma lstrip_plain_start (g rest : string) :
  plain_ends g = true -> lstrip (g +:+ rest) = g +:+ rest.
Proof.
  intros H. destruct (plain_ends_inv g H) as (x & r & b & q & -> & _ & Hx & _).
  change (String x r +:+ rest) with (String x (r +:+ rest)).
  apply lstrip_plain. exact Hx.
Qed.

Lemma rstrip_trailing_space (g : string) :
  rstrip (g +:+ " ") = rstrip g.
Proof.
  unfold rstrip. rewrite string_rev_app. reflexivity.
Qed.

Lemma strip_plain (g : string) : plain_ends g = true -> strip g = g.
Proof.
  intros H. unfold strip.
  pose proof (rstrip_plain_end "" g H) as Hr. change ("" +:+ g) with g in Hr.
  rewrite Hr. pose proof (lstrip_plain_start g "" H) as Hl.
  rewrite string_app_nil_r in Hl. exact Hl.
Qed.

(** The no-break space is white space to [strip]. *)
Example strip_no_break_space :
  strip (no_break_space +:+ "John" +:+ " " +:+ no_break_space) = "John".
Proof. reflexivity. Qed.

(** X23. The [displayName] of [to_scim_dict] is the display name when there
    is one.  Otherwise it is made of the given and family names, stripped
    of white space at both ends: for names that begin and end with a
    character of their own that is not white space, the two joined by one
    space when both are there and the one that is there alone, with no
    dangling space, when the other is empty; the empty string when both
    are empty. *)
Theorem display_name_fallback (u : User) (g f : string) :
  given_name u = PStr g -> family_name u = PStr f ->
  (py_truthy (display_name u) = true ->
   scim_field "displayName" u = Some (display_name u))
  /\ (py_truthy (display_name u) = false ->
      scim_field "displayName" u = Some (PStr (strip (g +:+ " " +:+ f)))
      /\ (plain_ends g = true -> plain_ends f = true ->
          scim_field "displayName" u = Some (PStr (g +:+ " " +:+ f)))
      /\ (plain_ends g = true -> f = "" ->
          scim_field "displayName" u = Some (PStr g))
      /\ (g = "" -> plain_ends f = true ->
          scim_field "displayName" u = Some (PStr f))
      /\ (g = "" -> f = "" -> scim_field "displayName" u = Some (PStr ""))).
Proof.
  intros Hg Hf. unfold scim_field, to_scim_dict. simpl. rewrite Hg, Hf. simpl.
  split; [intros ->; reflexivity |].
  intros ->. split; [reflexivity |].
  split; [| split; [| split]].
  - intros Hpg Hpf. unfold strip.
    rewrite <- string_app_assoc.
    rewrite (rstrip_plain_end (g +:+ " ") f Hpf).
    rewrite string_app_assoc.
    rewrite (lstrip_plain_start g _ Hpg). reflexivity.
  - intros Hpg ->. unfold strip.
    rewrite rstrip_trailing_space.
    fold (strip g). rewrite (strip_plain g Hpg). reflexivity.
  - intros -> Hpf. unfold strip. change ("" +:+ " " +:+ f) with (" " +:+ f).
    rewrite (rstrip_plain_end " " f Hpf).
    change (" " +:+ f) with (String " " f). cbn [lstrip].
    change (is_space " ") with true. cbv iota.
    pose proof (lstrip_plain_start f "" Hpf) as Hl.
    rewrite string_app_nil_r in Hl. rewrite Hl. reflexivity.
  - intros -> ->. reflexivity.
Qed.

Lemma display_name_fallback_witness :
  scim_field "displayName" (new_user "EMP-1" "john@acme.com" "" "John" "")
  = Some (PStr "John").
Proof.
  destruct (display_name_fallback (new_user "EMP-1" "john@acme.com" "" "John" "")
              "John" "" eq_refl eq_refl) as [_ Hfallback].
  destruct (Hfallback eq_refl) as (_ & _ & Hgiven & _).
  apply Hgiven; reflexivity.
Defined.

(** X24. [from_api_response] reads back what [to_scim_dict] wrote: the
    external id, the e-mail address and the two names are those of the user,
    the display name is the [displayName] that was sent, and the id is
    unset.  Sending the user that was read back gives the same payload. *)
Theorem scim_round_trip (u : User) :
  exists u',
    User_from_api_response (to_scim_dict u) = Ok u'
    /\ external_id u' = external_id u
    /\ email u' = email u
    /\ given_name u' = given_name u
    /\ family_name u' = family_name u
    /\ Some (display_name u') = scim_field "displayName" u
    /\ usr_id u' = PNone
    /\ to_scim_dict u' = to_scim_dict u.
Proof.
  exists {| external_id := external_id u; email := email u;
            display_name :=
              (if py_truthy (display_name u) then display_name u
               else PStr (strip (py_str (given_name u) +:+ " "
                                 +:+ py_str (family_name u))));
            given_name := given_name u; family_name := family_name u;
            usr_id := PNone; usr_created := None; usr_last_modified := None |}.
  split; [reflexivity |].
  repeat split; try reflexivity.
  unfold to_scim_dict. simpl.
  destruct (py_truthy (display_name u)) eqn:Hd.
  - rewrite Hd. reflexivity.
  - destruct (strip (py_str (given_name u) +:+ " " +:+ py_str (family_name u)))
      as [| c s]; reflexivity.
Qed.

(** X25. [from_api_response] on answers that lack parts: with no [emails]
    key or an empty list the e-mail address is the empty string, and only
    the first entry of the list is read; with no [name] key the two names
    are the empty string.  A first entry without [value] raises [KeyError],
    and a [name] that is not an object raises [AttributeError]. *)
Theorem User_from_api_response_missing_parts (data : pydict) :
  (py_truthy (dict_get "emails" (PList []) data) = false ->
   forall u, User_from_api_response data = Ok u -> email u = PStr "")
  /\ (forall d rest, dict_lookup "emails" data = Some (PList (PDict d :: rest)) ->
        (dict_lookup "value" d = None ->
         User_from_api_response data = Raise (KeyError "value"))
        /\ (forall v u, dict_lookup "value" d = Some v ->
              User_from_api_response data = Ok u -> email u = v))
  /\ (dict_lookup "name" data = None ->
      forall u, User_from_api_response data = Ok u ->
                given_name u = PStr "" /\ family_name u = PStr "")
  /\ (forall v, dict_lookup "name" data = Some v -> (forall d, v <> PDict d) ->
        is_ok (first_email (dict_get "emails" (PList []) data)) = true ->
        User_from_api_response data = Raise (AttributeError "get")).
Proof.
  unfold User_from_api_response.
  split; [| split; [| split]].
  - intros Hfalsy u. unfold first_email. rewrite Hfalsy.
    destruct (name_get _ "givenName"); [| discriminate].
    destruct (name_get _ "familyName"); [| discriminate].
    intros [= <-]. reflexivity.
  - intros d rest Hemails. unfold dict_get. rewrite Hemails.
    unfold first_email. simpl. split.
    + intros ->. reflexivity.
    + intros v u ->.
      destruct (name_get _ "givenName"); [| discriminate].
      destruct (name_get _ "familyName"); [| discriminate].
      intros [= <-]. reflexivity.
  - intros Hname u. unfold dict_get at 2 3. rewrite Hname. simpl.
    destruct (first_email _); [| discriminate].
    intros [= <-]. split; reflexivity.
  - intros v Hname Hnot Hemail. unfold dict_get at 2 3. rewrite Hname.
    destruct (first_email _); [| discriminate].
    destruct v; try reflexivity. exfalso. apply (Hnot d). reflexivity.
Qed.

Lemma User_from_api_response_missing_parts_witness :
  User_from_api_response [("id", PStr "usr-1"); ("emails", PList [PDict [("type", PStr "work")]])]
  = Raise (KeyError "value").
Proof.
  destruct (User_from_api_response_missing_parts
              [("id", PStr "usr-1"); ("emails", PList [PDict [("type", PStr "work")]])])
    as (_ & Hfirst & _).
  destruct (Hfirst _ _ eq_refl) as [Hmissing _].
  apply Hmissing. reflexivity.
Defined.

(** X26. The in-memory user client keeps the user object it is given:
    [create_user] writes a new id and the two clock readings into the
    object, which keeps its other fields, returns the object and stores it
    under the new id, so that [get_user] on the new id returns it.  Other
    ids and other objects are untouched; an id under which the same object
    was created before still returns it, now with the new id in it.
    [get_user] on an id that is not stored raises [ValueError];
    [delete_user] always returns success, afterwards [get_user] on that id
    raises, and the other ids are untouched. *)
Theorem mock_user_store (uuid_hex uid : string) (now1 now2 : datetime)
    (user : nat) (u : User) (heap : gmap nat User) (api : MockUserManagementAPI) :
  heap !! user = Some u ->
  let created_user := fst (fst (mock_create_user uuid_hex now1 now2 user heap api)) in
  let heap' := snd (fst (mock_create_user uuid_hex now1 now2 user heap api)) in
  let api' := snd (mock_create_user uuid_hex now1 now2 user heap api) in
  created_user = user
  /\ mock_get_user (new_user_id uuid_hex) api' = Ok user
  /\ heap' !! user = Some (stamp_user (new_user_id uuid_hex) now1 now2 u)
  /\ (forall stored, heap' !! user = Some stored ->
        usr_id stored = PStr (new_user_id uuid_hex)
        /\ usr_created stored = Some now1
        /\ usr_last_modified stored = Some now2
        /\ to_scim_dict stored = to_scim_dict u)
  /\ (forall l, l <> user -> heap' !! l = heap !! l)
  /\ (forall other, other <> new_user_id uuid_hex ->
        mock_get_user other api' = mock_get_user other api)
  /\ (forall other, mock_get_user other api = Ok user ->
        mock_get_user other api' = Ok user)
  /\ (_users api !! uid = None ->
      mock_get_user uid api = Raise (ValueError ("User not found: " +:+ uid)))
  /\ fst (mock_delete_user uid api) = Ok true
  /\ mock_get_user uid (snd (mock_delete_user uid api))
     = Raise (ValueError ("User not found: " +:+ uid))
  /\ (forall other, other <> uid ->
        mock_get_user other (snd (mock_delete_user uid api)) = mock_get_user other api).
Proof.
  intros Hu. simpl. fold (new_user_id uuid_hex). unfold mock_get_user. simpl.
  assert (Hh : alter (stamp_user (new_user_id uuid_hex) now1 now2) user heap !! user
               = Some (stamp_user (new_user_id uuid_hex) now1 now2 u)).
  { rewrite lookup_alter_eq, Hu. reflexivity. }
  rewrite lookup_insert_eq.
  split; [reflexivity |]. split; [reflexivity |]. split; [exact Hh |].
  split.
  { intros stored Hs. rewrite Hh in Hs. injection Hs as <-. repeat split. }
  split; [intros l Hne; apply lookup_alter_ne; congruence |].
  split; [intros other Hne; rewrite lookup_insert_ne by congruence; reflexivity |].
  split.
  { intros other Hother.
    destruct (decide (other = new_user_id uuid_hex)) as [-> | Hne].
    - rewrite lookup_insert_eq. reflexivity.
    - rewrite lookup_insert_ne by congruence. exact Hother. }
  split; [intros ->; reflexivity |].
  split; [reflexivity |].
  split.
  - destruct (_users api !! uid) eqn:E; simpl.
    + rewrite lookup_delete_eq. reflexivity.
    + rewrite E. reflexivity.
  - intros other Hne.
    destruct (_users api !! uid) eqn:E; simpl; [| reflexivity].
    rewrite lookup_delete_ne by congruence. reflexivity.
Qed.

Lemma mock_user_store_witness :
  let first := mock_create_user "0123456789abcdef0123456789abcdef"
                 sample_time sample_time 0%nat one_user {| _users := ∅ |} in
  let second := mock_create_user "ffffffffffffffffffffffffffffffff"
                  sample_time sample_time 0%nat (snd (fst first)) (snd first) in
  mock_get_user "usr-0123456789ab" (snd second) = Ok 0%nat
  /\ mock_get_user "usr-ffffffffffff" (snd second) = Ok 0%nat
  /\ exists stored, snd (fst second) !! 0%nat = Some stored
                    /\ usr_id stored = PStr "usr-ffffffffffff".
Proof.
  intros first second.
  destruct (mock_user_store "ffffffffffffffffffffffffffffffff" "usr-1"
              sample_time sample_time 0%nat
              (stamp_user "usr-0123456789ab" sample_time sample_time
                 (new_user "EMP-1" "john@acme.com" "John Doe" "John" "Doe"))
              (snd (fst first)) (snd first) eq_refl)
    as (_ & Hnew & Hheap & _ & _ & _ & Hold & _).
  split; [apply Hold; reflexivity |].
  split; [exact Hnew |].
  eexists. split; [exact Hheap | reflexivity].
Defined.

(** ** Constructors and configuration *)

Lemma rstrip_char_no_trailing (c : ascii) (s : string) :
  ends_with c (rstrip_char c s) = false.
Proof.
  induction s as [| a s IH]; simpl; [reflexivity |].
  destruct (Ascii.eqb a c) eqn:Ha; simpl.
  - destruct (rstrip_char c s) as [| b r] eqn:Hr; simpl; [reflexivity |].
    exact IH.
  - destruct (rstrip_char c s) as [| b r] eqn:Hr; simpl; [exact Ha | exact IH].
Qed.

Lemma rstrip_char_decompose (c : ascii) (s : string) :
  exists n, s = rstrip_char c s +:+ repeat_string (String c "") n.
Proof.
  induction s as [| a s [n IH]]; [exists 0%nat; reflexivity |].
  cbn [rstrip_char].
  destruct (Ascii.eqb a c && String.eqb (rstrip_char c s) "") eqn:E.
  - apply andb_prop in E as [Ha Hr].
    apply Ascii.eqb_eq in Ha. apply String.eqb_eq in Hr. subst a.
    rewrite Hr in IH. exists (S n).
    change (String c s = String c (repeat_string (String c "") n)).
    f_equal. exact IH.
  - exists n.
    change (String a s
            = String a (rstrip_char c s +:+ repeat_string (String c "") n)).
    f_equal. exact IH.
Qed.

Lemma rstrip_char_id (c : ascii) (s : string) :
  ends_with c s = false -> rstrip_char c s = s.
Proof.
  induction s as [| a s IH]; simpl; [reflexivity |].
  destruct s as [| b s'].
  - simpl. intros ->. reflexivity.
  - intros H. rewrite (IH H). rewrite andb_false_r. reflexivity.
Qed.

(** X27. The base url the networked clients keep never ends with a slash:
    it is the url given, or the configured one when none or an empty one is
    given, without its trailing slashes.  When the configured url has no
    trailing slash, the clients' endpoints are the endpoints of the
    configuration. *)
Theorem api_base_has_no_trailing_slash (config : OrigoConfig) (base : option string) :
  ends_with "/" (api_init config base) = false
  /\ (exists n, str_or base (cfg_base_url config)
                = api_init config base +:+ repeat_string "/" n)
  /\ (ends_with "/" (cfg_base_url config) = false ->
      pass_endpoint (api_init config None) = config_pass_endpoint config
      /\ callback_endpoint (api_init config None) = config_callback_endpoint config
      /\ pass_endpoint (api_init config (Some "")) = config_pass_endpoint config).
Proof.
  unfold api_init.
  split; [apply rstrip_char_no_trailing |].
  split; [apply rstrip_char_decompose |].
  intros Hclean. simpl.
  unfold pass_endpoint, callback_endpoint, config_pass_endpoint, config_callback_endpoint.
  rewrite (rstrip_char_id _ _ Hclean). repeat split.
Qed.

Lemma api_base_has_no_trailing_slash_witness :
  pass_endpoint (api_init (load_config ∅) None)
  = "https://api.origo.hidglobal.com/pass".
Proof.
  destruct (api_base_has_no_trailing_slash (load_config ∅) None) as (_ & _ & Hclean).
  destruct Hclean as [Hpass _]; [reflexivity |].
  rewrite Hpass. reflexivity.
Defined.

(** X28. [OrigoAuth(...)] takes each of its four arguments, the
    organization id, the client id, the client secret and the base url, when
    it is given and not empty, and the configured value otherwise, and
    starts with no token, so that the first [get_token()] runs
    [authenticate()].  Built without arguments, its token endpoint is the
    [auth_endpoint] of the configuration and its token request carries the
    configured client id and secret. *)
Theorem OrigoAuth_init_defaults (config : OrigoConfig)
    (org cid csecret base : option string) :
  let a := OrigoAuth_init config org cid csecret base in
  (forall s, org = Some s -> s <> "" -> organization_id a = s)
  /\ (org = None \/ org = Some "" -> organization_id a = cfg_organization_id config)
  /\ (forall s, cid = Some s -> s <> "" -> client_id a = s)
  /\ (cid = None \/ cid = Some "" -> client_id a = cfg_client_id config)
  /\ (forall s, csecret = Some s -> s <> "" -> client_secret a = s)
  /\ (csecret = None \/ csecret = Some "" ->
      client_secret a = cfg_client_secret config)
  /\ (forall s, base = Some s -> s <> "" -> base_url a = s)
  /\ (base = None \/ base = Some "" -> base_url a = cfg_base_url config)
  /\ _token a = None
  /\ token_endpoint (OrigoAuth_init config None None None None) = auth_endpoint config
  /\ rq_body (token_request (OrigoAuth_init config None None None None))
     = Form [("client_id", cfg_client_id config);
             ("client_secret", cfg_client_secret config);
             ("grant_type", "client_credentials")]
  /\ (forall (m : M TokenResponse) (st : State),
        auth st = a -> get_token m st = (m ;;; current_access_token) st).
Proof.
  assert (Hgiven : forall s dflt, s <> "" -> str_or (Some s) dflt = s).
  { intros s dflt Hs. simpl. apply String.eqb_neq in Hs. rewrite Hs. reflexivity. }
  assert (Hdefault : forall x dflt, x = None \/ x = Some "" -> str_or x dflt = dflt).
  { intros x dflt [-> | ->]; reflexivity. }
  simpl.
  split; [intros s -> Hs; apply Hgiven; exact Hs |].
  split; [apply Hdefault |].
  split; [intros s -> Hs; apply Hgiven; exact Hs |].
  split; [apply Hdefault |].
  split; [intros s -> Hs; apply Hgiven; exact Hs |].
  split; [apply Hdefault |].
  split; [intros s -> Hs; apply Hgiven; exact Hs |].
  split; [apply Hdefault |].
  split; [reflexivity |]. split; [reflexivity |]. split; [reflexivity |].
  intros m st Hauth. apply get_token_refresh. rewrite Hauth. reflexivity.
Qed.

Lemma OrigoAuth_init_defaults_witness :
  organization_id (OrigoAuth_init (load_config ∅) (Some "demo-org-123") None None None)
  = "demo-org-123"
  /\ client_secret (OrigoAuth_init (load_config ∅) None None (Some "demo-secret") None)
     = "demo-secret".
Proof.
  split.
  - destruct (OrigoAuth_init_defaults (load_config ∅) (Some "demo-org-123")
                None None None) as [Hgiven _].
    apply (Hgiven "demo-org-123" eq_refl). discriminate.
  - destruct (OrigoAuth_init_defaults (load_config ∅) None None
                (Some "demo-secret") None) as (_ & _ & _ & _ & Hgiven & _).
    apply (Hgiven "demo-secret" eq_refl). discriminate.
Defined.

(** ** The time of an event *)

Lemma replace_Z_has_no_Z (s : string) : contains_char "Z" (replace_Z s) = false.
Proof.
  induction s as [| c s IH]; [reflexivity |].
  cbn [replace_Z]. destruct (Ascii.eqb c "Z") eqn:Hc.
  - change ("+00:00" +:+ replace_Z s)
      with (String "+" (String "0" (String "0" (String ":" (String "0" (String "0"
              (replace_Z s))))))).
    cbn [contains_char]. rewrite IH. reflexivity.
  - cbn [contains_char]. rewrite IH, Ascii.eqb_sym, Hc. reflexivity.
Qed.

Lemma replace_Z_without_Z (s : string) :
  contains_char "Z" s = false -> replace_Z s = s.
Proof.
  induction s as [| c s IH]; [reflexivity |].
  cbn [contains_char replace_Z]. intros H.
  apply orb_false_elim in H as [Hc Hs].
  rewrite Ascii.eqb_sym, Hc, (IH Hs). reflexivity.
Qed.

(** X29. [from_dict] never hands a [Z] to [fromisoformat]: every [Z] of the
    [time] field, not only a final one, is written [+00:00] first.  A
    payload whose time is written with [Z] and the same payload with
    [+00:00] in its place therefore parse alike, whatever the parser
    accepts. *)
Theorem from_dict_reads_Z_as_utc (fromisoformat : string -> result datetime)
    (payload : EventJson) (s : string) :
  ej_time payload = Some (PStr s) ->
  contains_char "Z" (time_argument payload) = false
  /\ from_dict fromisoformat (with_time payload (replace_Z s))
     = from_dict fromisoformat payload.
Proof.
  intros Htime. unfold time_argument, time_value. rewrite Htime. simpl.
  split; [apply replace_Z_has_no_Z |].
  unfold from_dict, time_argument, time_value. simpl. rewrite Htime. simpl.
  rewrite (replace_Z_without_Z _ (replace_Z_has_no_Z s)). reflexivity.
Qed.

Lemma from_dict_reads_Z_as_utc_witness :
  from_dict iso_seconds (with_time scenario_payload "2025-11-10T14:05:00+00:00")
  = from_dict iso_seconds scenario_payload.
Proof.
  destruct (from_dict_reads_Z_as_utc iso_seconds scenario_payload
              "2025-11-10T14:05:00Z" eq_refl) as [_ Hsame].
  exact Hsame.
Defined.
